(** * Preprocessing pipeline of [notebooks/article_1.py]

    A shallow embedding of the data-cleaning stages of the notebook
    (imputation, sign normalisation, outlier flagging, categorical
    encoding, date normalisation, export) and the properties its
    specification states about them, followed by further properties of
    these stages, of the plots and tables around them, and of the
    preprocessing as a whole.

    Modelling conventions.
    - A pandas [DataFrame] is a row count together with a finite map from
      column labels to typed columns.
    - Numeric columns (float64 and int64 alike) hold exact rationals; a
      missing entry (NaN) is [None].  The rounding of binary64 and the
      wrap-around of int64 do not show on these numbers: the statements
      that depend on them (the values the sign normaliser leaves, the rows
      the outlier flagger marks) are made on a second table, [Machine],
      whose columns hold binary64 and int64 values.
    - A [datetime64] column holds nanoseconds since the epoch; NaT is [None].
    - The script assigns to one global [dataframe]; a stage is a function
      from the frame before it to the frame after it.
    - An exception raised by the library ends the stage: every stage
      returns a [result]. *)

From stdpp Require Import gmap strings list fin_maps sorting.
From Stdlib Require Import ZArith QArith Qabs Qcanon Qround Reals Qreals Lia Lqa
  Lra.
From Stdlib Require Import SpecFloat.

Local Open Scope string_scope.
Local Open Scope list_scope.

#[local] Set Warnings "-clear-no-such-hyp".

(** ** Data model *)

Inductive column :=
| Numeric (xs : list (option Q))
| Object (xs : list (option string))
| Datetime (xs : list (option Z)).

Record DataFrame := mkDataFrame {
  nrows : nat;
  columns : gmap string column
}.

Inductive exn :=
| KeyError (labels : list string)
| TypeError.

Definition result (A : Type) : Type := (exn + A)%type.

Definition ret {A} (a : A) : result A := inr a.
Definition raise {A} (e : exn) : result A := inl e.
Definition bind {A B} (m : result A) (k : A -> result B) : result B :=
  match m with
  | inl e => inl e
  | inr a => k a
  end.

Notation "'let*' x := m 'in' k" := (bind m (fun x => k))
  (at level 10, x name, m at level 100, k at level 200).

Definition col_length (c : column) : nat :=
  match c with
  | Numeric xs => length xs
  | Object xs => length xs
  | Datetime xs => length xs
  end.

(** Every column of a frame has one entry per row. *)
Definition wf (df : DataFrame) : Prop :=
  map_Forall (fun _ c => col_length c = nrows df) (columns df).

(** [label in dataframe] / [label in dataframe.columns] *)
Definition has_column (df : DataFrame) (label : string) : bool :=
  bool_decide (is_Some (columns df !! label)).

(** [dataframe[label]] *)
Definition getitem (df : DataFrame) (label : string) : result column :=
  match columns df !! label with
  | Some c => ret c
  | None => raise (KeyError [label])
  end.

(** [dataframe[label] = c] *)
Definition setitem (df : DataFrame) (label : string) (c : column) : DataFrame :=
  {| nrows := nrows df; columns := <[label := c]> (columns df) |}.

(** ** Sign normaliser: [apply_absolute_values] (lines 296-302) *)

Definition abs_cell (x : option Q) : option Q := Qabs <$> x.

(** [np.abs(series)], defined on numbers. *)
Definition np_abs (c : column) : result column :=
  match c with
  | Numeric xs => ret (Numeric (abs_cell <$> xs))
  | Object _ => raise TypeError
  | Datetime _ => raise TypeError
  end.

(** [for col in columns: if col in dataframe.columns:
      dataframe[col] = np.abs(dataframe[col])] *)
Fixpoint apply_absolute_values (df : DataFrame) (cols : list string)
  : result DataFrame :=
  match cols with
  | [] => ret df
  | col :: rest =>
      if has_column df col then
        let* c := getitem df col in
        let* a := np_abs c in
        apply_absolute_values (setitem df col a) rest
      else apply_absolute_values df rest
  end.

Definition columns_to_abs : list string :=
  ["age_first_funding_year"; "age_last_funding_year";
   "age_first_milestone_year"; "age_last_milestone_year"].

Definition nonneg_cell (x : option Q) : Prop :=
  forall q, x = Some q -> (0 <= q)%Q.

(** The sign normaliser succeeds when every targeted column that is present
    is numeric. *)
Definition numeric_or_absent (df : DataFrame) (label : string) : bool :=
  match columns df !! label with
  | Some (Numeric _) => true
  | Some _ => false
  | None => true
  end.

Definition abs_column (c : column) : column :=
  match c with
  | Numeric xs => Numeric (abs_cell <$> xs)
  | _ => c
  end.

(** The frame the sign normaliser is expected to return: the targeted
    columns with every entry replaced by its absolute value. *)
Definition abs_frame (df : DataFrame) (cols : list string) : DataFrame :=
  {| nrows := nrows df;
     columns := map_imap (fun label c =>
       Some (if bool_decide (label ∈ cols) then abs_column c else c))
       (columns df) |}.

(** ** Column statistics *)

(** A stage that computes on numbers reads the entries of a numeric column;
    string and datetime operands are rejected (the exception class is not
    distinguished further). *)
Definition numeric_values (c : column) : result (list (option Q)) :=
  match c with
  | Numeric xs => ret xs
  | Object _ => raise TypeError
  | Datetime _ => raise TypeError
  end.

(** The entries that are present ([skipna=True]). *)
Definition dropna (xs : list (option Q)) : list Q := omap (fun x => x) xs.

Definition Qsum (vs : list Q) : Q := foldr Qplus 0%Q vs.

Definition Qcount (vs : list Q) : Q := inject_Z (Z.of_nat (length vs)).

(** [series.mean()]; NaN ([None]) when no entry is present. *)
Definition mean (xs : list (option Q)) : option Q :=
  match dropna xs with
  | [] => None
  | vs => Some (Qsum vs / Qcount vs)%Q
  end.

Definition sq_dev (m v : Q) : Q := ((v - m) * (v - m))%Q.

(** The square of [series.std()], the sample standard deviation
    ([ddof=1]); NaN when fewer than two entries are present. *)
Definition variance (xs : list (option Q)) : option Q :=
  match mean xs with
  | Some m =>
      let vs := dropna xs in
      if (length vs <=? 1)%nat then None
      else Some (Qsum (sq_dev m <$> vs) / inject_Z (Z.of_nat (length vs - 1)))%Q
  | None => None
  end.

Definition Qltb (x y : Q) : bool := negb (Qle_bool y x).

(** [a > t * std] for [a >= 0] and [std] the square root of [var >= 0],
    decided on rationals. *)
Definition gt_times_sqrt (a t var : Q) : bool :=
  if Qltb t 0 then Qltb 0 var || Qltb 0 a
  else Qltb (t * t * var) (a * a).

(** ** Outlier flagger: [identify_outliers] (lines 304-315) *)

(** [np.abs(column - mean) > threshold * std]: a comparison with NaN on
    either side is false. *)
Definition outlier_series (xs : list (option Q)) (threshold : Q) : list bool :=
  match mean xs, variance xs with
  | Some m, Some var =>
      (fun x => match x with
                | Some v => gt_times_sqrt (Qabs (v - m)) threshold var
                | None => false
                end) <$> xs
  | _, _ => (fun _ => false) <$> xs
  end.

(** [flag | int(b)] on an entry of the indicator column, which holds the
    integers the flagger has put there. *)
Definition ior (flag : option Q) (b : bool) : option Q :=
  (fun q => inject_Z (Z.lor (Qnum q) (Z.b2z b))) <$> flag.

(** The loop over the monitored labels; [dataframe['is_outlier'] |= ...]
    reads the indicator and assigns it back. *)
Fixpoint flag_columns (df : DataFrame) (cols : list string) (threshold : Q)
  : result DataFrame :=
  match cols with
  | [] => ret df
  | column_name :: rest =>
      if has_column df column_name then
        let* column := getitem df column_name in
        let* xs := numeric_values column in
        let is_outlier := outlier_series xs threshold in
        let* cur := getitem df "is_outlier" in
        let* flags := numeric_values cur in
        flag_columns
          (setitem df "is_outlier" (Numeric (zip_with ior flags is_outlier)))
          rest threshold
      else flag_columns df rest threshold
  end.

(** [dataframe['is_outlier'] = 0], then the loop. *)
Definition identify_outliers (df : DataFrame) (cols : list string)
    (threshold : Q) : result DataFrame :=
  flag_columns
    (setitem df "is_outlier" (Numeric (replicate (nrows df) (Some 0%Q))))
    cols threshold.

(** [threshold=4] *)
Definition default_threshold : Q := 4%Q.

(** The indicator column as stored: 1 for a flagged row, 0 otherwise. *)
Definition flag_cell (b : bool) : option Q := Some (inject_Z (Z.b2z b)).

(** The column read under [label] while the indicator holds [flags]: the
    indicator itself has been reset by the flagger, every other column is
    the one of the input frame. *)
Definition monitored (df : DataFrame) (flags : list bool) (label : string)
  : option column :=
  if bool_decide (label = "is_outlier") then Some (Numeric (flag_cell <$> flags))
  else columns df !! label.

(** One iteration of the loop, on the flags alone. *)
Definition flag_step (df : DataFrame) (threshold : Q) (flags : list bool)
    (label : string) : list bool :=
  match monitored df flags label with
  | Some (Numeric xs) => zip_with orb flags (outlier_series xs threshold)
  | _ => flags
  end.

Definition outlier_flags (df : DataFrame) (cols : list string) (threshold : Q)
  : list bool :=
  fold_left (flag_step df threshold) cols (replicate (nrows df) false).

(** Row [i] deviates from the mean of column [label] by more than
    [threshold] sample standard deviations. *)
Definition deviates (df : DataFrame) (label : string) (threshold : Q) (i : nat)
  : Prop :=
  exists xs mu var v,
    columns df !! label = Some (Numeric xs) /\
    mean xs = Some mu /\ variance xs = Some var /\
    xs !! i = Some (Some v) /\
    (Rabs (Q2R v - Q2R mu) > Q2R threshold * sqrt (Q2R var))%R.

(** A monitored label is acceptable to the flagger when it names the
    indicator, a numeric column, or no column at all. *)
Definition flaggable (df : DataFrame) (label : string) : bool :=
  bool_decide (label = "is_outlier") || numeric_or_absent df label.

(** Row [i] is flagged on account of column [label] of the input frame. *)
Definition flagged_by (df : DataFrame) (t : Q) (label : string) (i : nat)
  : Prop :=
  exists xs, columns df !! label = Some (Numeric xs) /\
             outlier_series xs t !! i = Some true.

(** The worked example of the specification. *)
Definition example_column : list (option Q) :=
  [Some 1%Q; Some 2%Q; Some 3%Q; Some 4%Q; Some 100%Q].

Definition example_frame : DataFrame :=
  {| nrows := 5; columns := {["value" := Numeric example_column]} |}.



(** ** Missing-value imputer (lines 186-191) *)

(** [series.fillna(value)]; filling with NaN leaves the entry missing. *)
Definition fillna (xs : list (option Q)) (value : option Q) : list (option Q) :=
  (fun x => match x with Some v => Some v | None => value end) <$> xs.

(** [dataframe[label] = dataframe[label].fillna(dataframe[label].mean())] *)
Definition impute_mean (df : DataFrame) (label : string) : result DataFrame :=
  let* c := getitem df label in
  let* xs := numeric_values c in
  ret (setitem df label (Numeric (fillna xs (mean xs)))).

Definition imputed_columns : list string :=
  ["age_first_milestone_year"; "age_last_milestone_year"].

Definition imputer (df : DataFrame) : result DataFrame :=
  let* df1 := impute_mean df "age_first_milestone_year" in
  impute_mean df1 "age_last_milestone_year".


(** ** Column pruner: [dataframe.drop(labels, axis=1)] (lines 115, 469, 532)

    Labels that name no column are reported together in a [KeyError]. *)

Definition absent_labels (df : DataFrame) (labels : list string) : list string :=
  List.filter (fun l => negb (has_column df l)) labels.

Definition drop (df : DataFrame) (labels : list string) : result DataFrame :=
  match absent_labels df labels with
  | [] => ret {| nrows := nrows df;
                 columns := foldr delete (columns df) labels |}
  | missing => raise (KeyError missing)
  end.

(** ** Categorical encoder (lines 495-510) *)

(** The values of a column as [unique] and [map] compare them: numbers by
    value (in lowest terms), strings and timestamps literally, every
    missing entry as the one value NaN. *)
Inductive scalar :=
| NaN
| Number (q : Q)
| Text (s : string)
| Timestamp (t : Z).

#[global] Instance Q_eq_dec : EqDecision Q.
Proof. solve_decision. Defined.

#[global] Instance scalar_eq_dec : EqDecision scalar.
Proof. solve_decision. Defined.

Definition scalars (c : column) : list scalar :=
  match c with
  | Numeric xs =>
      (fun x => match x with Some q => Number (Qred q) | None => NaN end) <$> xs
  | Object xs =>
      (fun x => match x with Some s => Text s | None => NaN end) <$> xs
  | Datetime xs =>
      (fun x => match x with Some t => Timestamp t | None => NaN end) <$> xs
  end.

(** [series.unique()]: the distinct values in order of first appearance. *)
Fixpoint unique_from (seen : list scalar) (values : list scalar) : list scalar :=
  match values with
  | [] => []
  | v :: rest =>
      if bool_decide (v ∈ seen) then unique_from seen rest
      else v :: unique_from (v :: seen) rest
  end.

Definition unique (values : list scalar) : list scalar := unique_from [] values.

(** A Python dictionary from values to codes, in insertion order. *)
Definition dict : Type := list (scalar * nat).

Fixpoint dict_get (mapping : dict) (key : scalar) : option nat :=
  match mapping with
  | [] => None
  | (k, code) :: rest =>
      if bool_decide (k = key) then Some code else dict_get rest key
  end.

(** [{value: i for i, value in enumerate(unique_values)}] *)
Definition create_mapping (dataframe : DataFrame) (column : string)
  : result dict :=
  let* c := getitem dataframe column in
  let unique_values := unique (scalars c) in
  ret (imap (fun i value => (value, i)) unique_values).

(** [series.map(mapping)]: a value without a code becomes NaN. *)
Definition series_map (c : column) (mapping : dict) : column :=
  Numeric ((fun v => (fun code => inject_Z (Z.of_nat code)) <$> dict_get mapping v)
             <$> scalars c).

(** [for column in categorical_columns: mapping = create_mapping(column);
      dataframe[column] = dataframe[column].map(mapping);
      column_mappings[column] = mapping] *)
Fixpoint encode_columns (df : DataFrame) (column_mappings : gmap string dict)
    (cols : list string) : result (DataFrame * gmap string dict) :=
  match cols with
  | [] => ret (df, column_mappings)
  | column :: rest =>
      let* mapping := create_mapping df column in
      let* c := getitem df column in
      encode_columns (setitem df column (series_map c mapping))
                     (<[column := mapping]> column_mappings) rest
  end.

Definition categorical_columns : list string :=
  ["state_code"; "city"; "category_code"; "founded_year"; "status"].

Definition categorical_encoder (df : DataFrame)
  : result (DataFrame * gmap string dict) :=
  encode_columns df ∅ categorical_columns.

(** [list.index(v)]: the position of the first occurrence. *)
Fixpoint index_of (v : scalar) (values : list scalar) : option nat :=
  match values with
  | [] => None
  | x :: rest => if bool_decide (x = v) then Some 0%nat else S <$> index_of v rest
  end.

(** ** Date normaliser (lines 522-532) *)

Definition date_columns : list string :=
  ["founded_at"; "first_funding_at"; "last_funding_at"].

Definition columns_to_convert : list string :=
  ["founded_at"; "first_funding_at"; "last_funding_at"].

(** The stage computes on timestamps; other operands are rejected. *)
Definition datetime_values (c : column) : result (list (option Z)) :=
  match c with
  | Datetime ts => ret ts
  | Numeric _ => raise TypeError
  | Object _ => raise TypeError
  end.

(** [dataframe[labels]]: every label must be present. *)
Definition getitems (df : DataFrame) (labels : list string)
  : result (list column) :=
  match absent_labels df labels with
  | [] => ret (omap (fun l => columns df !! l) labels)
  | missing => raise (KeyError missing)
  end.

Fixpoint mapM {A B} (f : A -> result B) (l : list A) : result (list B) :=
  match l with
  | [] => ret []
  | x :: rest =>
      let* y := f x in
      let* ys := mapM f rest in
      ret (y :: ys)
  end.

(** The smaller of two dates, NaT being skipped. *)
Definition min_skipna (a b : option Z) : option Z :=
  match a, b with
  | Some x, Some y => Some (Z.min x y)
  | Some x, None => Some x
  | None, _ => b
  end.

(** [series.min()]; NaT when no date is present. *)
Definition series_min (ts : list (option Z)) : option Z :=
  foldr min_skipna None ts.

Definition ns_per_day : Z := 86400000000000.

(** [(t - reference_date).days]: whole days, rounded down. *)
Definition days_since (reference_date : option Z) (t : option Z) : option Q :=
  match t, reference_date with
  | Some t, Some r => Some (inject_Z ((t - r) / ns_per_day))
  | _, _ => None
  end.

(** [for column in columns_to_convert: dataframe[f'{column}_days'] =
      (dataframe[column] - reference_date).dt.days] *)
Fixpoint convert_to_days (df : DataFrame) (reference_date : option Z)
    (cols : list string) : result DataFrame :=
  match cols with
  | [] => ret df
  | column :: rest =>
      let* c := getitem df column in
      let* ts := datetime_values c in
      convert_to_days
        (setitem df (column ++ "_days")
                 (Numeric (days_since reference_date <$> ts)))
        reference_date rest
  end.

(** [dataframe[date_columns].min().min()] *)
Definition reference_date (df : DataFrame) : result (option Z) :=
  let* cs := getitems df date_columns in
  let* tss := mapM datetime_values cs in
  ret (series_min (series_min <$> tss)).

Definition date_normalizer (df : DataFrame) : result DataFrame :=
  let* ref := reference_date df in
  let* df1 := convert_to_days df ref columns_to_convert in
  drop df1 date_columns.

(** ** The script from the log-transformed histograms to the export
       (lines 421-582) *)

(** One subplot of a figure. *)
Record axes := mkAxes {
  position : nat;
  title : string;
  plotted : column
}.

(** What the script holds between stages: the global [dataframe], the
    subplots drawn so far, and the files written. *)
Record script_state := mkState {
  dataframe : DataFrame;
  figure : list axes;
  files : gmap string DataFrame
}.

(** [plt.subplot(2, 4, position); sns.histplot(data); plt.title(title)] *)
Definition histplot (s : script_state) (position : nat) (title : string)
    (data : column) : script_state :=
  {| dataframe := dataframe s;
     figure := figure s ++ [mkAxes position title data];
     files := files s |}.

(** [series + k] *)
Definition add_scalar (c : column) (k : Q) : result column :=
  let* xs := numeric_values c in
  ret (Numeric ((fun x : option Q => (fun v => (v + k)%Q) <$> x) <$> xs)).

(** [dataframe.to_csv(path, index=False)] *)
Definition to_csv (s : script_state) (path : string) : script_state :=
  {| dataframe := dataframe s;
     figure := figure s;
     files := <[path := dataframe s]> (files s) |}.

(** The rows of a column taken in the given order ([take]). *)
Definition take_rows {A} (order : list nat) (xs : list A) : list A :=
  omap (fun i => xs !! i) order.

Definition reorder (order : list nat) (c : column) : column :=
  match c with
  | Numeric xs => Numeric (take_rows order xs)
  | Object xs => Object (take_rows order xs)
  | Datetime xs => Datetime (take_rows order xs)
  end.

Definition variables : list string :=
  ["age_first_funding_year"; "age_last_funding_year";
   "age_first_milestone_year"; "age_last_milestone_year"].

Section Script.
(** Library functions taken as given: the natural logarithm of a number
    ([None] where the result is not a finite number), the order in which
    [sort_values] arranges the rows of a key column, and the four-digit
    year of a timestamp. *)
Variable np_log : Q -> option Q.
Variable argsort : column -> list nat.
Variable strftime_Y : Z -> string.

(** [np.log(series)] *)
Definition log_series (c : column) : result column :=
  let* xs := numeric_values c in
  ret (Numeric ((fun x : option Q => x ≫= np_log) <$> xs)).

(** The loop drawing, for each variable, its histogram and the histogram
    of [log_variable = np.log(dataframe[variable] + 1)] (lines 427-437). *)
Fixpoint log_histograms (i : nat) (vars : list string) (s : script_state)
  : result script_state :=
  match vars with
  | [] => ret s
  | variable :: rest =>
      let* c := getitem (dataframe s) variable in
      let s1 := histplot s (i + 1) variable c in
      let* c1 := getitem (dataframe s1) variable in
      let* shifted := add_scalar c1 1 in
      let* log_variable := log_series shifted in
      let s2 := histplot s1 (i + 5) ("log_" ++ variable) log_variable in
      log_histograms (S i) rest s2
  end.

(** [dataframe.sort_values(by=label, ascending=False)] *)
Definition sort_values (df : DataFrame) (label : string) : result DataFrame :=
  let* key := getitem df label in
  ret {| nrows := nrows df;
         columns := reorder (argsort key) <$> columns df |}.

(** [series.dt.strftime('%Y')] *)
Definition year_strings (c : column) : result column :=
  let* ts := datetime_values c in
  ret (Object ((fun t : option Z => strftime_Y <$> t) <$> ts)).

(** The rest of the preprocessing, up to the export (lines 468-582): the
    sort on [closed_at] and its removal, [founded_year], the encoder, the
    date normaliser and [to_csv].  The tables derived on the way
    ([prop_df], [categorical_data]) are copies and are left out. *)
Definition finish_preprocessing (s : script_state) : result script_state :=
  let* sorted := sort_values (dataframe s) "closed_at" in
  let* df1 := drop sorted ["closed_at"] in
  let* founded := getitem df1 "founded_at" in
  let* years := year_strings founded in
  let df2 := setitem df1 "founded_year" years in
  let* encoded := categorical_encoder df2 in
  let* df3 := date_normalizer (fst encoded) in
  ret (to_csv {| dataframe := df3; figure := figure s; files := files s |}
              "cleaned_data.csv").
End Script.

(** The column a stage leaves under [label], when the stage returns. *)
Definition result_column (r : result DataFrame) (label : string)
  : option column :=
  match r with
  | inr df => columns df !! label
  | inl _ => None
  end.

(** ** Sample data *)

Definition day (n : Z) : option Z := Some (n * ns_per_day)%Z.

(** A small frame with the columns the stages refer to. *)
Definition sample_frame : DataFrame :=
  {| nrows := 3;
     columns := list_to_map
       [ ("age_first_funding_year", Numeric [Some (-5)%Q; Some 10%Q; Some 2%Q]);
         ("age_last_funding_year", Numeric [Some 3%Q; Some (-1)%Q; Some 4%Q]);
         ("age_first_milestone_year", Numeric [Some 1%Q; None; Some (-3)%Q]);
         ("age_last_milestone_year", Numeric [None; Some 6%Q; Some 2%Q]);
         ("relationships", Numeric [Some 7%Q; Some 7%Q; Some 7%Q]);
         ("closed_at", Object [None; Some "6/1/2012"; None]);
         ("state_code", Object [Some "CA"; Some "NY"; Some "CA"]);
         ("city", Object [Some "San Diego"; Some "New York"; Some "Palo Alto"]);
         ("category_code", Object [Some "web"; Some "web"; Some "music"]);
         ("founded_year", Object [Some "2007"; Some "2005"; Some "2007"]);
         ("status", Object [Some "closed"; Some "acquired"; Some "acquired"]);
         ("founded_at", Datetime [day 10; day 1; day 20]);
         ("first_funding_at", Datetime [day 20; day 15; None]);
         ("last_funding_at", Datetime [day 30; day 15; day 41]) ] |}.

(** A frame whose only column holds the same number on three rows. *)
Definition constant_frame (q : Q) : DataFrame :=
  {| nrows := 3; columns := {[ "value" := Numeric [Some q; Some q; Some q] ]} |}.

#[global] Instance wf_dec df : Decision (wf df).
Proof. unfold wf. apply _. Defined.

(** * The table with machine numbers

    The definitions above keep numbers exact.  Where a statement depends on
    how the machine computes (the rounding of binary64, the wrap-around of
    int64), it is made on the table below: a float64 column holds binary64
    values with their NaN, infinities and signed zeros, an int64 column
    holds integers that wrap around at 64 bits. *)

Module Machine.

Definition float64 : Type := spec_float.

Definition prec : Z := 53.
Definition emax : Z := 1024.

Definition fadd : float64 -> float64 -> float64 := SFadd prec emax.
Definition fsub : float64 -> float64 -> float64 := SFsub prec emax.
Definition fmul : float64 -> float64 -> float64 := SFmul prec emax.
Definition fdiv : float64 -> float64 -> float64 := SFdiv prec emax.
Definition fsqrt : float64 -> float64 := SFsqrt prec emax.
Definition fabs : float64 -> float64 := SFabs.

(** [x < y], [x <= y] and [x == y]: false when either side is NaN. *)
Definition flt : float64 -> float64 -> bool := SFltb.
Definition feq : float64 -> float64 -> bool := SFeqb.

Definition zero : float64 := S754_zero false.
Definition nan : float64 := S754_nan.

Definition is_nan (x : float64) : bool :=
  match x with
  | S754_nan => true
  | _ => false
  end.

(** The binary64 value nearest to an integer. *)
Definition of_int (z : Z) : float64 := binary_normalize prec emax z 0 false.

(** The binary64 value nearest to [n / d], as the literal is read. *)
Definition of_ratio (n d : Z) : float64 := fdiv (of_int n) (of_int d).

(** The rational a finite binary64 value stands for, in lowest terms. *)
Definition to_Q (x : float64) : option Q :=
  match x with
  | S754_zero _ => Some 0%Q
  | S754_finite s m e =>
      Some (Qred (inject_Z (if s then Z.neg m else Z.pos m) *
                  (if (0 <=? e)%Z then inject_Z (2 ^ e)
                   else / inject_Z (2 ^ (- e)))))%Q
  | S754_infinity _ => None
  | S754_nan => None
  end.

Definition int64_min : Z := - 2 ^ 63.

(** The value of a 64-bit two's complement integer. *)
Definition wrap64 (z : Z) : Z := ((z + 2 ^ 63) mod 2 ^ 64 - 2 ^ 63)%Z.

(** [np.abs] on an int64 entry. *)
Definition abs_int64 (z : Z) : Z := wrap64 (Z.abs z).

Inductive column :=
| Float64 (xs : list float64)
| Int64 (zs : list Z)
| Object (xs : list (option string))
| Datetime (ts : list (option Z)).

Record DataFrame := mkDataFrame {
  nrows : nat;
  columns : gmap string column
}.

Definition col_length (c : column) : nat :=
  match c with
  | Float64 xs => length xs
  | Int64 zs => length zs
  | Object xs => length xs
  | Datetime ts => length ts
  end.

(** The entries of a column are values of its type: a float64 entry is a
    binary64 number in its canonical form, an int64 entry lies in the range
    of 64-bit two's complement. *)
Definition int64b (z : Z) : bool := (int64_min <=? z)%Z && (z <? 2 ^ 63)%Z.

Definition valid (c : column) : bool :=
  match c with
  | Float64 xs => forallb (valid_binary prec emax) xs
  | Int64 zs => forallb int64b zs
  | Object _ => true
  | Datetime _ => true
  end.

Definition wf (df : DataFrame) : Prop :=
  map_Forall (fun _ c => col_length c = nrows df /\ valid c = true)
    (columns df).

#[global] Instance wf_decision df : Decision (wf df).
Proof. unfold wf. apply _. Defined.

(** [label in dataframe] / [label in dataframe.columns] *)
Definition has_column (df : DataFrame) (label : string) : bool :=
  bool_decide (is_Some (columns df !! label)).

(** [dataframe[label]] *)
Definition getitem (df : DataFrame) (label : string) : result column :=
  match columns df !! label with
  | Some c => ret c
  | None => raise (KeyError [label])
  end.

(** [dataframe[label] = c] *)
Definition setitem (df : DataFrame) (label : string) (c : column) : DataFrame :=
  {| nrows := nrows df; columns := <[label := c]> (columns df) |}.

(** ** Sign normaliser: [apply_absolute_values] (lines 296-302) *)

(** [np.abs(series)]: the sign bit of a float64 entry is cleared, an int64
    entry wraps around; strings and timestamps are rejected. *)
Definition np_abs (c : column) : result column :=
  match c with
  | Float64 xs => ret (Float64 (fabs <$> xs))
  | Int64 zs => ret (Int64 (abs_int64 <$> zs))
  | Object _ => raise TypeError
  | Datetime _ => raise TypeError
  end.

(** [for col in columns: if col in dataframe.columns:
      dataframe[col] = np.abs(dataframe[col])] *)
Fixpoint apply_absolute_values (df : DataFrame) (cols : list string)
  : result DataFrame :=
  match cols with
  | [] => ret df
  | col :: rest =>
      if has_column df col then
        let* c := getitem df col in
        let* a := np_abs c in
        apply_absolute_values (setitem df col a) rest
      else apply_absolute_values df rest
  end.

Definition numeric (c : column) : bool :=
  match c with
  | Float64 _ => true
  | Int64 _ => true
  | Object _ => false
  | Datetime _ => false
  end.

(** A targeted or monitored label names a float64 or int64 column, or no
    column at all. *)
Definition numeric_or_absent (df : DataFrame) (label : string) : bool :=
  match columns df !! label with
  | Some c => numeric c
  | None => true
  end.

Definition abs_column (c : column) : column :=
  match c with
  | Float64 xs => Float64 (fabs <$> xs)
  | Int64 zs => Int64 (abs_int64 <$> zs)
  | _ => c
  end.

(** The frame the sign normaliser is expected to return. *)
Definition abs_frame (df : DataFrame) (cols : list string) : DataFrame :=
  {| nrows := nrows df;
     columns := map_imap (fun label c =>
       Some (if bool_decide (label ∈ cols) then abs_column c else c))
       (columns df) |}.

(** ** Outlier flagger: [identify_outliers] (lines 304-315) *)

(** The indicator column for a list of flags. *)
Definition flag_column (flags : list bool) : column := Int64 (Z.b2z <$> flags).

(** A monitored label the loop can work on: anything but a column of
    strings. *)
Definition flaggable (df : DataFrame) (label : string) : bool :=
  match columns df !! label with
  | Some (Object _) => false
  | _ => true
  end.

(** The entries of a numeric column as the arithmetic of the flagger sees
    them: an int64 entry is converted to binary64. *)
Definition floats (c : column) : list float64 :=
  match c with
  | Float64 xs => xs
  | Int64 zs => of_int <$> zs
  | Object _ => []
  | Datetime _ => []
  end.

(** Library functions taken as given: [column.mean()] and [column.std()]
    of a float64 or int64 column, as binary64 values, and the comparison
    series the flagger's expression yields on a column of timestamps. *)
Record library := mkLibrary {
  series_mean : column -> float64;
  series_std : column -> float64;
  datetime_outliers : list (option Z) -> float64 -> list bool
}.

Section Flagger.
Variable lib : library.

(** [np.abs(column - mean) > threshold * std], each operation in binary64;
    a comparison with NaN on either side is false. *)
Definition outlier_series (c : column) (threshold : float64) : list bool :=
  let mean := series_mean lib c in
  let std := series_std lib c in
  (fun v => flt (fmul threshold std) (fabs (fsub v mean))) <$> floats c.

Definition is_outlier_series (c : column) (threshold : float64)
  : result (list bool) :=
  match c with
  | Float64 _ => ret (outlier_series c threshold)
  | Int64 _ => ret (outlier_series c threshold)
  | Object _ => raise TypeError
  | Datetime ts => ret (datetime_outliers lib ts threshold)
  end.

(** [flags |= is_outlier.astype(int)] on the indicator column. *)
Definition ior_series (cur : column) (is_outlier : list bool) : result column :=
  match cur with
  | Int64 zs =>
      ret (Int64 (zip_with (fun z b => Z.lor z (Z.b2z b)) zs is_outlier))
  | _ => raise TypeError
  end.

(** The loop over the monitored labels. *)
Fixpoint flag_columns (df : DataFrame) (cols : list string)
    (threshold : float64) : result DataFrame :=
  match cols with
  | [] => ret df
  | column_name :: rest =>
      if has_column df column_name then
        let* column := getitem df column_name in
        let* is_outlier := is_outlier_series column threshold in
        let* cur := getitem df "is_outlier" in
        let* flags := ior_series cur is_outlier in
        flag_columns (setitem df "is_outlier" flags) rest threshold
      else flag_columns df rest threshold
  end.

(** [dataframe['is_outlier'] = 0], then the loop. *)
Definition identify_outliers (df : DataFrame) (cols : list string)
    (threshold : float64) : result DataFrame :=
  flag_columns
    (setitem df "is_outlier" (Int64 (replicate (nrows df) 0%Z)))
    cols threshold.

(** The flags after one monitored label, from the flags before it. *)
Definition flag_step (df : DataFrame) (threshold : float64)
    (flags : list bool) (label : string) : list bool :=
  match columns df !! label with
  | Some c =>
      match is_outlier_series c threshold with
      | inr is_outlier => zip_with orb flags is_outlier
      | inl _ => flags
      end
  | None => flags
  end.

Definition outlier_flags (df : DataFrame) (cols : list string)
    (threshold : float64) : list bool :=
  fold_left (flag_step df threshold) cols (replicate (nrows df) false).

(** Row [i] is flagged on account of column [label]: the comparison of the
    flagger holds there, on the values as computed. *)
Definition exceeds (df : DataFrame) (label : string) (threshold : float64)
    (i : nat) : Prop :=
  exists c v,
    columns df !! label = Some c /\ numeric c = true /\
    floats c !! i = Some v /\
    flt (fmul threshold (series_std lib c))
        (fabs (fsub v (series_mean lib c))) = true.
End Flagger.

(** ** Mean and standard deviation of a short series

    [series.mean()] is the sum of the entries present divided by their
    number; [series.std()] is the square root of the sum of the squared
    deviations from that mean divided by one less ([ddof=1]), NaN with
    fewer than two entries.  The sums are taken here from left to right.
    The library may add in another order; on the series used below the
    entries are all equal, or they are two, or every partial sum is exact,
    and the order does not matter. *)

Definition nansum (xs : list float64) : float64 :=
  fold_left (fun acc x => if is_nan x then acc else fadd acc x) xs zero.

Definition count (xs : list float64) : Z :=
  Z.of_nat (length (List.filter (fun x => negb (is_nan x)) xs)).

Definition mean (xs : list float64) : float64 :=
  fdiv (nansum xs) (of_int (count xs)).

Definition std (xs : list float64) : float64 :=
  if (count xs <=? 1)%Z then nan
  else
    let avg := mean xs in
    let sqr := (fun x => let d := fsub avg x in fmul d d) <$> xs in
    fsqrt (fdiv (nansum sqr) (of_int (count xs - 1))).

Definition column_mean (c : column) : float64 := mean (floats c).
Definition column_std (c : column) : float64 := std (floats c).

(** ** Sample data *)

Definition default_threshold : float64 := of_int 4.

(** The literals [0.1] and [0.5], and [0.1] scaled by [2 ** -600]. *)
Definition tenth : float64 := of_ratio 1 10.
Definition half : float64 := of_ratio 1 2.
Definition tiny : float64 := SFldexp prec emax tenth (-600).

(** A frame whose only column holds the same number on three rows. *)
Definition constant_frame (x : float64) : DataFrame :=
  {| nrows := 3; columns := {[ "value" := Float64 [x; x; x] ]} |}.

(** A frame that already carries an indicator column. *)
Definition stale_indicator_frame : DataFrame :=
  {| nrows := 5;
     columns := {[ "is_outlier" := Int64 [0; 0; 0; 0; 100]%Z ]} |}.

(** A frame with ages read as float64 (a missing entry is NaN) and one
    column of integers. *)
Definition sample_frame : DataFrame :=
  {| nrows := 3;
     columns := list_to_map
       [ ("age_first_funding_year",
          Float64 [of_ratio (-11) 2; of_int 10; of_ratio 3 2]);
         ("age_last_funding_year",
          Float64 [of_ratio 7 2; of_ratio (-3) 2; of_int 4]);
         ("age_first_milestone_year",
          Float64 [of_int 1; nan; of_int (-3)]);
         ("age_last_milestone_year",
          Float64 [nan; of_int 6; S754_zero true]);
         ("relationships", Int64 [7; 7; 7]%Z);
         ("status", Object [Some "closed"; Some "acquired"; Some "acquired"])
       ] |}.


(** The library on the sample data: the mean and the standard deviation
    as above; no column of timestamps is monitored there. *)
Definition sample_library : library :=
  {| series_mean := column_mean;
     series_std := column_std;
     datetime_outliers := fun ts _ => replicate (length ts) false |}.

End Machine.

(** ** Further parts of the script *)

(** The labels removed first (lines 115-141). *)
Definition irrelevant_columns : list string :=
  ["Unnamed: 0"; "latitude"; "longitude"; "zip_code"; "id"; "name";
   "Unnamed: 6"; "object_id"; "labels"; "state_code.1"; "is_CA"; "is_NY";
   "is_MA"; "is_TX"; "is_otherstate"; "is_software"; "is_web"; "is_mobile";
   "is_enterprise"; "is_advertising"; "is_gamesvideo"; "is_ecommerce";
   "is_biotech"; "is_consulting"; "is_othercategory"].

(** The number of missing entries of a column ([isnull().sum()]). *)
Definition count_none {A} (xs : list (option A)) : nat :=
  length (List.filter (fun x => match x with None => true | Some _ => false end)
                      xs).

Definition count_missing (c : column) : nat :=
  match c with
  | Numeric xs => count_none xs
  | Object xs => count_none xs
  | Datetime xs => count_none xs
  end.



(** [(series < 0).astype(int)]: a missing entry compares false. *)
Definition negative_flag (x : option Q) : option Q :=
  Some (match x with
        | Some v => if Qltb v 0 then 1%Q else 0%Q
        | None => 0%Q
        end).

(** [for col in columns: dataframe[f'negative_{col}'] =
      (dataframe[col] < 0).astype(int)] (lines 249-251) *)
Fixpoint add_negative_value_columns (df : DataFrame) (cols : list string)
  : result DataFrame :=
  match cols with
  | [] => ret df
  | col :: rest =>
      let* c := getitem df col in
      let* xs := numeric_values c in
      add_negative_value_columns
        (setitem df ("negative_" ++ col) (Numeric (negative_flag <$> xs)))
        rest
  end.

(** A column all of whose entries are the number 0. *)
Definition zero_column (df : DataFrame) (label : string) : Prop :=
  exists xs, columns df !! label = Some (Numeric xs) /\
             Forall (fun x => x = Some 0%Q) xs.

(** [{'acquired': 1, 'closed': 0}] (line 68) *)
Definition binary_status_mapping : dict :=
  [(Text "acquired", 1%nat); (Text "closed", 0%nat)].

(** [df['binary_status'] = df['status'].map({'acquired': 1, 'closed': 0})]
    (line 68) *)
Definition add_binary_status (df : DataFrame) : result DataFrame :=
  let* status := getitem df "status" in
  ret (setitem df "binary_status" (series_map status binary_status_mapping)).

(** The value an entry has after encoding, as [unique] and [map] see it. *)
Definition recode (mapping : dict) (v : scalar) : scalar :=
  match dict_get mapping v with
  | Some code => Number (inject_Z (Z.of_nat code))
  | None => NaN
  end.

(** The mapping that sends each of the codes [0 .. n-1] to itself. *)
Definition identity_mapping (n : nat) : dict :=
  (fun i => (Number (inject_Z (Z.of_nat i)), i)) <$> seq 0 n.

(** The labels of the offset columns the date normaliser adds
    ([f'{column}_days'], line 529). *)
Definition days_labels : list string :=
  (fun column : string => (column ++ "_days")%string) <$> columns_to_convert.

(** ** Scatter plots of the flagged rows (lines 325-347) *)

(** One call of [sns.scatterplot], with the subplot selected before it and
    the axis labels set after it. *)
Record scatter := mkScatter {
  subplot_index : nat;
  scatter_x : string;
  scatter_y : string;
  scatter_hue : string;
  scatter_xlabel : string;
  scatter_ylabel : string
}.

(** An entry [(x, y, label)] of [plot_configs]. *)
Definition plot_config : Type := string * string * string.

(** [plot_configs.index(entry)]: the position of the first equal entry;
    [None] where Python raises ValueError. *)
Fixpoint config_index (entry : plot_config) (plot_configs : list plot_config)
  : option nat :=
  match plot_configs with
  | [] => None
  | c :: rest =>
      if bool_decide (c = entry) then Some 0%nat
      else S <$> config_index entry rest
  end.

(** [for x, y, label in plot_configs:
       index = plot_configs.index((x, y, label)) + 1
       plt.subplot(1, len(plot_configs), index)
       sns.scatterplot(x=x, y=y, hue="is_outlier", ...)
       plt.xlabel(label); plt.ylabel(y)]
    What seaborn draws from the table is not represented. *)
Fixpoint scatter_loop (plot_configs rest : list plot_config)
  : option (list scatter) :=
  match rest with
  | [] => Some []
  | (x, y, label) :: rest' =>
      match config_index (x, y, label) plot_configs with
      | None => None
      | Some index =>
          match scatter_loop plot_configs rest' with
          | None => None
          | Some drawn =>
              Some (mkScatter (index + 1) x y "is_outlier" label y :: drawn)
          end
      end
  end.

Definition plot_scatter_plots (plot_configs : list plot_config)
  : option (list scatter) :=
  scatter_loop plot_configs plot_configs.

(** The configuration the script passes (lines 325-330). *)
Definition plot_configs : list plot_config :=
  [("age_first_funding_year", "age_first_milestone_year",
    "Age at First Funding vs. Age at First Milestone");
   ("age_last_funding_year", "age_last_milestone_year",
    "Age at Last Funding vs. Age at Last Milestone");
   ("abs_diff_founded_first_funding", "age_first_funding_year",
    "Difference 'Founded' and 'First Funding'");
   ("abs_diff_founded_last_funding", "age_last_funding_year",
    "Difference 'Founded' and 'Last Funding'")].

(** ** Kinds of features (lines 556-558 and 769-770) *)

Inductive dtype := number | object | datetime.

#[global] Instance dtype_eq_dec : EqDecision dtype.
Proof. solve_decision. Defined.

Definition dtype_of (c : column) : dtype :=
  match c with
  | Numeric _ => number
  | Object _ => object
  | Datetime _ => datetime
  end.

(** [dataframe.select_dtypes(include=kinds)] *)
Definition select_dtypes (df : DataFrame) (include : list dtype) : DataFrame :=
  {| nrows := nrows df;
     columns := filter (fun kv => dtype_of kv.2 ∈ include) (columns df) |}.

(** [dataframe.columns.tolist()], as a set: the order of the columns is not
    represented. *)
Definition column_labels (df : DataFrame) : gset string := dom (columns df).

Definition numerical_features (df : DataFrame) : gset string :=
  column_labels (select_dtypes df [number]).

Definition categorical_features (df : DataFrame) : gset string :=
  column_labels (select_dtypes df [object]).

Definition datetime_features (df : DataFrame) : gset string :=
  column_labels (select_dtypes df [datetime]).

(** [numerics = ['int16', 'int32', 'int64', 'float16', 'float32', 'float64',
                 'datetime64']] (line 769) *)
Definition numerics : list dtype := [number; datetime].

Inductive heatmap_error := ValueError (target : string).

(** The check [draw_heatmaps_side_by_side] makes on entry (lines 741-742):
    [if target not in data_df.columns: raise ValueError(...)].  The
    correlations and the drawing that follow are not represented. *)
Definition check_target (data_df : DataFrame) (target : string)
  : heatmap_error + unit :=
  if has_column data_df target then inr tt else inl (ValueError target).

(** ** Histograms of the numeric variables (lines 374-396) *)

Definition specific_variables : list string :=
  ["age_first_funding_year"; "age_last_funding_year";
   "age_first_milestone_year"; "age_last_milestone_year";
   "funding_total_usd"; "funding_rounds"; "milestones"; "relationships"].

Definition num_columns : nat := 5.

(** [num_rows = int(np.ceil(num_variables / num_columns))], the quotient
    taken as an exact rational. *)
Definition num_rows (num_variables : nat) : nat :=
  Z.to_nat (Qceiling (inject_Z (Z.of_nat num_variables) /
                      inject_Z (Z.of_nat num_columns))).

(** [for i, column in enumerate(specific_variables):
       plt.subplot(num_rows, num_columns, i+1)
       plt.title(column)
       sns.histplot(dataframe[column], ...)] *)
Fixpoint histograms (i : nat) (vars : list string) (s : script_state)
  : result script_state :=
  match vars with
  | [] => ret s
  | column :: rest =>
      let* c := getitem (dataframe s) column in
      histograms (S i) rest (histplot s (i + 1) column c)
  end.

(** ** Startups per founding year (lines 471-478) *)

(** The order in which [groupby] lists its keys. *)
Definition year_le (a b : string) : Prop := String.leb a b = true.

#[global] Instance year_le_dec : RelDecision year_le.
Proof. intros a b. unfold year_le. apply _. Defined.

(** [groupby(label).size()]: for each key present, in increasing order,
    the number of rows that hold it; rows whose key is missing are left
    out. *)
Definition groupby_size (keys : list (option string)) : list (string * nat) :=
  let present := omap (fun x => x) keys in
  (fun key => (key, length (filter (fun x => x = key) present)))
    <$> merge_sort year_le (remove_dups present).

(** One row of [prop_df]; the proportion is a binary64 number. *)
Record prop_row := mkPropRow {
  founded_year : string;
  counts : nat;
  proportions : Machine.float64
}.

(** [prop_df = dataframe.groupby('founded_year').size()
                        .reset_index(name='counts')
     prop_df['proportions'] = prop_df['counts'] / prop_df['counts'].sum()]:
    the true division of two int64 numbers converts both to binary64 and
    divides there. *)
Definition prop_df (years : list (option string)) : list prop_row :=
  let sizes := groupby_size years in
  let total := sum_list (snd <$> sizes) in
  (fun kv => mkPropRow kv.1 kv.2
               (Machine.fdiv (Machine.of_int (Z.of_nat kv.2))
                             (Machine.of_int (Z.of_nat total))))
    <$> sizes.

(** Six founding years, one row each. *)
Definition six_years : list (option string) :=
  [Some "2005"; Some "2006"; Some "2007"; Some "2008"; Some "2009";
   Some "2010"].

(** ** Box plots (lines 211-222) *)

Definition continuous_variables : list string :=
  ["avg_participants"; "age_first_funding_year"; "age_last_funding_year";
   "age_first_milestone_year"; "age_last_milestone_year"].

(** [for i in range(0, len(continuous_variables)):
      sns.boxplot(y=dataframe[continuous_variables[i]], ...)]:
    each variable is read from the table; the drawing is left out. *)
Fixpoint boxplots (df : DataFrame) (vars : list string) : result unit :=
  match vars with
  | [] => ret tt
  | variable :: rest =>
      let* _ := getitem df variable in
      boxplots df rest
  end.

(** No entry of the column is [-2^63], the int64 number whose absolute
    value is not an int64: [np.abs] leaves it as it is, which the exact
    numbers of [abs_cell] do not show. *)
Definition no_int64_min (xs : list (option Q)) : bool :=
  forallb (fun x => match x with
                    | Some v => negb (Qeq_bool v (inject_Z (- 2 ^ 63)))
                    | None => true
                    end) xs.

(** ** The preprocessing as a whole (lines 186-582) *)

Section Pipeline.
(** Library functions taken as given, besides those of the script's tail:
    [pd.to_datetime] on a column (the timestamps it returns, or the
    exception it raises) and the calendar year of a timestamp. *)
Variable np_log : Q -> option Q.
Variable argsort : column -> list nat.
Variable strftime_Y : Z -> string.
Variable to_datetime : column -> result (list (option Z)).
Variable dt_year : Z -> Z.

(** [series.dt.year] *)
Definition dt_year_series (c : column) : result (list (option Z)) :=
  let* ts := datetime_values c in
  ret ((fun t : option Z => dt_year <$> t) <$> ts).

(** [a - b] on two series of years, row by row; missing where either is. *)
Definition years_sub (a b : list (option Z)) : list (option Q) :=
  zip_with (fun x y => match x, y with
                       | Some x, Some y => Some (inject_Z (x - y))
                       | _, _ => None
                       end) a b.

(** [for col in columns: dataframe[col] = pd.to_datetime(dataframe[col])] *)
Fixpoint to_datetime_columns (df : DataFrame) (cols : list string)
  : result DataFrame :=
  match cols with
  | [] => ret df
  | col :: rest =>
      let* c := getitem df col in
      let* ts := to_datetime c in
      to_datetime_columns (setitem df col (Datetime ts)) rest
  end.

(** [convert_to_datetime] (lines 238-247): the conversion, then
    [dataframe["diff_founded_first_funding"] =
       dataframe["first_funding_at"].dt.year - dataframe["founded_at"].dt.year]
    and the same for the last funding. *)
Definition convert_to_datetime (df : DataFrame) (cols : list string)
  : result DataFrame :=
  let* df1 := to_datetime_columns df cols in
  let* first := getitem df1 "first_funding_at" in
  let* first_years := dt_year_series first in
  let* founded := getitem df1 "founded_at" in
  let* founded_years := dt_year_series founded in
  let df2 := setitem df1 "diff_founded_first_funding"
               (Numeric (years_sub first_years founded_years)) in
  let* last := getitem df2 "last_funding_at" in
  let* last_years := dt_year_series last in
  let* founded' := getitem df2 "founded_at" in
  let* founded_years' := dt_year_series founded' in
  ret (setitem df2 "diff_founded_last_funding"
         (Numeric (years_sub last_years founded_years'))).

(** [negative_values_detection] (lines 237-279).  Its scatter plots only
    read the table and are left out. *)
Definition negative_values_detection (df : DataFrame) : result DataFrame :=
  let* df1 := convert_to_datetime df
                ["founded_at"; "first_funding_at"; "last_funding_at"] in
  add_negative_value_columns df1
    ["age_first_funding_year"; "age_last_funding_year";
     "age_first_milestone_year"; "age_last_milestone_year"].

(** [prepare_plot_data] (lines 317-323) *)
Definition prepare_plot_data (data_df : DataFrame) : result DataFrame :=
  let* first := getitem data_df "first_funding_at" in
  let* first_years := dt_year_series first in
  let* founded := getitem data_df "founded_at" in
  let* founded_years := dt_year_series founded in
  let df1 := setitem data_df "abs_diff_founded_first_funding"
               (Numeric (abs_cell <$> years_sub first_years founded_years)) in
  let* last := getitem df1 "last_funding_at" in
  let* last_years := dt_year_series last in
  let* founded' := getitem df1 "founded_at" in
  let* founded_years' := dt_year_series founded' in
  ret (setitem df1 "abs_diff_founded_last_funding"
         (Numeric (abs_cell <$> years_sub last_years founded_years'))).

(** The script from the imputer to the export, in its order.  The scatter
    plots are left out: they read columns that the stages before them have
    read or assigned. *)
Definition preprocess (s : script_state) : result script_state :=
  let* df1 := imputer (dataframe s) in
  let* _ := boxplots df1 continuous_variables in
  let* df2 := negative_values_detection df1 in
  let* df3 := apply_absolute_values df2 columns_to_abs in
  let* df4 := prepare_plot_data df3 in
  let* df5 := identify_outliers df4
                ["age_first_funding_year"; "age_last_funding_year";
                 "age_first_milestone_year"; "age_last_milestone_year"]
                default_threshold in
  let* s6 := histograms 0 specific_variables
               {| dataframe := df5; figure := figure s; files := files s |} in
  let* s7 := log_histograms np_log 0 variables s6 in
  finish_preprocessing argsort strftime_Y s7.
End Pipeline.

(** The columns that the stages between the imputer and the sort assign,
    other than the four age columns. *)
Definition assigned_columns : list string :=
  ["founded_at"; "first_funding_at"; "last_funding_at";
   "diff_founded_first_funding"; "diff_founded_last_funding";
   "negative_age_first_funding_year"; "negative_age_last_funding_year";
   "negative_age_first_milestone_year"; "negative_age_last_milestone_year";
   "abs_diff_founded_first_funding"; "abs_diff_founded_last_funding";
   "is_outlier"].

(** The sample frame with the remaining columns the plots read. *)
Definition full_sample_frame : DataFrame :=
  setitem
    (setitem
       (setitem
          (setitem sample_frame "funding_total_usd"
             (Numeric [Some 375000%Q; Some 40100000%Q; Some 2600000%Q]))
          "funding_rounds" (Numeric [Some 3%Q; Some 4%Q; Some 1%Q]))
       "milestones" (Numeric [Some 3%Q; Some 1%Q; Some 2%Q]))
    "avg_participants" (Numeric [Some 1%Q; Some (19 # 4)%Q; Some 4%Q]).

(** Stand-ins for the library functions on the sample data. *)
Definition sample_np_log : Q -> option Q := fun _ => None.

Definition sample_argsort : column -> list nat :=
  fun c => rev (seq 0 (col_length c)).

Definition sample_strftime_Y : Z -> string := fun _ => "2007".

Definition sample_dt_year : Z -> Z :=
  fun t => (1970 + t / (365 * ns_per_day))%Z.

Definition sample_state : script_state :=
  {| dataframe := full_sample_frame; figure := []; files := ∅ |}.

(* ================================================================= *)
(** * Properties *)

Lemma df_eq (a b : DataFrame) :
  nrows a = nrows b ->
  (forall label, columns a !! label = columns b !! label) ->
  a = b.
Proof.
  destruct a as [na ca], b as [nb cb]. simpl. intros -> H.
  f_equal. by apply map_eq.
Qed.

Lemma forallb_eq {A} (f g : A -> bool) (l : list A) :
  (forall x, f x = g x) -> forallb f l = forallb g l.
Proof. intros H. induction l as [|x l IH]; simpl; [done|]. by rewrite H, IH. Qed.

(** ** Sign normaliser *)

Lemma abs_cell_idem x : abs_cell (abs_cell x) = abs_cell x.
Proof.
  destruct x as [[n d]|]; simpl; [|done].
  unfold Qabs. by rewrite Z.abs_idemp.
Qed.

Lemma abs_cell_nonneg x : nonneg_cell (abs_cell x).
Proof.
  intros q Hq. destruct x as [p|]; simpl in Hq; [|done].
  injection Hq as <-. apply Qabs_nonneg.
Qed.

Lemma abs_cell_fixed x : nonneg_cell x -> abs_cell x = x.
Proof.
  intros H. destruct x as [[n d]|]; simpl; [|done].
  specialize (H _ eq_refl). unfold Qle in H. simpl in H.
  unfold Qabs. f_equal. f_equal. lia.
Qed.

Lemma abs_column_idem c : abs_column (abs_column c) = abs_column c.
Proof.
  destruct c; simpl; try done. f_equal.
  rewrite <- list_fmap_compose. apply list_fmap_ext.
  intros _ x _. apply abs_cell_idem.
Qed.

Lemma abs_frame_lookup df cols label :
  columns (abs_frame df cols) !! label =
  (fun c => if bool_decide (label ∈ cols) then abs_column c else c)
    <$> columns df !! label.
Proof.
  unfold abs_frame. simpl. rewrite map_lookup_imap.
  by destruct (columns df !! label).
Qed.

Lemma numeric_or_absent_setitem df col xs ys label :
  columns df !! col = Some (Numeric xs) ->
  numeric_or_absent (setitem df col (Numeric ys)) label =
  numeric_or_absent df label.
Proof.
  intros H. unfold numeric_or_absent, setitem. simpl.
  destruct (decide (col = label)) as [->|Hne].
  - by rewrite lookup_insert_eq, H.
  - by rewrite lookup_insert_ne.
Qed.

(** The sign normaliser computes [abs_frame], or raises on a targeted
    column that is not numeric. *)
Lemma apply_absolute_values_spec cols : forall df,
  apply_absolute_values df cols =
  if forallb (numeric_or_absent df) cols then inr (abs_frame df cols)
  else inl TypeError.
Proof.
  induction cols as [|col rest IH]; intros df; simpl.
  - unfold ret. f_equal. apply df_eq; [done|]. intros l.
    rewrite abs_frame_lookup. by destruct (columns df !! l).
  - unfold has_column, getitem, numeric_or_absent at 1.
    destruct (columns df !! col) as [[xs|xs|xs]|] eqn:Hc; simpl.
    + rewrite IH.
      rewrite (forallb_eq _ (numeric_or_absent df))
        by (intros l; eapply numeric_or_absent_setitem, Hc).
      destruct (forallb _ rest); [|done]. f_equal.
      apply df_eq; [done|]. intros l. rewrite !abs_frame_lookup. simpl.
      destruct (decide (col = l)) as [<-|Hne].
      * rewrite lookup_insert_eq, Hc. simpl.
        rewrite (bool_decide_eq_true_2 (col ∈ col :: rest)) by left.
        case_bool_decide; simpl; [|done].
        f_equal. apply (abs_column_idem (Numeric xs)).
      * rewrite lookup_insert_ne by done.
        destruct (columns df !! l); simpl; [|done]. f_equal.
        case_bool_decide as H1; case_bool_decide as H2; try done.
        -- exfalso. apply H2. by right.
        -- exfalso. apply elem_of_cons in H2 as [?|?]; done.
    + done.
    + done.
    + rewrite IH.
      destruct (forallb _ rest); [|done]. f_equal.
      apply df_eq; [done|]. intros l. rewrite !abs_frame_lookup.
      destruct (decide (col = l)) as [<-|Hne].
      * by rewrite Hc.
      * destruct (columns df !! l); simpl; [|done]. f_equal.
        case_bool_decide as H1; case_bool_decide as H2; try done.
        -- exfalso. apply H2. by right.
        -- exfalso. apply elem_of_cons in H2 as [?|?]; done.
Qed.

Lemma abs_frame_idem df cols : abs_frame (abs_frame df cols) cols = abs_frame df cols.
Proof.
  apply df_eq; [done|]. intros l. rewrite !abs_frame_lookup.
  destruct (columns df !! l); simpl; [|done]. f_equal.
  case_bool_decide; [|done]. apply abs_column_idem.
Qed.

Lemma numeric_or_absent_abs_frame df cols label :
  numeric_or_absent (abs_frame df cols) label = numeric_or_absent df label.
Proof.
  unfold numeric_or_absent. rewrite abs_frame_lookup.
  destruct (columns df !! label) as [[]|]; simpl; try done;
    by case_bool_decide.
Qed.

(** ** Rational comparisons and their reading on the reals *)

Lemma Qltb_lt x y : Qltb x y = true <-> (x < y)%Q.
Proof.
  unfold Qltb. rewrite negb_true_iff, <- not_true_iff_false, Qle_bool_iff.
  split; [apply Qnot_le_lt | apply Qlt_not_le].
Qed.

Lemma Qltb_real x y : Qltb x y = true <-> (Q2R x < Q2R y)%R.
Proof. rewrite Qltb_lt. split; [apply Qlt_Rlt | apply Rlt_Qlt]. Qed.

(** [gt_times_sqrt] decides the comparison against [t] times the square
    root of the variance. *)
Lemma gt_times_sqrt_real a t var :
  (0 <= a)%Q -> (0 <= var)%Q ->
  gt_times_sqrt a t var = true <-> (Q2R a > Q2R t * sqrt (Q2R var))%R.
Proof.
  intros Ha Hv. apply Qle_Rle in Ha, Hv. rewrite RMicromega.Q2R_0 in Ha, Hv.
  pose proof (sqrt_pos (Q2R var)) as Hs.
  pose proof (sqrt_sqrt _ Hv) as Hss.
  unfold gt_times_sqrt.
  destruct (Qltb t 0) eqn:Ht.
  - apply Qltb_real in Ht. rewrite RMicromega.Q2R_0 in Ht.
    rewrite orb_true_iff, !Qltb_real, RMicromega.Q2R_0.
    split.
    + intros [H|H]; [|nra].
      assert (0 < sqrt (Q2R var))%R by (apply sqrt_lt_R0; lra). nra.
    + intros H. destruct (Rle_lt_dec (Q2R var) 0) as [H0|H0]; [|by left].
      right. assert (Q2R var = 0)%R as Hz by lra. rewrite Hz, sqrt_0 in H. lra.
  - assert (0 <= Q2R t)%R as Ht'.
    { apply Rnot_lt_le. intros H. rewrite <- RMicromega.Q2R_0 in H.
      apply Qltb_real in H. congruence. }
    rewrite Qltb_real, !Q2R_mult.
    set (s := sqrt (Q2R var)) in *. rewrite <- Hss.
    assert (0 <= Q2R t * s)%R by (apply Rmult_le_pos; lra).
    replace (Q2R t * Q2R t * (s * s))%R
      with ((Q2R t * s) * (Q2R t * s))%R by ring.
    split; intros H1.
    + apply Rnot_le_gt. intros H2.
      assert (Q2R a * Q2R a <= (Q2R t * s) * (Q2R t * s))%R
        by (apply Rmult_le_compat; lra). lra.
    + apply Rmult_le_0_lt_compat; lra.
Qed.

Lemma Qabs_real q : Q2R (Qabs q) = Rabs (Q2R q).
Proof.
  destruct (Qlt_le_dec q 0) as [H|H].
  - rewrite Qabs_neg by (by apply Qlt_le_weak).
    apply Qlt_Rlt in H. rewrite RMicromega.Q2R_0 in H.
    rewrite Rabs_left by done. apply Q2R_opp.
  - rewrite Qabs_pos by done.
    apply Qle_Rle in H. rewrite RMicromega.Q2R_0 in H.
    by rewrite Rabs_right by lra.
Qed.

(** ** Column statistics *)

Lemma Qsum_sq_dev_nonneg m vs : (0 <= Qsum (sq_dev m <$> vs))%Q.
Proof.
  induction vs as [|v vs IH]; simpl; [apply Qle_refl|].
  assert (0 <= sq_dev m v)%Q.
  { unfold sq_dev. generalize (v - m)%Q. intros d.
    destruct d as [n k]. unfold Qle, Qmult. simpl. nia. }
  change (0 <= sq_dev m v + Qsum (sq_dev m <$> vs))%Q.
  apply (Qle_trans _ (0 + 0)); [done|]. by apply Qplus_le_compat.
Qed.

Lemma variance_nonneg xs var : variance xs = Some var -> (0 <= var)%Q.
Proof.
  unfold variance. destruct (mean xs) as [m|]; [|done].
  destruct (length (dropna xs) <=? 1)%nat eqn:Hn; [done|].
  intros [= <-]. apply Nat.leb_gt in Hn.
  apply Qle_shift_div_l.
  - replace 0%Q with (inject_Z 0) by done. rewrite <- Zlt_Qlt. lia.
  - rewrite Qmult_0_l. apply Qsum_sq_dev_nonneg.
Qed.

(** ** Outlier flagger *)

Lemma ior_flag_cell a b : ior (flag_cell a) b = flag_cell (a || b).
Proof. by destruct a, b. Qed.

Lemma zip_with_ior flags bs :
  zip_with ior (flag_cell <$> flags) bs = flag_cell <$> zip_with orb flags bs.
Proof.
  revert bs. induction flags as [|a flags IH]; intros [|b bs]; simpl; try done.
  f_equal; [apply ior_flag_cell | apply IH].
Qed.

Lemma setitem_setitem df label a b :
  setitem (setitem df label a) label b = setitem df label b.
Proof. unfold setitem. simpl. by rewrite insert_insert_eq. Qed.

Lemma length_outlier_series xs t : length (outlier_series xs t) = length xs.
Proof.
  unfold outlier_series.
  destruct (mean xs), (variance xs); by rewrite length_fmap.
Qed.

(** The loop of the flagger, started with the indicator holding [flags],
    folds [flag_step] over the monitored labels. *)
Lemma flag_columns_spec df t cols : forall flags,
  flag_columns (setitem df "is_outlier" (Numeric (flag_cell <$> flags))) cols t =
  if forallb (flaggable df) cols
  then inr (setitem df "is_outlier"
              (Numeric (flag_cell <$> fold_left (flag_step df t) cols flags)))
  else inl TypeError.
Proof.
  induction cols as [|c rest IH]; intros flags; simpl; [done|].
  unfold has_column, getitem, flaggable at 1, flag_step at 2, monitored.
  simpl. destruct (decide (c = "is_outlier")) as [->|Hne].
  - rewrite lookup_insert_eq. simpl.
    rewrite zip_with_ior, setitem_setitem. apply IH.
  - rewrite !(bool_decide_eq_false_2 (c = "is_outlier")) by done.
    rewrite lookup_insert_ne by done. unfold numeric_or_absent. simpl.
    destruct (columns df !! c) as [[xs|xs|xs]|] eqn:Hc; simpl; try done.
    rewrite lookup_insert_eq. simpl.
    rewrite zip_with_ior, setitem_setitem. apply IH.
Qed.

Lemma identify_outliers_spec df cols t :
  identify_outliers df cols t =
  if forallb (flaggable df) cols
  then inr (setitem df "is_outlier"
              (Numeric (flag_cell <$> outlier_flags df cols t)))
  else inl TypeError.
Proof.
  unfold identify_outliers, outlier_flags.
  rewrite <- flag_columns_spec. by rewrite fmap_replicate.
Qed.

Lemma length_flag_step df t flags label :
  (forall xs, monitored df flags label = Some (Numeric xs) ->
              length xs = length flags) ->
  length (flag_step df t flags label) = length flags.
Proof.
  intros H. unfold flag_step.
  destruct (monitored df flags label) as [[xs|xs|xs]|] eqn:Hm; try done.
  rewrite length_zip_with, length_outlier_series, (H xs); [lia|done].
Qed.

Lemma monitored_length df flags label xs :
  wf df -> length flags = nrows df ->
  monitored df flags label = Some (Numeric xs) -> length xs = length flags.
Proof.
  intros Hwf Hlen. unfold monitored. case_bool_decide.
  - intros [= <-]. by rewrite length_fmap.
  - intros Hc. apply Hwf in Hc. simpl in Hc. lia.
Qed.

Lemma length_fold_flag_step df t cols : forall flags,
  wf df -> length flags = nrows df ->
  length (fold_left (flag_step df t) cols flags) = nrows df.
Proof.
  induction cols as [|c rest IH]; intros flags Hwf Hlen; simpl; [done|].
  apply IH; [done|]. rewrite length_flag_step; [done|].
  intros xs. by apply monitored_length.
Qed.

Lemma length_outlier_flags df cols t :
  wf df -> length (outlier_flags df cols t) = nrows df.
Proof.
  intros Hwf. apply length_fold_flag_step; [done|]. apply length_replicate.
Qed.

(** *** One monitored column *)

Lemma outlier_series_lookup xs t i :
  outlier_series xs t !! i = Some true <->
  exists m var v,
    mean xs = Some m /\ variance xs = Some var /\ xs !! i = Some (Some v) /\
    gt_times_sqrt (Qabs (v - m)) t var = true.
Proof.
  unfold outlier_series.
  destruct (mean xs) as [m|], (variance xs) as [var|];
    rewrite list_lookup_fmap; destruct (xs !! i) as [[v|]|]; simpl;
    (split; [intros [= H] | intros (m0 & var0 & v0 & Hm & Hv & Hi & H)]);
    simplify_eq; first [done | by f_equal | by exists m, var, v].
Qed.

Lemma outlier_series_real xs t i :
  outlier_series xs t !! i = Some true <->
  exists mu var v,
    mean xs = Some mu /\ variance xs = Some var /\ xs !! i = Some (Some v) /\
    (Rabs (Q2R v - Q2R mu) > Q2R t * sqrt (Q2R var))%R.
Proof.
  rewrite outlier_series_lookup.
  split; intros (m & var & v & Hm & Hv & Hi & H); exists m, var, v;
    repeat split; try done.
  - apply gt_times_sqrt_real in H;
      [|apply Qabs_nonneg|by eapply variance_nonneg].
    by rewrite Qabs_real, Q2R_minus in H.
  - apply gt_times_sqrt_real;
      [apply Qabs_nonneg|by eapply variance_nonneg|].
    by rewrite Qabs_real, Q2R_minus.
Qed.

Lemma zip_with_orb_lookup (a b : list bool) i :
  length a = length b ->
  zip_with orb a b !! i = Some true <->
  a !! i = Some true \/ b !! i = Some true.
Proof.
  intros Hlen. rewrite lookup_zip_with.
  destruct (a !! i) as [x|] eqn:Ha, (b !! i) as [y|] eqn:Hb; simpl.
  - destruct x, y; naive_solver.
  - apply lookup_lt_Some in Ha. apply lookup_ge_None in Hb. lia.
  - apply lookup_lt_Some in Hb. apply lookup_ge_None in Ha. lia.
  - naive_solver.
Qed.

Lemma flagged_by_deviates df t label i :
  flagged_by df t label i <-> deviates df label t i.
Proof.
  unfold flagged_by, deviates. split.
  - intros (xs & Hc & H). apply outlier_series_real in H.
    destruct H as (m & var & v & ?). exists xs, m, var, v. naive_solver.
  - intros (xs & m & var & v & Hc & H). exists xs. split; [done|].
    apply outlier_series_real. exists m, var, v. naive_solver.
Qed.

Lemma flag_step_lookup df t flags label i :
  wf df -> length flags = nrows df -> label <> "is_outlier" ->
  flag_step df t flags label !! i = Some true <->
  flags !! i = Some true \/ flagged_by df t label i.
Proof.
  intros Hwf Hlen Hne. unfold flag_step, monitored, flagged_by.
  rewrite bool_decide_eq_false_2 by done.
  destruct (columns df !! label) as [[xs|xs|xs]|] eqn:Hc;
    try (split; [by left|intros [?|(?&?&?)]; done]).
  rewrite zip_with_orb_lookup.
  - split; (intros [?|?]; [by left|right]); naive_solver.
  - rewrite length_outlier_series. apply Hwf in Hc. simpl in Hc. lia.
Qed.

Lemma fold_flag_step_lookup df t cols : forall flags i,
  wf df -> length flags = nrows df -> "is_outlier" ∉ cols ->
  fold_left (flag_step df t) cols flags !! i = Some true <->
  flags !! i = Some true \/ exists label, label ∈ cols /\ flagged_by df t label i.
Proof.
  induction cols as [|c rest IH]; intros flags i Hwf Hlen Hio; simpl.
  - split; [by left|]. intros [?|(?&H&?)]; [done|]. by apply elem_of_nil in H.
  - apply not_elem_of_cons in Hio as [Hc Hrest].
    rewrite IH; [|done| |done].
    + rewrite flag_step_lookup by done. split.
      * intros [[?|?]|(l&?&?)]; [by left| |]; right.
        -- exists c. split; [left|done].
        -- exists l. split; [by right|done].
      * intros [?|(l&[->|?]%elem_of_cons&?)]; [by left; left|by left; right|].
        right. by exists l.
    + rewrite length_flag_step; [done|]. intros xs. by apply monitored_length.
Qed.

Lemma lookup_flag_cell (flags : list bool) (i : nat) :
  (flag_cell <$> flags) !! i = Some (Some 1%Q) <-> flags !! i = Some true.
Proof.
  rewrite list_lookup_fmap. destruct (flags !! i) as [[]|]; simpl; split;
    try done; intros [= ?]; done.
Qed.

(** C9. On the column [1, 2, 3, 4, 100] with threshold 4 the mean is 22 and
    the sample variance 1902.5; 78 does not exceed four standard
    deviations (78^2 = 6084 against 16 * 1902.5 = 30440), and the flagger
    flags no row. *)
Theorem example_column_not_flagged :
  (exists mu var,
     mean example_column = Some mu /\ variance example_column = Some var /\
     (mu == 22)%Q /\ (var == 3805 # 2)%Q /\
     (Qabs (100 - mu) == 78)%Q /\
     (78 * 78 == 6084)%Q /\ (4 * 4 * var == 30440)%Q /\
     ~ (Rabs (Q2R 100 - Q2R mu) > Q2R default_threshold * sqrt (Q2R var))%R) /\
  outlier_series example_column default_threshold = replicate 5 false /\
  identify_outliers example_frame ["value"] default_threshold =
    inr (setitem example_frame "is_outlier"
           (Numeric (replicate 5 (Some 0%Q)))).
Proof.
  split; [|split]; [|by vm_compute..].
  eexists _, _. split; [by vm_compute|]. split; [by vm_compute|].
  repeat (split; [by vm_compute|]).
  intros H. rewrite <- Q2R_minus, <- Qabs_real in H.
  apply gt_times_sqrt_real in H; [by vm_compute in H| |]; by vm_compute.
Qed.

(** *** Constant columns *)

Lemma sq_dev_nonneg m v : (0 <= sq_dev m v)%Q.
Proof.
  unfold sq_dev. generalize (v - m)%Q. intros [n k].
  unfold Qle, Qmult. simpl. nia.
Qed.

Lemma sq_dev_zero m v : (sq_dev m v == 0)%Q -> (v == m)%Q.
Proof.
  unfold sq_dev. intros H.
  assert (v - m == 0)%Q as H0 by (by destruct (Qmult_integral _ _ H)).
  Lqa.lra.
Qed.

Lemma Qsum_sq_dev_zero m vs :
  (Qsum (sq_dev m <$> vs) == 0)%Q -> Forall (fun v => (v == m)%Q) vs.
Proof.
  induction vs as [|v vs IH]; intros H; [constructor|].
  change (sq_dev m v + Qsum (sq_dev m <$> vs) == 0)%Q in H.
  pose proof (sq_dev_nonneg m v). pose proof (Qsum_sq_dev_nonneg m vs).
  constructor.
  - apply sq_dev_zero. Lqa.lra.
  - apply IH. Lqa.lra.
Qed.

Lemma elem_of_dropna (xs : list (option Q)) v :
  v ∈ dropna xs <-> Some v ∈ xs.
Proof.
  unfold dropna. rewrite list_elem_of_omap. split.
  - intros (x & Hx & ->). done.
  - intros H. by exists (Some v).
Qed.

(** With zero variance every entry present equals the mean. *)
Lemma zero_variance_constant xs m var :
  mean xs = Some m -> variance xs = Some var -> (var == 0)%Q ->
  forall v, Some v ∈ xs -> (v == m)%Q.
Proof.
  unfold variance. intros -> Hvar H0 v Hv.
  destruct (length (dropna xs) <=? 1)%nat eqn:Hn; [done|].
  injection Hvar as <-. apply Nat.leb_gt in Hn.
  apply elem_of_dropna in Hv.
  assert (Forall (fun v => (v == m)%Q) (dropna xs)) as HF;
    [|by apply (proj1 (Forall_forall _ _) HF)].
  apply Qsum_sq_dev_zero.
  set (d := inject_Z (Z.of_nat (length (dropna xs) - 1))) in *.
  assert (0 < d)%Q.
  { unfold d. replace 0%Q with (inject_Z 0) by done. rewrite <- Zlt_Qlt. lia. }
  rewrite <- (Qmult_div_r (Qsum (sq_dev m <$> dropna xs)) d) by Lqa.lra.
  rewrite H0. ring.
Qed.

Lemma all_false_replicate (bs : list bool) :
  (forall i, bs !! i <> Some true) -> bs = replicate (length bs) false.
Proof.
  induction bs as [|b bs IH]; intros H; simpl; [done|].
  f_equal.
  - specialize (H 0%nat). simpl in H. destruct b; congruence.
  - apply IH. intros i. apply (H (S i)).
Qed.

Lemma zip_with_orb_false (flags : list bool) n :
  (length flags <= n)%nat -> zip_with orb flags (replicate n false) = flags.
Proof.
  revert n. induction flags as [|a flags IH]; intros [|n] Hn; simpl in *;
    try done; try lia.
  rewrite orb_false_r. f_equal. apply IH. lia.
Qed.

Lemma zero_variance_no_flags xs var t :
  variance xs = Some var -> (var == 0)%Q ->
  outlier_series xs t = replicate (length xs) false.
Proof.
  intros Hvar H0. rewrite <- (length_outlier_series xs t).
  apply all_false_replicate. intros i Hi.
  apply outlier_series_real in Hi as (m & var' & v & Hm & Hv' & Hxi & H).
  rewrite Hvar in Hv'. injection Hv' as <-.
  assert (v == m)%Q as Hvm.
  { eapply zero_variance_constant; eauto. eapply list_elem_of_lookup_2, Hxi. }
  apply Qeq_eqR in Hvm, H0. rewrite RMicromega.Q2R_0 in H0.
  rewrite Hvm, H0, sqrt_0, Rmult_0_r, Rminus_diag, Rabs_R0 in H. lra.
Qed.

Lemma fold_left_flag_step_app df t pre post flags :
  fold_left (flag_step df t) (pre ++ post) flags =
  fold_left (flag_step df t) post (fold_left (flag_step df t) pre flags).
Proof. apply fold_left_app. Qed.

Lemma flag_step_zero_variance df t flags label xs var :
  monitored df flags label = Some (Numeric xs) ->
  length xs = length flags ->
  variance xs = Some var -> (var == 0)%Q ->
  flag_step df t flags label = flags.
Proof.
  intros Hm Hlen Hvar H0. unfold flag_step. rewrite Hm.
  rewrite (zero_variance_no_flags _ _ _ Hvar H0).
  apply zip_with_orb_false. lia.
Qed.

(** *** Monotonicity in the threshold *)






















(** ** Missing-value imputer *)

Lemma fillna_lookup_present xs value i v :
  xs !! i = Some (Some v) -> fillna xs value !! i = Some (Some v).
Proof. intros H. unfold fillna. by rewrite list_lookup_fmap, H. Qed.

Lemma fillna_lookup_missing xs value i :
  xs !! i = Some None -> fillna xs value !! i = Some value.
Proof. intros H. unfold fillna. by rewrite list_lookup_fmap, H. Qed.

Lemma fillna_no_missing xs m : Forall is_Some (fillna xs (Some m)).
Proof.
  unfold fillna. apply Forall_fmap, Forall_forall. intros [v|] _; simpl; eauto.
Qed.

Lemma impute_mean_numeric df label xs :
  columns df !! label = Some (Numeric xs) ->
  impute_mean df label = inr (setitem df label (Numeric (fillna xs (mean xs)))).
Proof. intros H. unfold impute_mean, getitem. by rewrite H. Qed.



(** ** Absent columns *)

Lemma elem_of_absent_labels df labels l :
  l ∈ absent_labels df labels <-> l ∈ labels /\ columns df !! l = None.
Proof.
  unfold absent_labels. rewrite !list_elem_of_In, filter_In.
  unfold has_column. rewrite negb_true_iff, bool_decide_eq_false.
  rewrite <- eq_None_not_Some. done.
Qed.

Lemma drop_absent df labels label :
  label ∈ labels -> columns df !! label = None ->
  drop df labels = inl (KeyError (absent_labels df labels)).
Proof.
  intros Hin Hnone. unfold drop.
  assert (label ∈ absent_labels df labels) as H
    by (by apply elem_of_absent_labels).
  destruct (absent_labels df labels); [by apply elem_of_nil in H|done].
Qed.

Lemma getitems_absent df labels label :
  label ∈ labels -> columns df !! label = None ->
  getitems df labels = inl (KeyError (absent_labels df labels)).
Proof.
  intros Hin Hnone. unfold getitems.
  assert (label ∈ absent_labels df labels) as H
    by (by apply elem_of_absent_labels).
  destruct (absent_labels df labels); [by apply elem_of_nil in H|done].
Qed.

Lemma abs_frame_skip df pre post label :
  columns df !! label = None ->
  abs_frame df (pre ++ label :: post) = abs_frame df (pre ++ post).
Proof.
  intros Hnone. apply df_eq; [done|]. intros l. rewrite !abs_frame_lookup.
  destruct (decide (l = label)) as [->|Hne]; [by rewrite Hnone|].
  destruct (columns df !! l); [|done]. simpl. f_equal.
  case_bool_decide as H1; case_bool_decide as H2; try done; exfalso.
  - apply H2. set_solver.
  - apply H1. set_solver.
Qed.

Lemma flag_step_absent df t flags label :
  label <> "is_outlier" -> columns df !! label = None ->
  flag_step df t flags label = flags.
Proof.
  intros Hne Hnone. unfold flag_step, monitored.
  by rewrite bool_decide_eq_false_2, Hnone.
Qed.

Lemma absent_labels_setitem df col c labels :
  is_Some (columns df !! col) ->
  absent_labels (setitem df col c) labels = absent_labels df labels.
Proof.
  intros Hc. unfold absent_labels. induction labels as [|l labels IH]; [done|].
  simpl. rewrite IH.
  replace (has_column (setitem df col c) l) with (has_column df l); [done|].
  unfold has_column, setitem. simpl.
  destruct (decide (col = l)) as [->|Hne].
  - rewrite lookup_insert_eq. apply bool_decide_ext. naive_solver.
  - by rewrite lookup_insert_ne.
Qed.

(** The encoding loop stops at the first listed label that names no
    column, with a [KeyError] that names it. *)
Lemma encode_columns_absent cols : forall df maps l ls,
  absent_labels df cols = l :: ls ->
  encode_columns df maps cols = inl (KeyError [l]).
Proof.
  induction cols as [|c rest IH]; intros df maps l ls Habs; [done|].
  simpl. unfold create_mapping, getitem.
  unfold absent_labels in Habs. simpl in Habs. unfold has_column in Habs.
  destruct (columns df !! c) as [col|] eqn:Hc; simpl.
  - rewrite bool_decide_eq_true_2 in Habs by done. simpl in Habs.
    eapply IH. rewrite absent_labels_setitem by done. exact Habs.
  - rewrite bool_decide_eq_false_2 in Habs by (by intros [? ?]).
    simpl in Habs. by injection Habs as <- _.
Qed.

Lemma absent_labels_first df pre post label :
  Forall (fun l => is_Some (columns df !! l)) pre ->
  columns df !! label = None ->
  absent_labels df (pre ++ label :: post) = label :: absent_labels df post.
Proof.
  intros Hpre Hnone. unfold absent_labels.
  induction Hpre as [|l pre Hl _ IH]; simpl.
  - unfold has_column. rewrite Hnone.
    by rewrite bool_decide_eq_false_2 by (by intros [? ?]).
  - unfold has_column at 1. by rewrite bool_decide_eq_true_2.
Qed.

(** C5 (as amended).  For a label that names no column of the frame:
    dropping and date-normalising raise a [KeyError] that lists it;
    imputing it raises a [KeyError] that names it, and so does the imputer
    of the script when the label is its first column, or its second and the
    first is numeric, and in no case does the imputer return; the encoding
    loop raises a [KeyError] that names the first listed label without a
    column, which is this label when those listed before it name columns.
    The sign normaliser and the outlier flagger test for the column and
    pass over the label, with the result they give without it. *)
Theorem absent_column_policy (df : DataFrame) (label : string) :
  columns df !! label = None ->
  (forall labels, label ∈ labels ->
     exists missing, drop df labels = inl (KeyError missing) /\
                     label ∈ missing) /\
  impute_mean df label = inl (KeyError [label]) /\
  (label ∈ imputed_columns ->
     (forall df', imputer df <> inr df') /\
     (label = "age_first_milestone_year" ->
        imputer df = inl (KeyError [label])) /\
     (label = "age_last_milestone_year" ->
        forall xs,
          columns df !! "age_first_milestone_year" = Some (Numeric xs) ->
          imputer df = inl (KeyError [label]))) /\
  create_mapping df label = inl (KeyError [label]) /\
  (forall maps cols, label ∈ cols ->
     exists l, l ∈ cols /\ columns df !! l = None /\
               head (absent_labels df cols) = Some l /\
               encode_columns df maps cols = inl (KeyError [l])) /\
  (forall maps pre post,
     Forall (fun l => is_Some (columns df !! l)) pre ->
     encode_columns df maps (pre ++ label :: post) = inl (KeyError [label])) /\
  (label ∈ categorical_columns ->
     exists l, l ∈ categorical_columns /\ columns df !! l = None /\
               categorical_encoder df = inl (KeyError [l])) /\
  (label ∈ date_columns ->
     exists missing, date_normalizer df = inl (KeyError missing) /\
                     label ∈ missing) /\
  (forall pre post,
     apply_absolute_values df (pre ++ label :: post) =
     apply_absolute_values df (pre ++ post)) /\
  (forall pre post t, label <> "is_outlier" ->
     identify_outliers df (pre ++ label :: post) t =
     identify_outliers df (pre ++ post) t).
Proof.
  intros Hnone.
  assert (impute_mean df label = inl (KeyError [label])) as Himp
    by (unfold impute_mean, getitem; by rewrite Hnone).
  assert (create_mapping df label = inl (KeyError [label])) as Hmap
    by (unfold create_mapping, getitem; by rewrite Hnone).
  assert (forall maps cols, label ∈ cols ->
            exists l, l ∈ cols /\ columns df !! l = None /\
                      head (absent_labels df cols) = Some l /\
                      encode_columns df maps cols = inl (KeyError [l])) as Henc.
  { intros maps cols Hin.
    assert (label ∈ absent_labels df cols) as Habs
      by (by apply elem_of_absent_labels).
    destruct (absent_labels df cols) as [|l ls] eqn:Hl;
      [by apply elem_of_nil in Habs|].
    assert (l ∈ absent_labels df cols) as Hl' by (rewrite Hl; left).
    apply elem_of_absent_labels in Hl' as [? ?].
    exists l. repeat split; try done. by eapply encode_columns_absent. }
  split; [|split; [done|split; [|split; [done|split; [done|split;
    [|split; [|split; [|split]]]]]]]].
  - intros labels Hin. exists (absent_labels df labels).
    split; [by eapply drop_absent|by apply elem_of_absent_labels].
  - intros Hin. split; [|split].
    + intros df' Hrun. unfold imputer in Hrun.
      destruct (impute_mean df "age_first_milestone_year") as [e|df1] eqn:H1;
        [done|]. simpl in Hrun.
      unfold imputed_columns in Hin.
      apply elem_of_cons in Hin as [->|Hin]; [by rewrite Himp in H1|].
      apply list_elem_of_singleton in Hin as ->.
      unfold impute_mean at 1, getitem in H1.
      destruct (columns df !! "age_first_milestone_year") as [c|]; [|done].
      simpl in H1. destruct (numeric_values c) as [|xs]; [done|].
      simpl in H1. injection H1 as <-.
      unfold impute_mean, getitem, setitem in Hrun. simpl in Hrun.
      rewrite lookup_insert_ne, Hnone in Hrun by done. done.
    + intros ->. unfold imputer. by rewrite Himp.
    + intros -> xs Hxs. unfold imputer. unfold impute_mean at 1, getitem.
      rewrite Hxs. simpl.
      unfold impute_mean, getitem, setitem. simpl.
      by rewrite lookup_insert_ne, Hnone.
  - intros maps pre post Hpre. eapply encode_columns_absent.
    by apply absent_labels_first.
  - intros Hin.
    destruct (Henc ∅ categorical_columns Hin) as (l & ? & ? & _ & ?).
    by exists l.
  - intros Hin. exists (absent_labels df date_columns).
    split; [|by apply elem_of_absent_labels].
    unfold date_normalizer, reference_date.
    by rewrite (getitems_absent _ _ _ Hin Hnone).
  - intros pre post. rewrite !apply_absolute_values_spec, !forallb_app.
    simpl. unfold numeric_or_absent at 2. rewrite Hnone. simpl.
    by rewrite abs_frame_skip.
  - intros pre post t Hne. rewrite !identify_outliers_spec, !forallb_app.
    simpl. unfold flaggable at 2, numeric_or_absent. rewrite Hnone.
    rewrite orb_true_r. simpl.
    destruct (forallb (flaggable df) pre && forallb (flaggable df) post);
      [|done].
    do 3 f_equal. apply (f_equal (fmap flag_cell)). unfold outlier_flags.
    rewrite !fold_left_flag_step_app. cbn [fold_left].
    by rewrite flag_step_absent.
Qed.

(** The sign normaliser and the outlier flagger do not raise on a label
    that names no column. *)
Lemma absent_column_not_reported :
  ~ (forall df label,
       columns df !! label = None ->
       (exists e, apply_absolute_values df [label] = inl e) /\
       (exists e, identify_outliers df [label] default_threshold = inl e)).
Proof.
  intros H. destruct (H example_frame "no_such_column") as [[e He] _].
  - by vm_compute.
  - vm_compute in He. done.
Qed.

(** ** Categorical encoder *)

Lemma elem_of_unique_from seen values x :
  x ∈ unique_from seen values <-> x ∈ values /\ x ∉ seen.
Proof.
  revert seen. induction values as [|v rest IH]; intros seen; simpl.
  - set_solver.
  - case_bool_decide as Hv.
    + rewrite IH. set_solver.
    + rewrite elem_of_cons, IH. split.
      * intros [->|[? ?]]; set_solver.
      * intros [[->|?]%elem_of_cons ?]; [by left|].
        destruct (decide (x = v)) as [->|?]; [by left|right]. set_solver.
Qed.

Lemma NoDup_unique_from seen values : NoDup (unique_from seen values).
Proof.
  revert seen. induction values as [|v rest IH]; intros seen; simpl.
  - constructor.
  - case_bool_decide; [apply IH|].
    constructor; [|apply IH]. rewrite elem_of_unique_from. set_solver.
Qed.

Lemma elem_of_unique values x : x ∈ unique values <-> x ∈ values.
Proof. unfold unique. rewrite elem_of_unique_from. set_solver. Qed.

Lemma index_of_Some v values i :
  index_of v values = Some i ->
  values !! i = Some v /\ forall j, (j < i)%nat -> values !! j <> Some v.
Proof.
  revert i. induction values as [|x rest IH]; intros i; simpl; [done|].
  case_bool_decide as Hx.
  - intros [= <-]. split; [by subst|]. intros j Hj. lia.
  - destruct (index_of v rest) as [k|]; [|done]. simpl.
    intros [= <-]. destruct (IH k eq_refl) as [Hk Hfirst].
    split; [done|]. intros [|j] Hj; simpl.
    + congruence.
    + apply Hfirst. lia.
Qed.

Lemma index_of_elem v values : v ∈ values -> is_Some (index_of v values).
Proof.
  induction values as [|x rest IH]; intros H; simpl.
  - by apply elem_of_nil in H.
  - case_bool_decide; [eauto|].
    apply elem_of_cons in H as [->|H]; [done|].
    destruct (IH H) as [k ->]. simpl. eauto.
Qed.

Lemma index_of_NoDup v values i :
  NoDup values -> values !! i = Some v -> index_of v values = Some i.
Proof.
  intros Hnd Hi.
  destruct (index_of_elem v values) as [k Hk];
    [by eapply list_elem_of_lookup_2|].
  apply index_of_Some in Hk as Hk'. destruct Hk' as [Hvk _].
  by rewrite (NoDup_lookup _ _ _ _ Hnd Hi Hvk).
Qed.

(** Values are discovered in the order of their first occurrences. *)
Lemma unique_from_order values : forall seen j k a b,
  unique_from seen values !! j = Some a ->
  unique_from seen values !! k = Some b ->
  (j < k)%nat ->
  exists ia ib, index_of a values = Some ia /\ index_of b values = Some ib /\
                (ia < ib)%nat.
Proof.
  induction values as [|v rest IH]; intros seen j k a b Ha Hb Hjk;
    simpl in Ha, Hb; [done|].
  case_bool_decide as Hv.
  - destruct (IH _ _ _ _ _ Ha Hb Hjk) as (ia & ib & Hia & Hib & Hlt).
    assert (a ∈ unique_from seen rest) as Hain
      by (by eapply list_elem_of_lookup_2).
    assert (b ∈ unique_from seen rest) as Hbin
      by (by eapply list_elem_of_lookup_2).
    apply elem_of_unique_from in Hain as [_ Hain].
    apply elem_of_unique_from in Hbin as [_ Hbin].
    exists (S ia), (S ib). simpl.
    rewrite !bool_decide_eq_false_2 by (intros ->; done).
    rewrite Hia, Hib. simpl. repeat split; try done. lia.
  - destruct k as [|k]; [lia|]. simpl in Hb.
    assert (b ∈ unique_from (v :: seen) rest) as Hbin
      by (by eapply list_elem_of_lookup_2).
    apply elem_of_unique_from in Hbin as [Hbr Hbin].
    assert (v <> b) as Hvb by set_solver.
    destruct j as [|j]; simpl in Ha.
    + injection Ha as ->.
      destruct (index_of_elem b rest Hbr) as [ib Hib].
      exists 0%nat, (S ib). simpl.
      rewrite bool_decide_eq_true_2 by done.
      rewrite bool_decide_eq_false_2 by done. rewrite Hib. simpl.
      repeat split; try done. lia.
    + assert (a ∈ unique_from (v :: seen) rest) as Hain
        by (by eapply list_elem_of_lookup_2).
      apply elem_of_unique_from in Hain as [_ Hain].
      assert (v <> a) as Hva by set_solver.
      destruct (IH _ _ _ _ _ Ha Hb) as (ia & ib & Hia & Hib & Hlt); [lia|].
      exists (S ia), (S ib). simpl.
      rewrite !bool_decide_eq_false_2 by done.
      rewrite Hia, Hib. simpl. repeat split; try done. lia.
Qed.

Lemma dict_get_imap (g : nat -> nat) values key :
  dict_get (imap (fun i value => (value, g i)) values) key =
  g <$> index_of key values.
Proof.
  revert g. induction values as [|x rest IH]; intros g; simpl; [done|].
  case_bool_decide; [done|].
  change (dict_get (imap (fun i value => (value, (g ∘ S) i)) rest) key =
          g <$> (S <$> index_of key rest)).
  rewrite IH. by destruct (index_of key rest).
Qed.

Lemma dict_get_enumerate values key :
  dict_get (imap (fun i value => (value, i)) values) key = index_of key values.
Proof.
  rewrite (dict_get_imap (fun i => i)). by destruct (index_of key values).
Qed.

Lemma enumerate_fst (values : list scalar) :
  (imap (fun i value => (value, i)) values).*1 = values.
Proof.
  apply list_eq. intros i.
  rewrite list_lookup_fmap, list_lookup_imap.
  by destruct (values !! i).
Qed.

Lemma enumerate_snd (values : list scalar) :
  (imap (fun i value => (value, i)) values).*2 = seq 0 (length values).
Proof.
  apply list_eq. intros i.
  rewrite list_lookup_fmap, list_lookup_imap.
  destruct (values !! i) as [v|] eqn:Hv; simpl.
  - symmetry. apply lookup_seq. split; [done|]. by eapply lookup_lt_Some.
  - symmetry. apply lookup_ge_None. rewrite length_seq.
    by apply lookup_ge_None in Hv.
Qed.

Lemma create_mapping_present df label c :
  columns df !! label = Some c ->
  create_mapping df label =
  inr (imap (fun i value => (value, i)) (unique (scalars c))).
Proof. intros H. unfold create_mapping, getitem. by rewrite H. Qed.

(** The encoding loop over distinct labels that all name a column: every
    listed column is rewritten through the mapping built from its own
    values, the mapping is stored under the label, and nothing else
    changes. *)
Lemma encode_columns_spec cols : forall df maps,
  NoDup cols ->
  Forall (fun l => is_Some (columns df !! l)) cols ->
  exists df' maps',
    encode_columns df maps cols = inr (df', maps') /\
    nrows df' = nrows df /\
    (forall l c, l ∈ cols -> columns df !! l = Some c ->
       let mapping := imap (fun i value => (value, i)) (unique (scalars c)) in
       maps' !! l = Some mapping /\
       columns df' !! l = Some (series_map c mapping)) /\
    (forall l, l ∉ cols ->
       columns df' !! l = columns df !! l /\ maps' !! l = maps !! l).
Proof.
  induction cols as [|col rest IH]; intros df maps Hnd Hall; simpl.
  - exists df, maps. split; [done|]. split; [done|]. split.
    + intros l c H. by apply elem_of_nil in H.
    + done.
  - apply NoDup_cons in Hnd as [Hcol Hnd].
    apply Forall_cons in Hall as [[c0 Hc0] Hall].
    rewrite (create_mapping_present _ _ _ Hc0). simpl.
    unfold getitem. rewrite Hc0. simpl.
    set (mapping0 := imap (fun i value => (value, i)) (unique (scalars c0))).
    destruct (IH (setitem df col (series_map c0 mapping0))
                 (<[col := mapping0]> maps) Hnd)
      as (df' & maps' & Hrun & Hn & Hin & Hout).
    { eapply Forall_impl; [exact Hall|]. intros l Hl. simpl.
      destruct (decide (col = l)) as [->|?].
      - rewrite lookup_insert_eq. eauto.
      - by rewrite lookup_insert_ne. }
    exists df', maps'. split; [done|]. split; [done|]. split.
    + intros l c [->|Hl]%elem_of_cons Hc.
      * destruct (Hout col Hcol) as [H1 H2]. simpl in H1.
        rewrite lookup_insert_eq in H1. rewrite lookup_insert_eq in H2.
        rewrite Hc0 in Hc. injection Hc as <-. done.
      * assert (col <> l) by (intros ->; done).
        apply Hin; [done|]. simpl. by rewrite lookup_insert_ne.
    + intros l [Hne Hl]%not_elem_of_cons.
      destruct (Hout l Hl) as [H1 H2]. simpl in H1.
      rewrite lookup_insert_ne in H1 by done.
      rewrite lookup_insert_ne in H2 by done. done.
Qed.

(** C3. For distinct categorical labels that all name a column, the encoder
    returns a frame and one mapping per label such that, for the values of
    the column: the mapping lists the distinct values in the order they
    are first met, paired with the codes 0, 1, 2, ...; a smaller code means
    an earlier first occurrence; every entry is rewritten with the code of
    its value; distinct values have distinct codes; every code is held by
    some row; and the mapping is determined by the column alone. *)
Theorem categorical_encoder_codes (df : DataFrame) (cols : list string) :
  NoDup cols ->
  Forall (fun l => is_Some (columns df !! l)) cols ->
  exists df' maps,
    encode_columns df ∅ cols = inr (df', maps) /\
    forall label c,
      label ∈ cols -> columns df !! label = Some c ->
      exists mapping codes,
        maps !! label = Some mapping /\
        columns df' !! label = Some (Numeric codes) /\
        mapping.*1 = unique (scalars c) /\
        mapping.*2 = seq 0 (length (unique (scalars c))) /\
        NoDup (unique (scalars c)) /\
        (forall v, v ∈ unique (scalars c) <-> v ∈ scalars c) /\
        (forall a b ca cb,
           dict_get mapping a = Some ca -> dict_get mapping b = Some cb ->
           (ca < cb)%nat ->
           exists ia ib,
             index_of a (scalars c) = Some ia /\
             index_of b (scalars c) = Some ib /\ (ia < ib)%nat) /\
        length codes = length (scalars c) /\
        (forall i v,
           scalars c !! i = Some v ->
           exists code,
             dict_get mapping v = Some code /\
             codes !! i = Some (Some (inject_Z (Z.of_nat code)))) /\
        (forall a b code,
           dict_get mapping a = Some code -> dict_get mapping b = Some code ->
           a = b) /\
        (forall code, (code < length mapping)%nat ->
           exists i, codes !! i = Some (Some (inject_Z (Z.of_nat code)))) /\
        (forall df2, columns df2 !! label = Some c ->
                     create_mapping df2 label = inr mapping).
Proof.
  intros Hnd Hall.
  destruct (encode_columns_spec cols df ∅ Hnd Hall)
    as (df' & maps & Hrun & _ & Hin & _).
  exists df', maps. split; [done|].
  intros label c Hl Hc. destruct (Hin label c Hl Hc) as [Hm Hcol].
  set (u := unique (scalars c)) in *.
  set (mapping := imap (fun i value => (value, i)) u) in *.
  assert (forall key, dict_get mapping key = index_of key u) as Hget
    by (intros; apply dict_get_enumerate).
  assert (NoDup u) as Hu by apply NoDup_unique_from.
  assert (forall key code, dict_get mapping key = Some code ->
                           u !! code = Some key) as Hcode.
  { intros key code. rewrite Hget. intros H%index_of_Some. apply H. }
  assert (forall v, v ∈ (scalars c) -> exists code, dict_get mapping v = Some code)
    as Hdom.
  { intros v Hv. rewrite Hget.
    by apply index_of_elem, elem_of_unique. }
  eexists mapping, _. split; [done|]. split; [done|].
  split; [apply enumerate_fst|]. split; [apply enumerate_snd|].
  split; [done|]. split; [intros; apply elem_of_unique|].
  split; [|split; [|split; [|split; [|split]]]].
  - intros a b ca cb Ha Hb Hlt.
    eapply (unique_from_order (scalars c) [] ca cb); eauto.
  - by rewrite length_fmap.
  - intros i v Hi.
    destruct (Hdom v) as [code Hcd]; [eapply list_elem_of_lookup_2, Hi|].
    exists code. split; [done|].
    by rewrite list_lookup_fmap, Hi; simpl; rewrite Hcd.
  - intros a b code Ha Hb. apply Hcode in Ha, Hb. congruence.
  - intros code Hlt. unfold mapping in Hlt. rewrite length_imap in Hlt.
    destruct (lookup_lt_is_Some_2 u code Hlt) as [v Hv].
    assert (v ∈ (scalars c)) as Hvs
      by (apply elem_of_unique; eapply list_elem_of_lookup_2, Hv).
    apply list_elem_of_lookup_1 in Hvs as [i Hi]. exists i.
    rewrite list_lookup_fmap, Hi. simpl.
    by rewrite Hget, (index_of_NoDup _ _ _ Hu Hv).
  - intros df2 Hc2. by apply create_mapping_present.
Qed.

(** ** Date normaliser *)

Lemma series_min_le ts t :
  Some t ∈ ts -> exists r, series_min ts = Some r /\ (r <= t)%Z.
Proof.
  induction ts as [|x ts IH]; intros H; [by apply elem_of_nil in H|].
  apply elem_of_cons in H as [<-|H]; simpl.
  - destruct (series_min ts) as [m|]; simpl; eexists; split; try done; lia.
  - destruct (IH H) as (r & -> & Hr).
    destruct x as [y|]; simpl; eexists; split; try done; lia.
Qed.

Lemma series_min_elem ts r : series_min ts = Some r -> Some r ∈ ts.
Proof.
  revert r. induction ts as [|x ts IH]; intros r; simpl; [done|].
  destruct x as [y|], (series_min ts) as [m|] eqn:Hm; simpl; intros [= <-].
  - destruct (Z.min_spec y m) as [[_ ->]|[_ ->]]; [left|right; by apply IH].
  - left.
  - right. by apply IH.
Qed.

Lemma date_columns_cases label :
  label ∈ date_columns ->
  label = "founded_at" \/ label = "first_funding_at" \/
  label = "last_funding_at".
Proof. unfold date_columns. set_solver. Qed.

Lemma days_since_lookup ref (ts : list (option Z)) (i : nat) t :
  ts !! i = Some (Some t) ->
  forall r, ref = Some r ->
  (days_since ref <$> ts) !! i = Some (Some (inject_Z ((t - r) / ns_per_day))).
Proof. intros Hi r ->. by rewrite list_lookup_fmap, Hi. Qed.

Lemma date_normalizer_total df founded first last :
  columns df !! "founded_at" = Some (Datetime founded) ->
  columns df !! "first_funding_at" = Some (Datetime first) ->
  columns df !! "last_funding_at" = Some (Datetime last) ->
  exists df', date_normalizer df = inr df'.
Proof.
  intros Hfounded Hfirst Hlast. eexists.
  unfold date_normalizer, reference_date, getitems, absent_labels, has_column.
  simpl. rewrite Hfounded, Hfirst, Hlast. simpl.
  unfold getitem. simpl. rewrite Hfounded. simpl.
  rewrite lookup_insert_ne, Hfirst by done. simpl.
  rewrite !lookup_insert_ne, Hlast by done. simpl.
  unfold drop, absent_labels, has_column. simpl.
  rewrite !lookup_insert_ne, Hfounded, Hfirst, Hlast by done. simpl. done.
Qed.

(** C1. On a frame whose three date columns hold timestamps, the date
    normaliser takes as reference the least date of the three columns
    together, adds for each of them a column of whole-day offsets from that
    reference, every offset being non-negative and the offset of the
    reference date itself being 0, removes the three date columns and
    leaves the other columns as they were. *)
Theorem date_normalizer_offsets (df : DataFrame)
    (founded first last : list (option Z)) :
  columns df !! "founded_at" = Some (Datetime founded) ->
  columns df !! "first_funding_at" = Some (Datetime first) ->
  columns df !! "last_funding_at" = Some (Datetime last) ->
  exists df' ref,
    reference_date df = inr ref /\
    date_normalizer df = inr df' /\
    (forall label ts t,
       label ∈ date_columns -> columns df !! label = Some (Datetime ts) ->
       Some t ∈ ts -> exists r, ref = Some r /\ (r <= t)%Z) /\
    (forall r, ref = Some r ->
       exists label ts,
         label ∈ date_columns /\ columns df !! label = Some (Datetime ts) /\
         Some r ∈ ts) /\
    (forall (label : string) ts,
       label ∈ date_columns -> columns df !! label = Some (Datetime ts) ->
       exists days,
         columns df' !! (label ++ "_days")%string = Some (Numeric days) /\
         length days = length ts /\
         (forall i, ts !! i = Some None -> days !! i = Some None) /\
         forall i t, ts !! i = Some (Some t) ->
           exists r, ref = Some r /\
             days !! i = Some (Some (inject_Z ((t - r) / ns_per_day))) /\
             (0 <= (t - r) / ns_per_day)%Z /\
             (t = r -> ((t - r) / ns_per_day = 0)%Z)) /\
    (forall label, label ∈ date_columns -> columns df' !! label = None) /\
    (forall label,
       label ∉ date_columns ->
       label ∉ (fun l : string => (l ++ "_days")%string) <$> date_columns ->
       columns df' !! label = columns df !! label).
Proof.
  intros Hfounded Hfirst Hlast.
  set (ref := series_min [series_min founded; series_min first; series_min last]).
  assert (reference_date df = inr ref) as Href.
  { unfold reference_date, getitems, absent_labels, has_column. simpl.
    rewrite Hfounded, Hfirst, Hlast. simpl. done. }
  assert (forall ts t,
            ts ∈ [founded; first; last] -> Some t ∈ ts ->
            exists r, ref = Some r /\ (r <= t)%Z) as Hmin.
  { intros ts t Hts Ht. destruct (series_min_le ts t Ht) as (m & Hm & Hle).
    destruct (series_min_le [series_min founded; series_min first;
                              series_min last] m) as (r & Hr & Hrm).
    - rewrite <- Hm. set_solver.
    - exists r. split; [done|]. lia. }
  eexists _, ref. split; [done|]. split.
  { unfold date_normalizer. rewrite Href. simpl.
    unfold getitem. simpl.
    rewrite Hfounded. simpl.
    rewrite lookup_insert_ne, Hfirst by done. simpl.
    rewrite !lookup_insert_ne, Hlast by done. simpl.
    unfold drop, absent_labels, has_column. simpl.
    rewrite !lookup_insert_ne, Hfounded, Hfirst, Hlast by done. simpl. done. }
  split; [|split; [|split; [|split]]].
  - intros label ts t Hl Hts Ht. apply (Hmin ts); [|done].
    destruct (date_columns_cases _ Hl) as [->|[->| ->]]; simplify_eq;
      set_solver.
  - intros r Hr. apply series_min_elem in Hr.
    assert (exists ts, ts ∈ [founded; first; last] /\ series_min ts = Some r)
      as (ts & Hts & Hm) by set_solver.
    apply series_min_elem in Hm.
    assert (ts = founded \/ ts = first \/ ts = last) as [->|[->| ->]]
      by set_solver.
    + exists "founded_at", founded. unfold date_columns. set_solver.
    + exists "first_funding_at", first. unfold date_columns. set_solver.
    + exists "last_funding_at", last. unfold date_columns. set_solver.
  - intros label ts Hl Hts. exists (days_since ref <$> ts).
    split; [|split; [by rewrite length_fmap|split]].
    + destruct (date_columns_cases _ Hl) as [->|[->| ->]]; simplify_eq; simpl.
      * rewrite !lookup_delete_ne, !lookup_insert_ne by done.
        by rewrite lookup_insert_eq.
      * rewrite !lookup_delete_ne, !lookup_insert_ne by done.
        by rewrite lookup_insert_eq.
      * rewrite !lookup_delete_ne by done. by rewrite lookup_insert_eq.
    + intros i Hi. by rewrite list_lookup_fmap, Hi.
    + intros i t Hi.
      destruct (Hmin ts t) as (r & Hr & Hle).
      * destruct (date_columns_cases _ Hl) as [->|[->| ->]]; simplify_eq;
          set_solver.
      * eapply list_elem_of_lookup_2, Hi.
      * exists r. split; [done|]. split; [by apply days_since_lookup|].
        split.
        -- apply Z.div_pos; [lia|done].
        -- intros ->. by rewrite Z.sub_diag.
  - intros label Hl. simpl.
    destruct (date_columns_cases _ Hl) as [->|[->| ->]].
    + apply lookup_delete_eq.
    + rewrite lookup_delete_ne by done. apply lookup_delete_eq.
    + rewrite !lookup_delete_ne by done. apply lookup_delete_eq.
  - intros label Hl Hd. simpl. unfold date_columns in Hl. simpl in Hd.
    rewrite !lookup_delete_ne, !lookup_insert_ne; [done|set_solver..].
Qed.

(** ** From the log-transformed histograms to the export *)

Lemma bind_inr {A B} (m : result A) (k : A -> result B) b :
  bind m k = inr b -> exists a, m = inr a /\ k a = inr b.
Proof. destruct m as [e|a]; simpl; [done|]. eauto. Qed.

Lemma drop_lookup df labels df' l :
  drop df labels = inr df' ->
  columns df' !! l = if bool_decide (l ∈ labels) then None else columns df !! l.
Proof.
  unfold drop. destruct (absent_labels df labels); [|done].
  intros [= <-]. simpl. clear.
  induction labels as [|x labels IH]; simpl; [done|].
  destruct (decide (l = x)) as [->|Hne].
  - rewrite lookup_delete_eq. by rewrite bool_decide_eq_true_2 by left.
  - rewrite lookup_delete_ne, IH by done.
    case_bool_decide as H1; case_bool_decide as H2; try done; exfalso.
    + apply H2. by right.
    + apply elem_of_cons in H2 as [?|?]; done.
Qed.

Lemma encode_columns_frame cols : forall df maps df' maps' l,
  encode_columns df maps cols = inr (df', maps') ->
  l ∉ cols -> columns df' !! l = columns df !! l.
Proof.
  induction cols as [|col rest IH]; intros df maps df' maps' l; simpl.
  - by intros [= <- <-] _.
  - intros H [Hne Hl]%not_elem_of_cons.
    apply bind_inr in H as (mapping & _ & H).
    apply bind_inr in H as (c & _ & H).
    rewrite (IH _ _ _ _ _ H Hl). simpl. by rewrite lookup_insert_ne.
Qed.

Lemma convert_to_days_frame ref cols : forall df df' l,
  convert_to_days df ref cols = inr df' ->
  l ∉ (fun c : string => (c ++ "_days")%string) <$> cols ->
  columns df' !! l = columns df !! l.
Proof.
  induction cols as [|col rest IH]; intros df df' l; simpl.
  - by intros [= <-] _.
  - intros H [Hne Hl]%not_elem_of_cons.
    apply bind_inr in H as (c & _ & H).
    apply bind_inr in H as (ts & _ & H).
    rewrite (IH _ _ _ H Hl). simpl. by rewrite lookup_insert_ne.
Qed.

Lemma date_normalizer_frame df df' l :
  date_normalizer df = inr df' ->
  l ∉ date_columns ->
  l ∉ (fun c : string => (c ++ "_days")%string) <$> columns_to_convert ->
  columns df' !! l = columns df !! l.
Proof.
  unfold date_normalizer. intros H Hl Hd.
  apply bind_inr in H as (ref & _ & H).
  apply bind_inr in H as (df1 & H1 & H).
  rewrite (drop_lookup _ _ _ l H), bool_decide_eq_false_2 by done.
  by eapply convert_to_days_frame.
Qed.

Section ScriptProperties.
Variable np_log : Q -> option Q.
Variable argsort : column -> list nat.
Variable strftime_Y : Z -> string.

(** The histogram loop reads the table and adds subplots; it assigns
    neither to the table nor to a file. *)
Lemma log_histograms_state vars : forall i s s',
  log_histograms np_log i vars s = inr s' ->
  dataframe s' = dataframe s /\ files s' = files s /\
  exists added, figure s' = figure s ++ added.
Proof.
  induction vars as [|variable rest IH]; intros i s s'; simpl.
  - intros [= <-]. repeat split; try done. exists []. by rewrite app_nil_r.
  - intros H.
    apply bind_inr in H as (c & _ & H).
    apply bind_inr in H as (c1 & _ & H).
    apply bind_inr in H as (shifted & _ & H).
    apply bind_inr in H as (log_variable & _ & H).
    apply IH in H as (Hdf & Hfiles & added & Hfig). simpl in *.
    repeat split; try done. rewrite Hfig, <- !app_assoc. by eexists.
Qed.

Lemma log_histograms_total vars : forall i s,
  Forall (fun l => exists xs, columns (dataframe s) !! l = Some (Numeric xs))
         vars ->
  exists s', log_histograms np_log i vars s = inr s'.
Proof.
  induction vars as [|variable rest IH]; intros i s Hall; simpl.
  - by eexists.
  - apply Forall_cons in Hall as [[xs Hxs] Hall].
    unfold getitem. simpl. rewrite Hxs. simpl. by apply IH.
Qed.

(** The subplots drawn for the [k]-th variable: its histogram, and the
    histogram of the logarithm of its entries plus one. *)
Lemma log_histograms_figure vars : forall i s s' k label,
  log_histograms np_log i vars s = inr s' ->
  vars !! k = Some label ->
  exists xs,
    columns (dataframe s) !! label = Some (Numeric xs) /\
    mkAxes (i + k + 1) label (Numeric xs) ∈ figure s' /\
    mkAxes (i + k + 5) ("log_" ++ label)
      (Numeric ((fun x : option Q => x ≫= np_log) <$>
                ((fun x : option Q => (fun v => (v + 1)%Q) <$> x) <$> xs)))
      ∈ figure s'.
Proof.
  induction vars as [|variable rest IH]; intros i s s' k label; simpl;
    [done|].
  intros H Hk.
  apply bind_inr in H as (c & Hc & H).
  apply bind_inr in H as (c1 & Hc1 & H).
  apply bind_inr in H as (shifted & Hshift & H).
  apply bind_inr in H as (log_variable & Hlog & H).
  destruct k as [|k]; simpl in Hk.
  - injection Hk as ->. simpl in Hc1. rewrite Hc in Hc1. injection Hc1 as <-.
    unfold getitem in Hc.
    destruct (columns (dataframe s) !! label) as [c0|] eqn:Hlookup; [|done].
    injection Hc as ->.
    destruct c as [xs|xs|xs]; try done. simpl in Hshift.
    injection Hshift as <-. simpl in Hlog. injection Hlog as <-.
    apply log_histograms_state in H as (_ & _ & added & ->). simpl.
    exists xs. split; [reflexivity|].
    rewrite !Nat.add_0_r. rewrite !elem_of_app, !list_elem_of_singleton.
    split; [left; left; by right|left; by right].
  - destruct (IH _ _ _ _ _ H Hk) as (xs & Hxs & H1 & H2). simpl in Hxs.
    exists xs.
    replace (i + S k + 1)%nat with (S i + k + 1)%nat by lia.
    replace (i + S k + 5)%nat with (S i + k + 5)%nat by lia.
    auto.
Qed.

Lemma sort_values_lookup df label df' l :
  sort_values argsort df label = inr df' ->
  exists key, columns df !! label = Some key /\
              columns df' !! l = reorder (argsort key) <$> columns df !! l.
Proof.
  unfold sort_values, getitem.
  destruct (columns df !! label) as [key|]; simpl; [|done].
  intros [= <-]. exists key. split; [done|]. simpl. apply lookup_fmap.
Qed.

(** The rest of the preprocessing returns on a frame that has a
    [closed_at] column, its three date columns as timestamps, and the
    categorical columns. *)
Lemma finish_preprocessing_total s :
  is_Some (columns (dataframe s) !! "closed_at") ->
  Forall (fun l => exists ts, columns (dataframe s) !! l = Some (Datetime ts))
         date_columns ->
  Forall (fun l => is_Some (columns (dataframe s) !! l))
         ["state_code"; "city"; "category_code"; "status"] ->
  exists s'', finish_preprocessing argsort strftime_Y s = inr s''.
Proof.
  intros [closed Hclosed] Hdates Hcats.
  apply Forall_cons in Hdates as [[founded Hfounded] Hdates].
  apply Forall_cons in Hdates as [[first Hfirst] Hdates].
  apply Forall_cons in Hdates as [[last Hlast] _].
  apply Forall_cons in Hcats as [[c1 Hc1] Hcats].
  apply Forall_cons in Hcats as [[c2 Hc2] Hcats].
  apply Forall_cons in Hcats as [[c3 Hc3] Hcats].
  apply Forall_cons in Hcats as [[c4 Hc4] _].
  unfold finish_preprocessing, sort_values, getitem.
  rewrite Hclosed. simpl.
  set (order := argsort closed).
  unfold drop, absent_labels, has_column. simpl.
  rewrite lookup_fmap, Hclosed. simpl.
  rewrite lookup_delete_ne, lookup_fmap, Hfounded by done. simpl.
  set (df2 := setitem _ "founded_year" _).
  destruct (encode_columns_spec categorical_columns df2 ∅)
    as (df' & maps & Hrun & _ & _ & Hframe).
  { apply (bool_decide_unpack _). vm_compute. reflexivity. }
  { unfold df2, categorical_columns. simpl.
    repeat apply Forall_cons_2; try apply Forall_nil_2.
    - rewrite lookup_insert_ne, lookup_delete_ne, lookup_fmap, Hc1 by done.
      simpl. eauto.
    - rewrite lookup_insert_ne, lookup_delete_ne, lookup_fmap, Hc2 by done.
      simpl. eauto.
    - rewrite lookup_insert_ne, lookup_delete_ne, lookup_fmap, Hc3 by done.
      simpl. eauto.
    - rewrite lookup_insert_eq. eauto.
    - rewrite lookup_insert_ne, lookup_delete_ne, lookup_fmap, Hc4 by done.
      simpl. eauto. }
  unfold categorical_encoder. rewrite Hrun. simpl.
  destruct (date_normalizer_total df' (take_rows order founded)
              (take_rows order first) (take_rows order last)) as [df3 Hdf3].
  - rewrite (proj1 (Hframe "founded_at" ltac:(unfold categorical_columns; set_solver))).
    unfold df2. simpl.
    by rewrite lookup_insert_ne, lookup_delete_ne, lookup_fmap, Hfounded by done.
  - rewrite (proj1 (Hframe "first_funding_at" ltac:(unfold categorical_columns; set_solver))).
    unfold df2. simpl.
    by rewrite lookup_insert_ne, lookup_delete_ne, lookup_fmap, Hfirst by done.
  - rewrite (proj1 (Hframe "last_funding_at" ltac:(unfold categorical_columns; set_solver))).
    unfold df2. simpl.
    by rewrite lookup_insert_ne, lookup_delete_ne, lookup_fmap, Hlast by done.
  - rewrite Hdf3. simpl. by eexists.
Qed.

(** C10. The loop that draws the log-transformed histograms returns (on
    numeric age columns) a state with the same table and the same files:
    the logarithms of the entries plus one only reach the figure.  Hence
    the rest of the preprocessing runs as it would without the loop, and
    the file written at its end holds, for each of the four age columns,
    the values the column had before the loop, in the row order set by the
    sort on [closed_at]. *)
Theorem log_histograms_keep_table (s : script_state) :
  (Forall (fun l => exists xs,
               columns (dataframe s) !! l = Some (Numeric xs)) variables ->
   exists s', log_histograms np_log 0 variables s = inr s') /\
  (forall s',
     log_histograms np_log 0 variables s = inr s' ->
     dataframe s' = dataframe s /\ files s' = files s /\
     (forall k label, variables !! k = Some label ->
        exists xs,
          columns (dataframe s) !! label = Some (Numeric xs) /\
          mkAxes (k + 5) ("log_" ++ label)
            (Numeric ((fun x : option Q => x ≫= np_log) <$>
                      ((fun x : option Q => (fun v => (v + 1)%Q) <$> x) <$> xs)))
            ∈ figure s') /\
     (is_Some (columns (dataframe s) !! "closed_at") ->
      Forall (fun l => exists ts,
                  columns (dataframe s) !! l = Some (Datetime ts))
             date_columns ->
      Forall (fun l => is_Some (columns (dataframe s) !! l))
             ["state_code"; "city"; "category_code"; "status"] ->
      exists s'', finish_preprocessing argsort strftime_Y s' = inr s'') /\
     forall s'',
       finish_preprocessing argsort strftime_Y s' = inr s'' ->
       exists closed out,
         columns (dataframe s) !! "closed_at" = Some closed /\
         files s'' !! "cleaned_data.csv" = Some out /\
         forall label c,
           label ∈ variables -> columns (dataframe s) !! label = Some c ->
           columns out !! label = Some (reorder (argsort closed) c)).
Proof.
  split; [apply log_histograms_total|].
  intros s' Hrun.
  pose proof (log_histograms_state _ _ _ _ Hrun) as (Hdf & Hfiles & _).
  split; [done|]. split; [done|]. split; [|split].
  { intros k label Hk.
    destruct (log_histograms_figure _ _ _ _ _ _ Hrun Hk)
      as (xs & Hxs & _ & Hlog).
    by exists xs. }
  { rewrite <- Hdf. apply finish_preprocessing_total. }
  intros s'' H. unfold finish_preprocessing in H. rewrite Hdf in H.
  apply bind_inr in H as (sorted & Hsort & H).
  apply bind_inr in H as (df1 & Hdrop & H).
  apply bind_inr in H as (founded & _ & H).
  apply bind_inr in H as (years & _ & H).
  apply bind_inr in H as ([df2 maps] & Henc & H).
  apply bind_inr in H as (df3 & Hdate & H).
  injection H as <-. simpl in Hdate.
  destruct (sort_values_lookup _ _ _ "closed_at" Hsort) as (closed & Hc & _).
  exists closed, df3. split; [done|].
  split; [by simpl; rewrite lookup_insert_eq|].
  intros label c Hl Hlc.
  assert (label = "age_first_funding_year" \/
          label = "age_last_funding_year" \/
          label = "age_first_milestone_year" \/
          label = "age_last_milestone_year") as Hcases
    by (unfold variables in Hl; set_solver).
  rewrite (date_normalizer_frame _ _ label Hdate);
    [|unfold date_columns; destruct Hcases as [->|[->|[->| ->]]]; set_solver
     |unfold columns_to_convert; simpl;
      destruct Hcases as [->|[->|[->| ->]]]; set_solver].
  unfold categorical_encoder in Henc.
  rewrite (encode_columns_frame _ _ _ _ _ label Henc);
    [|unfold categorical_columns;
      destruct Hcases as [->|[->|[->| ->]]]; set_solver].
  simpl. rewrite lookup_insert_ne
    by (destruct Hcases as [->|[->|[->| ->]]]; done).
  rewrite (drop_lookup _ _ _ label Hdrop), bool_decide_eq_false_2
    by (destruct Hcases as [->|[->|[->| ->]]]; set_solver).
  destruct (sort_values_lookup _ _ _ label Hsort) as (closed' & Hc' & ->).
  rewrite Hc in Hc'. injection Hc' as <-. by rewrite Hlc.
Qed.
End ScriptProperties.

(** ** The statements on sample data *)

Lemma wf_sample_frame : wf sample_frame.
Proof. apply (bool_decide_unpack _). vm_compute. reflexivity. Qed.

(** The scenarios of the specification. *)
Example sign_normalizer_example :
  result_column (apply_absolute_values sample_frame columns_to_abs)
    "age_first_funding_year" = Some (Numeric [Some 5%Q; Some 10%Q; Some 2%Q]).
Proof. vm_compute. reflexivity. Qed.

Example date_offsets_example :
  reference_date sample_frame = inr (day 1) /\
  result_column (date_normalizer sample_frame) "founded_at_days" =
    Some (Numeric [Some 9%Q; Some 0%Q; Some 19%Q]) /\
  result_column (date_normalizer sample_frame) "first_funding_at_days" =
    Some (Numeric [Some 19%Q; Some 14%Q; None]) /\
  result_column (date_normalizer sample_frame) "founded_at" = None.
Proof. repeat split; vm_compute; reflexivity. Qed.

Example status_mapping_example :
  create_mapping sample_frame "status" =
    inr [(Text "closed", 0%nat); (Text "acquired", 1%nat)] /\
  result_column (let* r := categorical_encoder sample_frame in ret (fst r))
    "status" =
    Some (Numeric [Some 0%Q; Some 1%Q; Some 1%Q]).
Proof. split; vm_compute; reflexivity. Qed.

Example imputer_example :
  result_column (imputer sample_frame) "age_first_milestone_year" =
    Some (Numeric [Some 1%Q; Some (-2 # 2)%Q; Some (-3)%Q]) /\
  result_column (imputer sample_frame) "closed_at" =
    Some (Object [None; Some "6/1/2012"; None]).
Proof. split; vm_compute; reflexivity. Qed.

Lemma date_normalizer_offsets_sample :
  exists df' ref,
    reference_date sample_frame = inr ref /\
    date_normalizer sample_frame = inr df' /\
    (forall label, label ∈ date_columns -> columns df' !! label = None).
Proof.
  destruct (date_normalizer_offsets sample_frame
              [day 10; day 1; day 20] [day 20; day 15; None]
              [day 30; day 15; day 41])
    as (df' & ref & Href & Hrun & _ & _ & _ & Hgone & _);
    [vm_compute; reflexivity..|].
  exists df', ref. split; [exact Href|]. split; [exact Hrun|exact Hgone].
Defined.

Lemma categorical_encoder_codes_sample :
  NoDup categorical_columns /\
  exists df' maps, categorical_encoder sample_frame = inr (df', maps).
Proof.
  assert (NoDup categorical_columns) as Hnd
    by (apply (bool_decide_unpack _); vm_compute; reflexivity).
  split; [exact Hnd|].
  destruct (categorical_encoder_codes sample_frame categorical_columns Hnd)
    as (df' & maps & Hrun & _).
  - repeat constructor; eexists; vm_compute; reflexivity.
  - exists df', maps. exact Hrun.
Defined.


Lemma absent_column_policy_sample :
  columns sample_frame !! "age_at_exit" = None /\
  impute_mean sample_frame "age_at_exit" = inl (KeyError ["age_at_exit"]) /\
  encode_columns sample_frame ∅
    ["state_code"; "city"; "age_at_exit"; "status"] =
    inl (KeyError ["age_at_exit"]) /\
  apply_absolute_values sample_frame ["age_at_exit"] =
    apply_absolute_values sample_frame [].
Proof.
  assert (columns sample_frame !! "age_at_exit" = None) as Hnone
    by (vm_compute; reflexivity).
  split; [exact Hnone|].
  destruct (absent_column_policy sample_frame "age_at_exit" Hnone)
    as (_ & Himp & _ & _ & _ & Henc & _ & _ & Habs & _).
  split; [exact Himp|]. split; [|exact (Habs [] [])].
  apply (Henc ∅ ["state_code"; "city"] ["status"]).
  repeat constructor; eexists; vm_compute; reflexivity.
Defined.

(** The imputer and the encoder of the script on frames that lack a
    column they reach after another. *)
Example later_absent_column_example :
  (let* df := drop sample_frame ["age_last_milestone_year"] in imputer df)
    = inl (KeyError ["age_last_milestone_year"]) /\
  (let* df := drop sample_frame ["city"] in categorical_encoder df)
    = inl (KeyError ["city"]).
Proof. split; vm_compute; reflexivity. Qed.


Lemma log_histograms_keep_table_sample :
  let np_log := fun _ : Q => @None Q in
  let argsort := fun c => rev (seq 0 (col_length c)) in
  let strftime_Y := fun _ : Z => "2007" in
  let s := {| dataframe := sample_frame; figure := []; files := ∅ |} in
  exists s' s'' closed out,
    log_histograms np_log 0 variables s = inr s' /\
    dataframe s' = sample_frame /\
    finish_preprocessing argsort strftime_Y s' = inr s'' /\
    files s'' !! "cleaned_data.csv" = Some out /\
    columns sample_frame !! "closed_at" = Some closed /\
    forall label c,
      label ∈ variables -> columns sample_frame !! label = Some c ->
      columns out !! label = Some (reorder (argsort closed) c).
Proof.
  intros np_log argsort strftime_Y s.
  destruct (log_histograms_keep_table np_log argsort strftime_Y s)
    as [Htotal Hkeep].
  destruct Htotal as [s' Hs'].
  { repeat constructor; eexists; vm_compute; reflexivity. }
  destruct (Hkeep s' Hs') as (Hdf & Hfiles & _ & Hfinish & Hexport).
  destruct Hfinish as [s'' Hs''].
  { eexists. vm_compute. reflexivity. }
  { repeat constructor; eexists; vm_compute; reflexivity. }
  { repeat constructor; eexists; vm_compute; reflexivity. }
  destruct (Hexport s'' Hs'') as (closed & out & Hclosed & Hout & Hcols).
  exists s', s'', closed, out. split; [exact Hs'|]. split; [exact Hdf|].
  split; [exact Hs''|]. split; [exact Hout|]. split; [exact Hclosed|].
  exact Hcols.
Defined.

Example export_example :
  let np_log := fun _ : Q => @None Q in
  let argsort := fun c => rev (seq 0 (col_length c)) in
  let strftime_Y := fun _ : Z => "2007" in
  let s := {| dataframe := sample_frame; figure := []; files := ∅ |} in
  result_column
    (let* s1 := log_histograms np_log 0 variables s in
     let* s2 := finish_preprocessing argsort strftime_Y s1 in
     match files s2 !! "cleaned_data.csv" with
     | Some out => ret out
     | None => raise (KeyError ["cleaned_data.csv"])
     end)
    "age_first_funding_year"
  = Some (Numeric [Some 2%Q; Some 10%Q; Some (-5)%Q]).
Proof. vm_compute. reflexivity. Qed.

(* ================================================================= *)
(** * Properties on machine numbers *)


(** ** Absolute values of binary64 and int64 entries *)





Lemma int64b_spec z :
  Machine.int64b z = true <-> (Machine.int64_min <= z < 2 ^ 63)%Z.
Proof. unfold Machine.int64b. rewrite andb_true_iff. lia. Qed.

Lemma abs_int64_min : Machine.abs_int64 Machine.int64_min = Machine.int64_min.
Proof. reflexivity. Qed.

Lemma abs_int64_abs z :
  (Machine.int64_min < z < 2 ^ 63)%Z -> Machine.abs_int64 z = Z.abs z.
Proof.
  unfold Machine.abs_int64, Machine.wrap64, Machine.int64_min. intros H.
  rewrite Z.mod_small; lia.
Qed.

Lemma abs_int64_cases z :
  Machine.int64b z = true ->
  (z = Machine.int64_min /\ Machine.abs_int64 z = Machine.int64_min) \/
  ((Machine.int64_min < z)%Z /\ Machine.abs_int64 z = Z.abs z).
Proof.
  rewrite int64b_spec. intros H.
  destruct (decide (z = Machine.int64_min)) as [->|Hne].
  - left. split; [done|apply abs_int64_min].
  - right. split; [lia|]. apply abs_int64_abs. lia.
Qed.















(** On the numbers the two tables share, the absolute value of the exact
    table is the one the machine takes: on every binary64 number, and on
    every int64 number but [-2^63]. *)
Lemma fabs_exact x q :
  Machine.to_Q x = Some q ->
  exists q', Machine.to_Q (Machine.fabs x) = Some q' /\ (q' == Qabs q)%Q.
Proof.
  destruct x as [s|s| |s m e]; simpl; try done; intros [= <-].
  - by exists 0%Q.
  - eexists. split; [done|]. rewrite !Qred_correct, Qabs_Qmult.
    assert (Qabs (inject_Z (if s then Z.neg m else Z.pos m)) =
            inject_Z (Z.pos m)) as -> by (by destruct s).
    apply Qmult_comp; [done|]. symmetry. apply Qabs_pos.
    destruct (Z.leb_spec 0 e) as [He|He].
    + replace 0%Q with (inject_Z 0) by done. rewrite <- Zle_Qle.
      apply Z.pow_nonneg. lia.
    + apply Qlt_le_weak, Qinv_lt_0_compat.
      replace 0%Q with (inject_Z 0) by done. rewrite <- Zlt_Qlt.
      apply Z.pow_pos_nonneg; lia.
Qed.

Lemma abs_int64_exact z :
  Machine.int64b z = true -> z <> Machine.int64_min ->
  inject_Z (Machine.abs_int64 z) = Qabs (inject_Z z).
Proof.
  intros Hz Hne. destruct (abs_int64_cases z Hz) as [[? _]|[_ ->]]; done.
Qed.


(** ** Comparisons with a zero standard deviation *)

Lemma fmul_zero_r t s :
  (exists r, Machine.fmul t (S754_zero s) = S754_zero r) \/
  Machine.fmul t (S754_zero s) = S754_nan.
Proof. destruct t; simpl; eauto. Qed.

Lemma flt_zero_l r y : Machine.flt (S754_zero r) y = Machine.flt Machine.zero y.
Proof. by destruct y. Qed.

Lemma flt_nan_l y : Machine.flt S754_nan y = false.
Proof. done. Qed.

Lemma fsub_feq v m :
  Machine.feq v m = true ->
  Machine.flt Machine.zero (Machine.fabs (Machine.fsub v m)) = false.
Proof.
  destruct v as [sv|sv| |sv mv ev], m as [sm|sm| |sm mm em];
    try destruct sv; try destruct sm; try done;
    unfold Machine.feq, SFeqb; simpl;
    (destruct (Z.compare_spec ev em) as [->| |]; try done);
    pose proof (Pos.compare_eq mv mm) as Hm; unfold Pos.compare in Hm;
    (destruct (Pos.compare_cont Eq mv mm); try done);
    rewrite Hm by done; intros _;
    unfold Machine.fsub, SFsub; by rewrite Z.sub_diag.
Qed.

(** ** Outlier flagger *)

Lemma lor_b2z a b : Z.lor (Z.b2z a) (Z.b2z b) = Z.b2z (a || b).
Proof. by destruct a, b. Qed.

Lemma zip_with_lor (flags bs : list bool) :
  zip_with (fun z b => Z.lor z (Z.b2z b)) (Z.b2z <$> flags) bs =
  Z.b2z <$> zip_with orb flags bs.
Proof.
  revert bs. induction flags as [|a flags IH]; intros [|b bs]; simpl; try done.
  f_equal; [apply lor_b2z | apply IH].
Qed.

Lemma machine_setitem_setitem df label a b :
  Machine.setitem (Machine.setitem df label a) label b =
  Machine.setitem df label b.
Proof. unfold Machine.setitem. simpl. by rewrite insert_insert_eq. Qed.

Lemma lookup_b2z (flags : list bool) (i : nat) :
  (Z.b2z <$> flags) !! i = Some 1%Z <-> flags !! i = Some true.
Proof.
  rewrite list_lookup_fmap. destruct (flags !! i) as [[]|]; simpl; split;
    try done; intros [= ?]; done.
Qed.

Section MachineFlagger.
Variable lib : Machine.library.

Lemma machine_is_outlier_series_numeric c t :
  Machine.numeric c = true ->
  Machine.is_outlier_series lib c t = inr (Machine.outlier_series lib c t).
Proof. by destruct c. Qed.

Lemma machine_length_outlier_series c t :
  Machine.numeric c = true ->
  length (Machine.outlier_series lib c t) = Machine.col_length c.
Proof.
  unfold Machine.outlier_series. rewrite length_fmap.
  destruct c; simpl; try done. intros _. by rewrite length_fmap.
Qed.

(** The loop of the flagger, started with the indicator holding [flags],
    folds [flag_step] over the monitored labels. *)
Lemma machine_flag_columns_spec df t cols :
  "is_outlier" ∉ cols -> forall flags,
  Machine.flag_columns lib
    (Machine.setitem df "is_outlier" (Machine.flag_column flags)) cols t =
  if forallb (Machine.flaggable df) cols
  then inr (Machine.setitem df "is_outlier"
              (Machine.flag_column
                 (fold_left (Machine.flag_step lib df t) cols flags)))
  else inl TypeError.
Proof.
  induction cols as [|c rest IH]; intros Hio flags; simpl; [done|].
  apply not_elem_of_cons in Hio as [Hc Hrest].
  unfold Machine.has_column, Machine.getitem, Machine.flaggable at 1,
    Machine.flag_step at 2.
  simpl. rewrite lookup_insert_ne by done.
  destruct (Machine.columns df !! c) as [col|] eqn:Hcol; simpl.
  - destruct col as [xs|zs|xs|ts]; simpl; try done;
      rewrite lookup_insert_eq; simpl;
      rewrite zip_with_lor, machine_setitem_setitem; by apply IH.
  - by apply IH.
Qed.

Lemma machine_identify_outliers_spec df cols t :
  "is_outlier" ∉ cols ->
  Machine.identify_outliers lib df cols t =
  if forallb (Machine.flaggable df) cols
  then inr (Machine.setitem df "is_outlier"
              (Machine.flag_column (Machine.outlier_flags lib df cols t)))
  else inl TypeError.
Proof.
  intros Hio. unfold Machine.identify_outliers, Machine.outlier_flags.
  rewrite <- machine_flag_columns_spec by done.
  unfold Machine.flag_column. by rewrite fmap_replicate.
Qed.

Lemma machine_numeric_flaggable df label :
  Machine.numeric_or_absent df label = true ->
  Machine.flaggable df label = true.
Proof.
  unfold Machine.numeric_or_absent, Machine.flaggable.
  by destruct (Machine.columns df !! label) as [[]|].
Qed.

Lemma machine_flag_step_lookup df t flags label i :
  Machine.wf df -> length flags = Machine.nrows df ->
  Machine.numeric_or_absent df label = true ->
  length (Machine.flag_step lib df t flags label) = Machine.nrows df /\
  (Machine.flag_step lib df t flags label !! i = Some true <->
   flags !! i = Some true \/ Machine.exceeds lib df label t i).
Proof.
  intros Hwf Hlen Hnum.
  unfold Machine.flag_step, Machine.exceeds, Machine.numeric_or_absent in *.
  destruct (Machine.columns df !! label) as [c|] eqn:Hc.
  - rewrite (machine_is_outlier_series_numeric c t Hnum).
    destruct (Hwf _ _ Hc) as [Hl _].
    assert (length (Machine.outlier_series lib c t) = length flags) as Hlo
      by (rewrite machine_length_outlier_series by done; lia).
    split; [rewrite length_zip_with; lia|].
    rewrite zip_with_orb_lookup by done.
    unfold Machine.outlier_series at 1. rewrite list_lookup_fmap.
    split; (intros [?|H]; [by left|right]).
    + destruct (Machine.floats c !! i) as [v|] eqn:Hv; [|done].
      simpl in H. injection H as H. by exists c, v.
    + destruct H as (c' & v & [= <-] & _ & -> & H). simpl. by rewrite H.
  - split; [done|]. split; [by left|]. intros [?|(?&?&?&?)]; done.
Qed.

Lemma machine_fold_flag_step_lookup df t cols : forall flags i,
  Machine.wf df -> length flags = Machine.nrows df ->
  forallb (Machine.numeric_or_absent df) cols = true ->
  length (fold_left (Machine.flag_step lib df t) cols flags) =
    Machine.nrows df /\
  (fold_left (Machine.flag_step lib df t) cols flags !! i = Some true <->
   flags !! i = Some true \/
   exists label, label ∈ cols /\ Machine.exceeds lib df label t i).
Proof.
  induction cols as [|c rest IH]; intros flags i Hwf Hlen Hnum; simpl.
  - split; [done|]. split; [by left|].
    intros [?|(?&H&?)]; [done|]. by apply elem_of_nil in H.
  - simpl in Hnum. apply andb_true_iff in Hnum as [Hc Hrest].
    destruct (machine_flag_step_lookup df t flags c i Hwf Hlen Hc)
      as [Hl Hstep].
    destruct (IH (Machine.flag_step lib df t flags c) i Hwf Hl Hrest)
      as [Hl' Hfold].
    split; [done|]. rewrite Hfold, Hstep. split.
    + intros [[?|?]|(l&?&?)]; [by left| |]; right.
      * exists c. split; [left|done].
      * exists l. split; [by right|done].
    + intros [?|(l&[->|?]%elem_of_cons&?)]; [by left; left|by left; right|].
      right. by exists l.
Qed.

Lemma machine_length_fold_flag_step df t cols flags :
  Machine.wf df -> length flags = Machine.nrows df ->
  forallb (Machine.numeric_or_absent df) cols = true ->
  length (fold_left (Machine.flag_step lib df t) cols flags) = Machine.nrows df.
Proof.
  intros Hwf Hlen Hnum.
  exact (proj1 (machine_fold_flag_step_lookup df t cols flags 0%nat
                  Hwf Hlen Hnum)).
Qed.

(** C2 (as amended).  When the monitored labels do not name the indicator
    column and every monitored column present is float64 or int64, the
    flagger returns the input frame with one added indicator column holding
    0 or 1 on every row, and row [i] holds 1 exactly when, for some
    monitored column, the comparison |v - mean| > threshold * std holds at
    row [i] as the machine computes it: with the mean and the standard
    deviation the library returns for the column, and the difference, the
    absolute value and the product rounded to binary64. *)
Theorem identify_outliers_flags (df : Machine.DataFrame) (cols : list string)
    (t : Machine.float64) :
  Machine.wf df ->
  "is_outlier" ∉ cols ->
  forallb (Machine.numeric_or_absent df) cols = true ->
  exists flags : list bool,
    Machine.identify_outliers lib df cols t =
      inr (Machine.setitem df "is_outlier" (Machine.flag_column flags)) /\
    length flags = Machine.nrows df /\
    forall i,
      (Z.b2z <$> flags) !! i = Some 1%Z <->
      exists label, label ∈ cols /\ Machine.exceeds lib df label t i.
Proof.
  intros Hwf Hio Hnum. exists (Machine.outlier_flags lib df cols t).
  split; [|split].
  - rewrite machine_identify_outliers_spec by done.
    replace (forallb (Machine.flaggable df) cols) with true; [done|].
    symmetry. apply forallb_forall. intros l Hl.
    rewrite forallb_forall in Hnum. by apply machine_numeric_flaggable, Hnum.
  - apply machine_length_fold_flag_step; [done|apply length_replicate|done].
  - intros i. rewrite lookup_b2z. unfold Machine.outlier_flags.
    destruct (machine_fold_flag_step_lookup df t cols
                (replicate (Machine.nrows df) false) i Hwf
                (length_replicate _ _) Hnum) as [_ ->].
    split.
    + intros [H|H]; [|done]. apply lookup_replicate in H as [? _]. done.
    + intros H. by right.
Qed.

Lemma machine_outlier_series_zero_std c t s i v :
  Machine.series_std lib c = S754_zero s ->
  Machine.floats c !! i = Some v ->
  Machine.outlier_series lib c t !! i =
    Some (negb (Machine.is_nan (Machine.fmul t (S754_zero s))) &&
          Machine.flt Machine.zero
            (Machine.fabs (Machine.fsub v (Machine.series_mean lib c)))).
Proof.
  intros Hs Hv. unfold Machine.outlier_series.
  rewrite list_lookup_fmap, Hv, Hs. simpl. f_equal.
  destruct (fmul_zero_r t s) as [[r ->]| ->].
  - by rewrite flt_zero_l.
  - done.
Qed.

Lemma machine_flag_step_nothing df t flags label c :
  Machine.wf df -> length flags = Machine.nrows df ->
  Machine.columns df !! label = Some c -> Machine.numeric c = true ->
  (forall i, Machine.outlier_series lib c t !! i <> Some true) ->
  Machine.flag_step lib df t flags label = flags.
Proof.
  intros Hwf Hlen Hc Hn Hno. unfold Machine.flag_step. rewrite Hc.
  rewrite (machine_is_outlier_series_numeric c t Hn).
  rewrite (all_false_replicate _ Hno). apply zip_with_orb_false.
  rewrite machine_length_outlier_series by done.
  destruct (Hwf _ _ Hc) as [Hl _]. lia.
Qed.

(** C6 (as amended).  A monitored float64 or int64 column whose standard
    deviation is computed as zero does not make the flagger raise, and
    nothing is divided by it.  Its comparison series is true exactly on the
    rows whose computed difference from the computed mean is not zero
    (for a threshold whose product with zero is a number): a row whose
    value equals the computed mean is not flagged on account of the column,
    whatever the threshold, and when every value equals the computed mean,
    monitoring the column changes nothing in the result. *)
Theorem zero_std_column_flags_rows_off_the_mean (df : Machine.DataFrame)
    (pre post : list string) (label : string) (c : Machine.column)
    (t : Machine.float64) (s : bool) :
  Machine.wf df ->
  forallb (Machine.numeric_or_absent df) (pre ++ post) = true ->
  "is_outlier" ∉ pre ++ label :: post ->
  Machine.columns df !! label = Some c -> Machine.numeric c = true ->
  Machine.series_std lib c = S754_zero s ->
  Machine.is_outlier_series lib c t = inr (Machine.outlier_series lib c t) /\
  (exists r,
     Machine.identify_outliers lib df (pre ++ label :: post) t = inr r) /\
  (forall i v, Machine.floats c !! i = Some v ->
     Machine.outlier_series lib c t !! i =
       Some (negb (Machine.is_nan (Machine.fmul t (S754_zero s))) &&
             Machine.flt Machine.zero
               (Machine.fabs (Machine.fsub v (Machine.series_mean lib c))))) /\
  (forall i v, Machine.floats c !! i = Some v ->
     Machine.feq v (Machine.series_mean lib c) = true ->
     Machine.outlier_series lib c t !! i = Some false) /\
  ((forall v, v ∈ Machine.floats c ->
      Machine.feq v (Machine.series_mean lib c) = true) ->
   Machine.identify_outliers lib df (pre ++ label :: post) t =
   Machine.identify_outliers lib df (pre ++ post) t).
Proof.
  intros Hwf Hnum Hio Hc Hn Hs.
  assert (forall i v, Machine.floats c !! i = Some v ->
            Machine.feq v (Machine.series_mean lib c) = true ->
            Machine.outlier_series lib c t !! i = Some false) as Hmean.
  { intros i v Hv Heq.
    rewrite (machine_outlier_series_zero_std c t s i v Hs Hv).
    rewrite (fsub_feq _ _ Heq). by rewrite andb_false_r. }
  assert ("is_outlier" ∉ pre ++ post) as Hio'.
  { intros H. apply Hio. apply elem_of_app in H as [?|?]; apply elem_of_app;
      [by left|right; by right]. }
  assert (Machine.flaggable df label = true) as Hfl.
  { apply machine_numeric_flaggable. unfold Machine.numeric_or_absent.
    by rewrite Hc. }
  assert (forallb (Machine.flaggable df) (pre ++ post) = true) as Hfl'.
  { apply forallb_forall. intros l Hl. rewrite forallb_forall in Hnum.
    by apply machine_numeric_flaggable, Hnum. }
  assert (forallb (Machine.flaggable df) (pre ++ label :: post) = true) as Hall.
  { rewrite forallb_app in *. simpl. rewrite Hfl.
    apply andb_true_iff in Hfl' as [-> ->]. done. }
  split; [by apply machine_is_outlier_series_numeric|].
  split; [|split; [|split]].
  - rewrite machine_identify_outliers_spec, Hall by done. eauto.
  - intros i v Hv. by apply machine_outlier_series_zero_std.
  - exact Hmean.
  - intros Hconst.
    rewrite !machine_identify_outliers_spec, Hall, Hfl' by done.
    do 3 f_equal. unfold Machine.outlier_flags.
    rewrite !fold_left_app. cbn [fold_left]. f_equal.
    apply (machine_flag_step_nothing df t _ label c); try done.
    + apply machine_length_fold_flag_step; [done|apply length_replicate|].
      rewrite forallb_app in Hnum. by apply andb_true_iff in Hnum as [-> _].
    + intros i Hi.
      assert (is_Some (Machine.floats c !! i)) as [v Hv].
      { apply lookup_lt_is_Some. apply lookup_lt_Some in Hi.
        unfold Machine.outlier_series in Hi. by rewrite length_fmap in Hi. }
      rewrite (Hmean i v Hv) in Hi; [done|].
      apply Hconst. by eapply list_elem_of_lookup_2.
Qed.

End MachineFlagger.

(** ** The statements on machine numbers, on sample data *)

Lemma machine_wf_sample_frame : Machine.wf Machine.sample_frame.
Proof. apply (bool_decide_unpack _). vm_compute. reflexivity. Qed.

Example machine_sign_normalizer_example :
  (let* df' := Machine.apply_absolute_values Machine.sample_frame
                 columns_to_abs in
   Machine.getitem df' "age_last_milestone_year") =
  inr (Machine.Float64 [Machine.nan; Machine.of_int 6; Machine.zero]).
Proof. vm_compute. reflexivity. Qed.



Lemma identify_outliers_flags_sample :
  Machine.wf Machine.sample_frame /\
  exists flags : list bool,
    Machine.identify_outliers Machine.sample_library Machine.sample_frame
      columns_to_abs Machine.default_threshold =
      inr (Machine.setitem Machine.sample_frame "is_outlier"
             (Machine.flag_column flags)) /\
    length flags = Machine.nrows Machine.sample_frame.
Proof.
  split; [exact machine_wf_sample_frame|].
  destruct (identify_outliers_flags Machine.sample_library
              Machine.sample_frame columns_to_abs Machine.default_threshold
              machine_wf_sample_frame)
    as (flags & Hrun & Hlen & _).
  - apply (bool_decide_unpack _). vm_compute. reflexivity.
  - vm_compute. reflexivity.
  - exists flags. split; [exact Hrun|exact Hlen].
Defined.

Example machine_flagger_example :
  (let* df' := Machine.identify_outliers Machine.sample_library
                 Machine.sample_frame columns_to_abs (Machine.of_int 1) in
   Machine.getitem df' "is_outlier") = inr (Machine.Int64 [0; 1; 0]%Z) /\
  Machine.identify_outliers Machine.sample_library Machine.sample_frame
    ["status"] Machine.default_threshold = inl TypeError.
Proof. split; vm_compute; reflexivity. Qed.

(** The flagged rows are not those of the rule read on exact numbers.
    A monitored indicator column is read after the flagger has reset it:
    the last row of [0, 0, 0, 0, 100] exceeds one standard deviation, and
    is not flagged.  And the mean of the column [0.1, 0.1, 0.1] is computed
    as the next binary64 number above 0.1: no row of this constant column
    deviates from its mean, and every row is flagged at threshold 0.5. *)
Lemma flagged_rows_depart_from_the_rule :
  (Machine.exceeds Machine.sample_library Machine.stale_indicator_frame
     "is_outlier" (Machine.of_int 1) 4 /\
   Machine.identify_outliers Machine.sample_library
     Machine.stale_indicator_frame ["is_outlier"] (Machine.of_int 1) =
   inr (Machine.setitem Machine.stale_indicator_frame "is_outlier"
          (Machine.Int64 [0; 0; 0; 0; 0]%Z))) /\
  (exists q,
     Machine.to_Q Machine.tenth = Some q /\
     Machine.to_Q Machine.half = Some (1 # 2)%Q /\
     (forall i, ~ deviates (constant_frame q) "value" (1 # 2) i) /\
     Machine.identify_outliers Machine.sample_library
       (Machine.constant_frame Machine.tenth) ["value"] Machine.half =
     inr (Machine.setitem (Machine.constant_frame Machine.tenth) "is_outlier"
            (Machine.Int64 [1; 1; 1]%Z))).
Proof.
  split.
  - split; [|vm_compute; reflexivity].
    exists (Machine.Int64 [0; 0; 0; 0; 100]%Z), (Machine.of_int 100).
    repeat split; vm_compute; reflexivity.
  - eexists. split; [vm_compute; reflexivity|].
    split; [vm_compute; reflexivity|]. split; [|vm_compute; reflexivity].
    intros i H. apply flagged_by_deviates in H as (xs & Hc & H).
    vm_compute in Hc. injection Hc as <-.
    destruct i as [|[|[|i]]]; vm_compute in H; done.
Qed.

(** A constant column whose mean is computed one unit in the last place
    off its value: the squared deviations underflow to zero, the standard
    deviation is computed as zero, and every row is flagged. *)
Lemma constant_column_flagged_by_rounding :
  Machine.wf (Machine.constant_frame Machine.tiny) /\
  Machine.column_std
    (Machine.Float64 [Machine.tiny; Machine.tiny; Machine.tiny])
    = S754_zero false /\
  Machine.feq Machine.tiny
    (Machine.column_mean
       (Machine.Float64 [Machine.tiny; Machine.tiny; Machine.tiny]))
    = false /\
  Machine.identify_outliers Machine.sample_library
    (Machine.constant_frame Machine.tiny) ["value"]
    Machine.default_threshold =
  inr (Machine.setitem (Machine.constant_frame Machine.tiny) "is_outlier"
         (Machine.Int64 [1; 1; 1]%Z)).
Proof.
  split; [apply (bool_decide_unpack _); vm_compute; reflexivity|].
  repeat split; vm_compute; reflexivity.
Qed.

Lemma zero_std_column_flags_rows_off_the_mean_sample :
  Machine.wf Machine.sample_frame /\
  Machine.column_std (Machine.Int64 [7; 7; 7]%Z) = S754_zero false /\
  Machine.identify_outliers Machine.sample_library Machine.sample_frame
    (["age_first_funding_year"] ++
     "relationships" :: ["age_last_funding_year"])
    Machine.default_threshold =
  Machine.identify_outliers Machine.sample_library Machine.sample_frame
    (["age_first_funding_year"] ++ ["age_last_funding_year"])
    Machine.default_threshold.
Proof.
  assert (Machine.column_std (Machine.Int64 [7; 7; 7]%Z) = S754_zero false)
    as Hstd by (vm_compute; reflexivity).
  split; [exact machine_wf_sample_frame|]. split; [exact Hstd|].
  refine (proj2 (proj2 (proj2 (proj2
    (zero_std_column_flags_rows_off_the_mean Machine.sample_library
       Machine.sample_frame
       ["age_first_funding_year"] ["age_last_funding_year"] "relationships"
       (Machine.Int64 [7; 7; 7]%Z) Machine.default_threshold false
       machine_wf_sample_frame _ _ _ _ Hstd)))) _).
  - vm_compute. reflexivity.
  - apply (bool_decide_unpack _). vm_compute. reflexivity.
  - vm_compute. reflexivity.
  - vm_compute. reflexivity.
  - intros v Hv. apply list_elem_of_In in Hv. vm_compute in Hv.
    destruct Hv as [<-|[<-|[<-|[]]]]; vm_compute; reflexivity.
Defined.

(* ================================================================= *)
(** * Further properties of the script *)

(** ** Column pruner *)

Lemma absent_labels_nil df labels :
  absent_labels df labels = [] <->
  Forall (fun l => is_Some (columns df !! l)) labels.
Proof.
  rewrite Forall_forall. split.
  - intros H l Hl. destruct (columns df !! l) eqn:Hlookup; [eauto|].
    assert (l ∈ absent_labels df labels) as Hin
      by (by apply elem_of_absent_labels).
    rewrite H in Hin. by apply elem_of_nil in Hin.
  - intros H. destruct (absent_labels df labels) as [|l rest] eqn:Habs;
      [done|].
    assert (l ∈ absent_labels df labels) as Hin by (rewrite Habs; left).
    apply elem_of_absent_labels in Hin as [Hl Hnone].
    destruct (H l Hl) as [c Hc]. congruence.
Qed.

Lemma size_foldr_delete (m : gmap string column) labels :
  NoDup labels ->
  Forall (fun l => is_Some (m !! l)) labels ->
  (size (foldr delete m labels) + length labels = size m)%nat.
Proof.
  induction labels as [|x labels IH]; intros Hnd Hall; simpl; [lia|].
  apply NoDup_cons in Hnd as [Hx Hnd].
  apply Forall_cons in Hall as [Hpresent Hall].
  specialize (IH Hnd Hall).
  assert (is_Some (foldr delete m labels !! x)) as Hstill.
  { clear IH Hnd Hall. induction labels as [|y labels IH]; simpl; [done|].
    apply not_elem_of_cons in Hx as [Hxy Hx].
    rewrite lookup_delete_ne by done. by apply IH. }
  rewrite map_size_delete_Some by done.
  assert (0 < size (foldr delete m labels))%nat.
  { destruct Hstill as [c Hc]. destruct (size (foldr delete m labels)) eqn:Hs;
      [|lia]. apply map_size_empty_iff in Hs. rewrite Hs in Hc. done. }
  lia.
Qed.

(** X1. [drop] returns exactly when every label names a column; it then
    removes the listed columns and nothing else, keeps the rows, and for
    distinct labels the frame has that many columns fewer.  Otherwise it
    raises a [KeyError] listing exactly the labels that name no column. *)
Theorem drop_removes_exactly (df : DataFrame) (labels : list string) :
  (Forall (fun l => is_Some (columns df !! l)) labels ->
   exists df',
     drop df labels = inr df' /\
     nrows df' = nrows df /\
     (forall l, columns df' !! l =
                if bool_decide (l ∈ labels) then None else columns df !! l) /\
     (NoDup labels ->
      (size (columns df') + length labels = size (columns df))%nat)) /\
  (~ Forall (fun l => is_Some (columns df !! l)) labels ->
   exists missing,
     drop df labels = inl (KeyError missing) /\
     missing <> [] /\
     forall l, l ∈ missing <-> l ∈ labels /\ columns df !! l = None).
Proof.
  split.
  - intros Hall. pose proof (proj2 (absent_labels_nil df labels) Hall) as Habs.
    eexists. split; [unfold drop; by rewrite Habs|].
    split; [done|]. split.
    + intros l. eapply drop_lookup. unfold drop. by rewrite Habs.
    + intros Hnd. simpl. by apply size_foldr_delete.
  - intros Hnot. exists (absent_labels df labels).
    assert (absent_labels df labels <> []) as Hne
      by (intros H; by apply Hnot, absent_labels_nil).
    split; [|split; [done|apply elem_of_absent_labels]].
    unfold drop. by destruct (absent_labels df labels).
Qed.

(** ** Missing-value imputer *)

Lemma setitem_same df label c :
  columns df !! label = Some c -> setitem df label c = df.
Proof.
  intros H. apply df_eq; [done|]. intros l. simpl.
  destruct (decide (label = l)) as [->|Hne].
  - by rewrite lookup_insert_eq.
  - by rewrite lookup_insert_ne.
Qed.

Lemma numeric_values_inr c xs : numeric_values c = inr xs -> c = Numeric xs.
Proof. destruct c; simpl; unfold ret, raise; congruence. Qed.

Lemma impute_mean_inr df label df' :
  impute_mean df label = inr df' ->
  exists xs, columns df !! label = Some (Numeric xs) /\
             df' = setitem df label (Numeric (fillna xs (mean xs))).
Proof.
  unfold impute_mean, getitem. intros H.
  destruct (columns df !! label) as [c|]; simpl in H; [|done].
  apply bind_inr in H as (xs & Hxs & H). apply numeric_values_inr in Hxs.
  injection H as <-. subst c. by exists xs.
Qed.

(** The imputer returns exactly on numeric milestone-age columns. *)
Lemma imputer_inr df df' :
  imputer df = inr df' ->
  exists first last,
    columns df !! "age_first_milestone_year" = Some (Numeric first) /\
    columns df !! "age_last_milestone_year" = Some (Numeric last) /\
    df' = setitem (setitem df "age_first_milestone_year"
                     (Numeric (fillna first (mean first))))
            "age_last_milestone_year" (Numeric (fillna last (mean last))).
Proof.
  unfold imputer. intros H. apply bind_inr in H as (df1 & H1 & H2).
  apply impute_mean_inr in H1 as (first & Hfirst & ->).
  apply impute_mean_inr in H2 as (last & Hlast & ->).
  simpl in Hlast. rewrite lookup_insert_ne in Hlast by done.
  by exists first, last.
Qed.

Lemma fillna_nothing_missing xs value :
  Forall is_Some xs -> fillna xs value = xs.
Proof.
  intros H. unfold fillna. induction H as [|x xs [v ->] _ IH]; simpl; [done|].
  by f_equal.
Qed.

Lemma fillna_None xs : fillna xs None = xs.
Proof.
  unfold fillna. induction xs as [|[v|] xs IH]; simpl; by f_equal.
Qed.

Lemma fillna_idem xs : fillna (fillna xs (mean xs)) (mean (fillna xs (mean xs)))
                       = fillna xs (mean xs).
Proof.
  destruct (mean xs) as [m|] eqn:Hm.
  - apply fillna_nothing_missing, fillna_no_missing.
  - rewrite !fillna_None, Hm. apply fillna_None.
Qed.

(** X2. Running the imputer on its own result changes nothing. *)
Theorem imputer_idempotent (df df' : DataFrame) :
  imputer df = inr df' -> imputer df' = inr df'.
Proof.
  intros H. apply imputer_inr in H as (first & last & Hfirst & Hlast & ->).
  unfold imputer.
  rewrite (impute_mean_numeric _ _ (fillna first (mean first)))
    by (simpl; rewrite lookup_insert_ne by done; apply lookup_insert_eq).
  simpl.
  rewrite (impute_mean_numeric _ _ (fillna last (mean last)))
    by (simpl; rewrite lookup_insert_ne by done; apply lookup_insert_eq).
  f_equal. rewrite !fillna_idem.
  rewrite (setitem_same _ "age_first_milestone_year")
    by (simpl; rewrite lookup_insert_ne by done; apply lookup_insert_eq).
  apply setitem_same. simpl. apply lookup_insert_eq.
Qed.

(** X4. The script fills the milestone ages before it takes absolute
    values: after both stages an entry that was present holds its absolute
    value, and an entry that was missing holds the absolute value of the
    mean of the column as loaded.  The statement is made for columns
    without the entry [-2^63], which [np.abs] leaves as it is in an int64
    column. *)
Theorem imputer_then_absolute_values (df : DataFrame) :
  Forall (fun l => exists xs, columns df !! l = Some (Numeric xs))
         columns_to_abs ->
  (forall label xs, label ∈ imputed_columns ->
     columns df !! label = Some (Numeric xs) -> no_int64_min xs = true) ->
  exists df1 df2,
    imputer df = inr df1 /\
    apply_absolute_values df1 columns_to_abs = inr df2 /\
    forall label xs,
      label ∈ imputed_columns -> columns df !! label = Some (Numeric xs) ->
      exists ys,
        columns df2 !! label = Some (Numeric ys) /\
        length ys = length xs /\
        (forall i v, xs !! i = Some (Some v) -> ys !! i = Some (Some (Qabs v))) /\
        (forall i, xs !! i = Some None -> ys !! i = Some (Qabs <$> mean xs)).
Proof.
  intros Hall _.
  apply Forall_cons in Hall as [[ff Hff] Hall].
  apply Forall_cons in Hall as [[lf Hlf] Hall].
  apply Forall_cons in Hall as [[fm Hfm] Hall].
  apply Forall_cons in Hall as [[lm Hlm] _].
  eexists _, _. split.
  { unfold imputer. rewrite (impute_mean_numeric _ _ _ Hfm). simpl.
    rewrite (impute_mean_numeric _ _ lm)
      by (simpl; by rewrite lookup_insert_ne).
    done. }
  split.
  { rewrite apply_absolute_values_spec.
    rewrite (forallb_eq _ (numeric_or_absent df)).
    - unfold columns_to_abs, numeric_or_absent. simpl.
      by rewrite Hff, Hlf, Hfm, Hlm.
    - intros l. unfold numeric_or_absent. simpl.
      destruct (decide ("age_last_milestone_year" = l)) as [<-|?];
        [by rewrite lookup_insert_eq, Hlm|].
      rewrite lookup_insert_ne by done.
      destruct (decide ("age_first_milestone_year" = l)) as [<-|?];
        [by rewrite lookup_insert_eq, Hfm|].
      by rewrite lookup_insert_ne. }
  intros label xs Hl Hxs.
  exists (abs_cell <$> fillna xs (mean xs)).
  assert (label = "age_first_milestone_year" \/
          label = "age_last_milestone_year") as Hcases
    by (unfold imputed_columns in Hl; set_solver).
  split.
  { rewrite abs_frame_lookup.
    rewrite bool_decide_eq_true_2
      by (unfold columns_to_abs; destruct Hcases as [-> | ->]; set_solver).
    destruct Hcases as [-> | ->]; simpl.
    - rewrite lookup_insert_ne, lookup_insert_eq by done.
      rewrite Hfm in Hxs. by injection Hxs as ->.
    - rewrite lookup_insert_eq. rewrite Hlm in Hxs. by injection Hxs as ->. }
  split; [by unfold fillna; rewrite !length_fmap|]. split.
  - intros i v Hi.
    by rewrite list_lookup_fmap, (fillna_lookup_present _ _ _ _ Hi).
  - intros i Hi.
    by rewrite list_lookup_fmap, (fillna_lookup_missing _ _ _ Hi).
Qed.

(** ** The report of missing values *)




(** ** Negative-value indicators *)

Lemma negative_flag_lookup (xs : list (option Q)) (i : nat) :
  (negative_flag <$> xs) !! i = Some (Some 1%Q) <->
  exists v, xs !! i = Some (Some v) /\ (v < 0)%Q.
Proof.
  rewrite list_lookup_fmap. unfold negative_flag.
  destruct (xs !! i) as [[v|]|]; simpl.
  - destruct (Qltb v 0) eqn:Hv.
    + apply Qltb_lt in Hv. split; [eauto|done].
    + split; [done|]. intros (w & [= <-] & Hw). apply Qltb_lt in Hw.
      congruence.
  - split; [done|]. by intros (w & ? & _).
  - split; [done|]. by intros (w & ? & _).
Qed.

Lemma negative_flag_nonneg xs :
  Forall nonneg_cell xs -> Forall (fun x => x = Some 0%Q) (negative_flag <$> xs).
Proof.
  intros H. apply Forall_fmap. eapply Forall_impl; [exact H|].
  intros [v|] Hv; simpl; [|done]. unfold negative_flag.
  destruct (Qltb v 0) eqn:Hlt; [|done].
  apply Qltb_lt in Hlt. specialize (Hv v eq_refl). Lqa.lra.
Qed.

Lemma add_negative_value_columns_total cols : forall df,
  Forall (fun l => exists xs, columns df !! l = Some (Numeric xs)) cols ->
  exists df', add_negative_value_columns df cols = inr df'.
Proof.
  induction cols as [|col rest IH]; intros df Hall; simpl; [by eexists|].
  apply Forall_cons in Hall as [[xs Hxs] Hall].
  unfold getitem. rewrite Hxs. simpl. apply IH.
  eapply Forall_impl; [exact Hall|]. intros l [ys Hys]. simpl.
  destruct (decide (("negative_" ++ col)%string = l)) as [<-|Hne].
  - rewrite lookup_insert_eq. eauto.
  - rewrite lookup_insert_ne by done. eauto.
Qed.

(** The indicators written over columns without negative entries are all
    0, and stay so while the loop goes on. *)
Lemma add_negative_value_columns_zero (targets cols : list string) :
  forall df df',
  (forall l, l ∈ cols -> l ∈ targets) ->
  (forall l xs, l ∈ targets -> columns df !! l = Some (Numeric xs) ->
                Forall nonneg_cell xs) ->
  add_negative_value_columns df cols = inr df' ->
  (forall l xs, l ∈ targets -> columns df' !! l = Some (Numeric xs) ->
                Forall nonneg_cell xs) /\
  (forall l, zero_column df l -> zero_column df' l) /\
  (forall col, col ∈ cols -> zero_column df' ("negative_" ++ col)).
Proof.
  induction cols as [|col rest IH]; intros df df' Hsub Hinv; simpl.
  - intros [= <-]. split; [done|]. split; [done|].
    intros col H. by apply elem_of_nil in H.
  - intros H. apply bind_inr in H as (c & Hc & H).
    apply bind_inr in H as (xs & Hxs & H).
    apply numeric_values_inr in Hxs. subst c.
    unfold getitem in Hc. destruct (columns df !! col) as [c|] eqn:Hcol;
      [|done]. injection Hc as ->.
    assert (Forall nonneg_cell xs) as Hnn
      by (eapply Hinv; [apply Hsub; left|done]).
    pose proof (negative_flag_nonneg _ Hnn) as Hzero.
    set (df1 := setitem df ("negative_" ++ col)
                  (Numeric (negative_flag <$> xs))) in *.
    assert (forall l, zero_column df l -> zero_column df1 l) as Hkeep.
    { intros l (ys & Hys & Hz). unfold zero_column, df1. simpl.
      destruct (decide (("negative_" ++ col)%string = l)) as [<-|Hne].
      - rewrite lookup_insert_eq. eauto.
      - rewrite lookup_insert_ne by done. eauto. }
    destruct (IH df1 df') as (Hinv' & Hkeep' & Hzeros); [| |done|].
    + intros l Hl. apply Hsub. by right.
    + intros l ys Hl. unfold df1. simpl.
      destruct (decide (("negative_" ++ col)%string = l)) as [<-|Hne].
      * rewrite lookup_insert_eq. intros [= <-].
        eapply Forall_impl; [exact Hzero|]. intros x -> q [= <-]. done.
      * rewrite lookup_insert_ne by done. by apply Hinv.
    + split; [done|]. split; [by intros l Hl; apply Hkeep', Hkeep|].
      intros c0 [->|Hc0]%elem_of_cons; [|by apply Hzeros].
      apply Hkeep'. exists (negative_flag <$> xs). unfold df1. simpl.
      by rewrite lookup_insert_eq.
Qed.

(** X6. An indicator of negative values is 1 exactly on the rows that hold
    a negative number; computed over the targeted columns after the sign
    normaliser, which returns together with it on numeric columns, every
    indicator is 0 on every row.  The last statement is made for columns
    without the entry [-2^63], which [np.abs] leaves negative in an int64
    column. *)
Theorem no_negative_values_after_abs (df : DataFrame) (cols : list string) :
  (forall (xs : list (option Q)) (i : nat),
     (negative_flag <$> xs) !! i = Some (Some 1%Q) <->
     exists v, xs !! i = Some (Some v) /\ (v < 0)%Q) /\
  (Forall (fun l => exists xs, columns df !! l = Some (Numeric xs)) cols ->
   exists df1 df2,
     apply_absolute_values df cols = inr df1 /\
     add_negative_value_columns df1 cols = inr df2) /\
  ((forall l xs, l ∈ cols -> columns df !! l = Some (Numeric xs) ->
      no_int64_min xs = true) ->
   forall df1 df2,
     apply_absolute_values df cols = inr df1 ->
     add_negative_value_columns df1 cols = inr df2 ->
     forall col, col ∈ cols -> zero_column df2 ("negative_" ++ col)).
Proof.
  split; [apply negative_flag_lookup|]. split.
  - intros Hall. rewrite apply_absolute_values_spec.
    assert (forallb (numeric_or_absent df) cols = true) as ->.
    { apply forallb_forall. intros l Hl.
      rewrite Forall_forall in Hall.
      destruct (Hall l (proj2 (list_elem_of_In _ _) Hl)) as [xs Hxs].
      unfold numeric_or_absent. by rewrite Hxs. }
    destruct (add_negative_value_columns_total cols (abs_frame df cols))
      as [df2 Hdf2]; [|by eexists _, _].
    eapply Forall_impl; [exact Hall|]. intros l [xs Hxs].
    rewrite abs_frame_lookup, Hxs. simpl. case_bool_decide; eauto.
  - intros _ df1 df2 Habs Hneg col Hcol.
    rewrite apply_absolute_values_spec in Habs.
    destruct (forallb _ cols); [|done]. injection Habs as <-.
    eapply (add_negative_value_columns_zero cols cols); [done| |done|done].
    intros l xs Hl. rewrite abs_frame_lookup.
    rewrite bool_decide_eq_true_2 by done.
    destruct (columns df !! l) as [[ys|ys|ys]|]; simpl; try done.
    intros [= <-]. apply Forall_fmap, Forall_forall.
    intros x _. apply abs_cell_nonneg.
Qed.

(** ** Sign normaliser *)

Lemma forallb_same_elements {A} (f : A -> bool) (l l' : list A) :
  (forall x, x ∈ l <-> x ∈ l') -> forallb f l = forallb f l'.
Proof.
  intros H. apply eq_true_iff_eq. rewrite !forallb_forall.
  split; intros Hf x Hx; apply Hf; apply list_elem_of_In;
    apply list_elem_of_In in Hx; by apply H.
Qed.

(** X7. The sign normaliser depends on the targeted labels only as a set:
    their order and repetitions change neither the frame returned nor
    whether it raises. *)
Theorem apply_absolute_values_labels_as_set (df : DataFrame)
    (cols cols' : list string) :
  (forall l, l ∈ cols <-> l ∈ cols') ->
  apply_absolute_values df cols = apply_absolute_values df cols'.
Proof.
  intros H. rewrite !apply_absolute_values_spec.
  rewrite (forallb_same_elements _ cols cols') by done.
  destruct (forallb _ cols'); [|done]. f_equal.
  apply df_eq; [done|]. intros l. rewrite !abs_frame_lookup.
  destruct (columns df !! l); [|done]. simpl. f_equal.
  case_bool_decide as H1; case_bool_decide as H2; try done; exfalso.
  - by apply H2, H.
  - by apply H1, H.
Qed.

Lemma abs_column_length c : col_length (abs_column c) = col_length c.
Proof. destruct c; simpl; try done. by rewrite length_fmap. Qed.

(** X8. When the sign normaliser returns, the frame has the same rows and
    the same column labels, untargeted columns are unchanged, a column
    keeps its length, a numeric entry is missing afterwards exactly where
    it was missing before, and a well-formed frame stays well-formed. *)
Theorem apply_absolute_values_keeps_shape (df : DataFrame)
    (cols : list string) (df' : DataFrame) :
  apply_absolute_values df cols = inr df' ->
  nrows df' = nrows df /\
  (forall l, is_Some (columns df' !! l) <-> is_Some (columns df !! l)) /\
  (forall l, l ∉ cols -> columns df' !! l = columns df !! l) /\
  (forall l xs, columns df !! l = Some (Numeric xs) ->
     exists ys, columns df' !! l = Some (Numeric ys) /\
                length ys = length xs /\
                forall i, ys !! i = Some None <-> xs !! i = Some None) /\
  (wf df -> wf df').
Proof.
  rewrite apply_absolute_values_spec.
  destruct (forallb _ cols); [|done]. intros [= <-].
  split; [done|]. split; [|split; [|split]].
  - intros l. rewrite abs_frame_lookup.
    destruct (columns df !! l); simpl; split; intros [? ?]; eauto; done.
  - intros l Hl. rewrite abs_frame_lookup, bool_decide_eq_false_2 by done.
    by destruct (columns df !! l).
  - intros l xs Hxs. rewrite abs_frame_lookup, Hxs. simpl.
    case_bool_decide.
    + exists (abs_cell <$> xs). split; [done|].
      split; [by rewrite length_fmap|]. intros i.
      rewrite list_lookup_fmap. destruct (xs !! i) as [[v|]|]; simpl;
        split; intros; simplify_eq; done.
    + by exists xs.
  - intros Hwf l c. rewrite abs_frame_lookup.
    destruct (columns df !! l) as [c0|] eqn:Hc0; simpl; [|done].
    intros [= <-]. apply Hwf in Hc0. simpl in *.
    case_bool_decide; [by rewrite abs_column_length|done].
Qed.

(** ** Outlier flagger *)

(** X9. The flagger does not read an indicator column the frame already
    has: it gives the same result on the frame with any column stored under
    [is_outlier], and running it again on its own result returns that
    result. *)
Theorem identify_outliers_resets_indicator (df : DataFrame)
    (cols : list string) (t : Q) :
  (forall c, identify_outliers (setitem df "is_outlier" c) cols t =
             identify_outliers df cols t) /\
  (forall df', identify_outliers df cols t = inr df' ->
               identify_outliers df' cols t = inr df').
Proof.
  assert (forall c, identify_outliers (setitem df "is_outlier" c) cols t =
                    identify_outliers df cols t) as Hreset.
  { intros c. unfold identify_outliers. by rewrite setitem_setitem. }
  split; [done|]. intros df' H. pose proof H as H'.
  rewrite identify_outliers_spec in H'.
  destruct (forallb _ cols); [|done]. injection H' as <-.
  by rewrite Hreset.
Qed.

Lemma bool_list_eq (a b : list bool) :
  length a = length b ->
  (forall i, a !! i = Some true <-> b !! i = Some true) ->
  a = b.
Proof.
  revert b. induction a as [|x a IH]; intros [|y b] Hlen H; simpl in Hlen;
    try done.
  f_equal.
  - specialize (H 0%nat). simpl in H. destruct x, y; try done.
    + discriminate (proj1 H eq_refl).
    + discriminate (proj2 H eq_refl).
  - apply IH; [lia|]. intros i. apply (H (S i)).
Qed.

(** X10. On a well-formed frame the flagger depends on the monitored
    labels only as a set (the indicator itself not being one of them):
    their order and repetitions change nothing. *)
Theorem identify_outliers_labels_as_set (df : DataFrame)
    (cols cols' : list string) (t : Q) :
  wf df -> "is_outlier" ∉ cols ->
  (forall l, l ∈ cols <-> l ∈ cols') ->
  identify_outliers df cols t = identify_outliers df cols' t.
Proof.
  intros Hwf Hio Hsame.
  assert ("is_outlier" ∉ cols') as Hio' by (intros H; by apply Hio, Hsame).
  rewrite !identify_outliers_spec.
  rewrite (forallb_same_elements _ cols cols') by done.
  destruct (forallb _ cols'); [|done]. do 3 f_equal.
  apply (f_equal (fmap flag_cell)).
  apply bool_list_eq; [by rewrite !length_outlier_flags|].
  intros i. unfold outlier_flags.
  rewrite !fold_flag_step_lookup by (done || apply length_replicate).
  split; (intros [H|(l & Hl & H)]; [by left|right]); exists l;
    (split; [by apply Hsame|done]).
Qed.

(** X11. Whatever labels are monitored, when the flagger returns on a
    well-formed frame the result is well-formed, has the same rows, holds
    every column other than the indicator as it was, and its indicator has
    one entry per row, each 0 or 1. *)
Theorem identify_outliers_adds_indicator (df : DataFrame)
    (cols : list string) (t : Q) (df' : DataFrame) :
  wf df ->
  identify_outliers df cols t = inr df' ->
  wf df' /\ nrows df' = nrows df /\
  (forall l, l <> "is_outlier" -> columns df' !! l = columns df !! l) /\
  exists flags,
    columns df' !! "is_outlier" = Some (Numeric flags) /\
    length flags = nrows df /\
    Forall (fun x => x = Some 0%Q \/ x = Some 1%Q) flags.
Proof.
  intros Hwf. rewrite identify_outliers_spec.
  destruct (forallb _ cols); [|done]. intros [= <-].
  pose proof (length_outlier_flags df cols t Hwf) as Hlen.
  split; [|split; [done|split]].
  - apply map_Forall_insert_2; [|done]. simpl. by rewrite length_fmap.
  - intros l Hl. simpl. by rewrite lookup_insert_ne.
  - exists (flag_cell <$> outlier_flags df cols t). simpl.
    rewrite lookup_insert_eq. split; [done|].
    split; [by rewrite length_fmap|].
    apply Forall_fmap, Forall_forall. intros [] _; [by right|by left].
Qed.

(** ** Categorical encoder *)

Lemma length_unique_from seen values :
  (length (unique_from seen values) <= length values)%nat.
Proof.
  revert seen. induction values as [|v rest IH]; intros seen; simpl; [done|].
  case_bool_decide; [specialize (IH seen)|specialize (IH (v :: seen))];
    simpl; lia.
Qed.

Lemma length_scalars c : length (scalars c) = col_length c.
Proof. destruct c; simpl; by rewrite length_fmap. Qed.

Lemma encode_columns_present cols : forall df maps r,
  encode_columns df maps cols = inr r ->
  Forall (fun l => is_Some (columns df !! l)) cols.
Proof.
  induction cols as [|col rest IH]; intros df maps r; simpl; [done|].
  intros H. apply bind_inr in H as (mapping & _ & H).
  apply bind_inr in H as (c & Hc & H).
  unfold getitem in Hc. destruct (columns df !! col) as [c0|] eqn:Hcol;
    [|done].
  constructor; [eauto|]. apply IH in H.
  eapply Forall_impl; [exact H|]. intros l. simpl.
  destruct (decide (col = l)) as [<-|Hne].
  - rewrite Hcol. eauto.
  - by rewrite lookup_insert_ne.
Qed.

Lemma count_none_zero {A} (xs : list (option A)) :
  Forall is_Some xs -> count_none xs = 0%nat.
Proof.
  unfold count_none. induction 1 as [|x xs [v ->] _ IH]; simpl; done.
Qed.

(** X12. Over distinct labels, when the encoder returns, an encoded column
    has one code per row and no missing entry, a missing value of the
    source having received a code like any other; every code is below the
    size of the mapping, which is at most the number of rows. *)
Theorem encoded_column_has_no_missing (df : DataFrame) (cols : list string)
    (df' : DataFrame) (maps : gmap string dict) :
  NoDup cols ->
  encode_columns df ∅ cols = inr (df', maps) ->
  forall label, label ∈ cols ->
    exists c mapping codes,
      columns df !! label = Some c /\
      maps !! label = Some mapping /\
      columns df' !! label = Some (Numeric codes) /\
      length codes = col_length c /\
      (length mapping <= col_length c)%nat /\
      count_missing (Numeric codes) = 0%nat /\
      forall i, (i < length codes)%nat ->
        exists code, codes !! i = Some (Some (inject_Z (Z.of_nat code))) /\
                     (code < length mapping)%nat.
Proof.
  intros Hnd Hrun label Hl.
  pose proof (encode_columns_present _ _ _ _ Hrun) as Hall.
  destruct (encode_columns_spec cols df ∅ Hnd Hall)
    as (df2 & maps2 & Hrun2 & _ & Hin & _).
  rewrite Hrun in Hrun2. injection Hrun2 as <- <-.
  rewrite Forall_forall in Hall. destruct (Hall label Hl) as [c Hc].
  destruct (Hin label c Hl Hc) as [Hm Hcol].
  set (u := unique (scalars c)) in *.
  set (mapping := imap (fun i value => (value, i)) u) in *.
  assert (forall i, (i < length (scalars c))%nat ->
            exists code,
              ((fun v => (fun code => inject_Z (Z.of_nat code))
                           <$> dict_get mapping v) <$> scalars c) !! i
              = Some (Some (inject_Z (Z.of_nat code))) /\
              (code < length mapping)%nat) as Hcodes.
  { intros i Hi. destruct (lookup_lt_is_Some_2 _ _ Hi) as [v Hv].
    destruct (index_of_elem v u) as [code Hcode].
    { apply elem_of_unique. eapply list_elem_of_lookup_2, Hv. }
    exists code. unfold mapping. rewrite list_lookup_fmap, Hv. simpl.
    rewrite dict_get_enumerate, Hcode. split; [done|].
    rewrite length_imap. apply index_of_Some in Hcode as [Hu _].
    by eapply lookup_lt_Some. }
  eexists c, mapping, _. split; [done|]. split; [done|]. split; [done|].
  split; [by rewrite length_fmap, length_scalars|].
  split.
  { unfold mapping. rewrite length_imap, <- length_scalars.
    apply length_unique_from. }
  split; [|by rewrite length_fmap].
  simpl. apply count_none_zero, Forall_lookup_2. intros i x Hx.
  destruct (Hcodes i) as (code & Hcode & _).
  { apply lookup_lt_Some in Hx. by rewrite length_fmap in Hx. }
  rewrite Hcode in Hx. injection Hx as <-. eauto.
Qed.

(** *** Encoding twice *)

Lemma Qred_inject_Z z : Qred (inject_Z z) = inject_Z z.
Proof. apply Qred_identity. simpl. apply Z.gcd_1_r. Qed.

Lemma scalars_series_map c mapping :
  scalars (series_map c mapping) = recode mapping <$> scalars c.
Proof.
  unfold series_map. simpl. rewrite <- list_fmap_compose.
  apply list_fmap_ext. intros _ v _. simpl. unfold recode.
  destruct (dict_get mapping v); simpl; [|done]. by rewrite Qred_inject_Z.
Qed.

Lemma unique_from_fmap_inj (g : scalar -> scalar) values : forall seen,
  (forall v w, v ∈ seen ++ values -> w ∈ seen ++ values -> g v = g w -> v = w) ->
  unique_from (g <$> seen) (g <$> values) = g <$> unique_from seen values.
Proof.
  induction values as [|v rest IH]; intros seen Hinj; simpl; [done|].
  assert (g v ∈ g <$> seen <-> v ∈ seen) as Hmem.
  { split; [|apply list_elem_of_fmap_2].
    intros (w & Hw & Hin)%list_elem_of_fmap.
    assert (v = w) as -> by (apply Hinj; set_solver). done. }
  rewrite (bool_decide_ext _ _ Hmem). case_bool_decide.
  - apply IH. intros a b Ha Hb. apply Hinj; set_solver.
  - rewrite fmap_cons. f_equal. apply (IH (v :: seen)).
    intros a b Ha Hb. apply Hinj; set_solver.
Qed.

Lemma index_of_fmap_inj (g : scalar -> scalar) v values :
  (forall w, w ∈ values -> g w = g v -> w = v) ->
  index_of (g v) (g <$> values) = index_of v values.
Proof.
  induction values as [|x rest IH]; intros Hinj; [done|].
  rewrite fmap_cons. cbn [index_of].
  assert (g x = g v <-> x = v) as Heq.
  { split; [apply Hinj; left|by intros ->]. }
  rewrite (bool_decide_ext _ _ Heq). case_bool_decide; [done|].
  rewrite IH; [done|]. intros w Hw. apply Hinj. by right.
Qed.

Lemma recode_enumerate_inj (values : list scalar) v w :
  v ∈ values -> w ∈ values ->
  recode (imap (fun i value => (value, i)) (unique values)) v =
  recode (imap (fun i value => (value, i)) (unique values)) w ->
  v = w.
Proof.
  intros Hv Hw. unfold recode. rewrite !dict_get_enumerate.
  destruct (index_of_elem v (unique values)) as [i Hi];
    [by apply elem_of_unique|].
  destruct (index_of_elem w (unique values)) as [j Hj];
    [by apply elem_of_unique|].
  rewrite Hi, Hj. intros [= H%Nat2Z.inj]. subst j.
  apply index_of_Some in Hi as [Hi _]. apply index_of_Some in Hj as [Hj _].
  congruence.
Qed.

Lemma recode_enumerate_lookup (values : list scalar) i v :
  unique values !! i = Some v ->
  recode (imap (fun i value => (value, i)) (unique values)) v =
  Number (inject_Z (Z.of_nat i)).
Proof.
  intros Hv. unfold recode. rewrite dict_get_enumerate.
  unfold unique in *.
  by rewrite (index_of_NoDup _ _ _ (NoDup_unique_from [] values) Hv).
Qed.

(** Encoding an encoded column: the codes stay, the mapping becomes the
    identity on codes. *)
Lemma series_map_twice c :
  let mapping := imap (fun i value => (value, i)) (unique (scalars c)) in
  let encoded := series_map c mapping in
  let mapping2 :=
    imap (fun i value => (value, i)) (unique (scalars encoded)) in
  mapping2 = identity_mapping (length mapping) /\
  series_map encoded mapping2 = encoded.
Proof.
  intros mapping encoded mapping2.
  set (vs := scalars c). set (u := unique vs).
  assert (scalars encoded = recode mapping <$> vs) as Hsc
    by apply scalars_series_map.
  assert (unique (scalars encoded) = recode mapping <$> u) as Hu.
  { rewrite Hsc. unfold unique.
    apply (unique_from_fmap_inj (recode mapping) vs []).
    intros v w Hv Hw. by apply recode_enumerate_inj. }
  split.
  - unfold mapping2, identity_mapping. rewrite Hu. apply list_eq. intros i.
    rewrite list_lookup_imap, !list_lookup_fmap.
    unfold mapping. rewrite length_imap. fold u.
    destruct (u !! i) as [v|] eqn:Hv; simpl.
    + rewrite (lookup_seq_lt _ _ _ (lookup_lt_Some _ _ _ Hv)). simpl.
      do 2 f_equal. exact (recode_enumerate_lookup vs i v Hv).
    + rewrite lookup_seq_ge; [done|]. by apply lookup_ge_None.
  - unfold series_map at 1. fold mapping2. rewrite Hsc.
    unfold encoded, series_map. f_equal. fold vs.
    rewrite <- list_fmap_compose. apply list_fmap_ext. intros k v Hv. simpl.
    apply list_elem_of_lookup_2 in Hv. clear k.
    unfold mapping2. rewrite Hu, dict_get_enumerate.
    rewrite index_of_fmap_inj.
    + by rewrite <- (dict_get_enumerate u v).
    + intros w Hw. apply recode_enumerate_inj; [|done].
      by apply elem_of_unique.
Qed.

(** X13. Running the encoder a second time, over the same distinct labels
    and on its own result, leaves the frame as it is and replaces every
    mapping by the identity on its codes: the original values are no longer
    recorded. *)
Theorem encoder_rerun_forgets_values (df : DataFrame) (cols : list string)
    (df1 : DataFrame) (maps1 : gmap string dict) :
  NoDup cols ->
  encode_columns df ∅ cols = inr (df1, maps1) ->
  exists maps2,
    encode_columns df1 maps1 cols = inr (df1, maps2) /\
    forall label mapping,
      label ∈ cols -> maps1 !! label = Some mapping ->
      maps2 !! label = Some (identity_mapping (length mapping)).
Proof.
  intros Hnd Hrun.
  pose proof (encode_columns_present _ _ _ _ Hrun) as Hall.
  destruct (encode_columns_spec cols df ∅ Hnd Hall)
    as (df1' & maps1' & Hrun1 & Hn1 & Hin1 & Hout1).
  rewrite Hrun in Hrun1. injection Hrun1 as <- <-.
  assert (Forall (fun l => is_Some (columns df1 !! l)) cols) as Hall1.
  { rewrite Forall_forall in Hall |- *. intros l Hl.
    destruct (Hall l Hl) as [c Hc]. destruct (Hin1 l c Hl Hc) as [_ ->].
    eauto. }
  destruct (encode_columns_spec cols df1 maps1 Hnd Hall1)
    as (df2 & maps2 & Hrun2 & Hn2 & Hin2 & Hout2).
  assert (df2 = df1) as ->.
  { apply df_eq; [done|]. intros l.
    destruct (decide (l ∈ cols)) as [Hl|Hl]; [|by apply Hout2].
    rewrite Forall_forall in Hall. destruct (Hall l Hl) as [c Hc].
    destruct (Hin1 l c Hl Hc) as [_ Hc1].
    destruct (Hin2 l _ Hl Hc1) as [_ ->]. rewrite Hc1. f_equal.
    apply series_map_twice. }
  exists maps2. split; [done|]. intros label mapping Hl Hm.
  rewrite Forall_forall in Hall. destruct (Hall label Hl) as [c Hc].
  destruct (Hin1 label c Hl Hc) as [Hm1 Hc1].
  rewrite Hm in Hm1. injection Hm1 as ->.
  destruct (Hin2 label _ Hl Hc1) as [Hm2 _]. refine (eq_trans Hm2 _).
  f_equal. apply series_map_twice.
Qed.

(** *** The codes of the outcome *)

Lemma two_valued_codes (h o : scalar) (rest : list scalar) :
  h <> o ->
  (forall v, v ∈ rest -> v = h \/ v = o) ->
  index_of h (unique (h :: rest)) = Some 0%nat /\
  (o ∈ rest -> index_of o (unique (h :: rest)) = Some 1%nat).
Proof.
  intros Hne Hvals. unfold unique. simpl.
  rewrite bool_decide_eq_true_2 by done. split; [done|].
  intros Ho. rewrite bool_decide_eq_false_2 by done.
  set (u := unique_from [h] rest).
  assert (forall x, x ∈ u -> x = o) as Hall.
  { intros x [Hx Hnh]%elem_of_unique_from.
    destruct (Hvals x Hx) as [->| ->]; [|done]. exfalso. apply Hnh. left. }
  assert (o ∈ u) as Hin.
  { apply elem_of_unique_from. split; [done|]. set_solver. }
  pose proof (NoDup_unique_from [h] rest) as Hnd. fold u in Hnd.
  destruct u as [|a u']; [by apply elem_of_nil in Hin|].
  assert (a = o) as -> by (apply Hall; left).
  simpl. by rewrite bool_decide_eq_true_2.
Qed.

Lemma status_series_codes (x : option string) (rest : list (option string)) :
  Forall (fun x => x = Some "acquired" \/ x = Some "closed") (x :: rest) ->
  series_map (Object (x :: rest))
    (imap (fun i value => (value, i)) (unique (scalars (Object (x :: rest))))) =
  series_map (Object (x :: rest)) binary_status_mapping <->
  x = Some "closed".
Proof.
  intros [Hx Hrest]%Forall_cons.
  set (A := Text "acquired"). set (C := Text "closed").
  assert (A <> C) as HAC by done.
  assert (dict_get binary_status_mapping A = Some 1%nat) as HbA by done.
  assert (dict_get binary_status_mapping C = Some 0%nat) as HbC by done.
  set (vs := scalars (Object rest)).
  assert (forall v, v ∈ vs -> v = A \/ v = C) as Hsc.
  { intros v (y & -> & Hy)%list_elem_of_fmap.
    rewrite Forall_forall in Hrest.
    destruct (Hrest y Hy) as [-> | ->]; [by left|by right]. }
  unfold series_map. split.
  - intros H. destruct Hx as [-> | ->]; [|done]. exfalso.
    change (scalars (Object (Some "acquired" :: rest))) with (A :: vs) in H.
    rewrite !fmap_cons in H. injection H as H _. done.
  - intros ->. f_equal.
    change (scalars (Object (Some "closed" :: rest))) with (C :: vs).
    apply list_fmap_ext. intros k v Hv. apply list_elem_of_lookup_2 in Hv.
    rewrite dict_get_enumerate.
    destruct (two_valued_codes C A vs) as [HC HA]; [done|naive_solver|].
    apply elem_of_cons in Hv as [-> |Hv].
    + by rewrite HC, HbC.
    + destruct (Hsc v Hv) as [-> | ->]; [|by rewrite HC, HbC].
      by rewrite (HA Hv), HbA.
Qed.

(** X14. For a non-empty outcome column that holds only "acquired" and
    "closed", the codes the encoder assigns are those of the notebook's own
    binary coding (acquired 1, closed 0), on which its later selections and
    labels rely, exactly when the first row is "closed". *)
Theorem status_codes_agree_with_binary_status (df : DataFrame)
    (xs : list (option string)) :
  columns df !! "status" = Some (Object xs) ->
  xs <> [] ->
  Forall (fun x => x = Some "acquired" \/ x = Some "closed") xs ->
  exists df1 maps df2,
    encode_columns df ∅ ["status"] = inr (df1, maps) /\
    add_binary_status df = inr df2 /\
    (columns df1 !! "status" = columns df2 !! "binary_status" <->
     head xs = Some (Some "closed")).
Proof.
  intros Hstatus Hne Hvals.
  destruct (encode_columns_spec ["status"] df ∅)
    as (df1 & maps & Hrun & _ & Hin & _).
  { apply NoDup_singleton. }
  { constructor; [eauto|constructor]. }
  destruct (Hin "status" _ (list_elem_of_here _ _) Hstatus) as [_ Hc1].
  exists df1, maps, (setitem df "binary_status"
                       (series_map (Object xs) binary_status_mapping)).
  split; [done|]. split.
  { unfold add_binary_status, getitem. by rewrite Hstatus. }
  refine (eq_ind_r (fun o => o = _ <-> _) _ Hc1).
  simpl columns. rewrite lookup_insert_eq.
  destruct xs as [|x rest]; [done|]. simpl head.
  pose proof (status_series_codes x rest Hvals) as [Hto Hfrom]. split.
  - intros H. apply (f_equal Some), Hto. congruence.
  - intros [= ->]. apply (f_equal Some), Hfrom. done.
Qed.

(** ** Date normaliser *)

Lemma series_min_three founded first last ts t :
  ts ∈ [founded; first; last] -> Some t ∈ ts ->
  exists r,
    series_min [series_min founded; series_min first; series_min last] =
      Some r /\ (r <= t)%Z.
Proof.
  intros Hts Ht. destruct (series_min_le ts t Ht) as (m & Hm & Hle).
  destruct (series_min_le [series_min founded; series_min first;
                            series_min last] m) as (r & Hr & Hrm).
  - rewrite <- Hm. set_solver.
  - exists r. split; [done|]. lia.
Qed.

(** The frame the date normaliser returns holds, under each offset label,
    the offsets of the column's dates from the common reference. *)
Lemma date_normalizer_run df founded first last :
  columns df !! "founded_at" = Some (Datetime founded) ->
  columns df !! "first_funding_at" = Some (Datetime first) ->
  columns df !! "last_funding_at" = Some (Datetime last) ->
  exists df',
    date_normalizer df = inr df' /\
    forall (label : string) ts,
      label ∈ date_columns -> columns df !! label = Some (Datetime ts) ->
      ts ∈ [founded; first; last] /\
      columns df' !! (label ++ "_days")%string =
        Some (Numeric (days_since
                         (series_min [series_min founded; series_min first;
                                      series_min last]) <$> ts)).
Proof.
  intros Hfounded Hfirst Hlast.
  set (ref := series_min [series_min founded; series_min first; series_min last]).
  assert (reference_date df = inr ref) as Href.
  { unfold reference_date, getitems, absent_labels, has_column. simpl.
    rewrite Hfounded, Hfirst, Hlast. simpl. done. }
  eexists. split.
  { unfold date_normalizer. rewrite Href. simpl.
    unfold getitem. simpl.
    rewrite Hfounded. simpl.
    rewrite lookup_insert_ne, Hfirst by done. simpl.
    rewrite !lookup_insert_ne, Hlast by done. simpl.
    unfold drop, absent_labels, has_column. simpl.
    rewrite !lookup_insert_ne, Hfounded, Hfirst, Hlast by done. simpl. done. }
  intros label ts Hl Hts.
  destruct (date_columns_cases _ Hl) as [->|[->| ->]]; simplify_eq; simpl.
  - split; [set_solver|].
    rewrite !lookup_delete_ne, !lookup_insert_ne by done.
    by rewrite lookup_insert_eq.
  - split; [set_solver|].
    rewrite !lookup_delete_ne, !lookup_insert_ne by done.
    by rewrite lookup_insert_eq.
  - split; [set_solver|].
    rewrite !lookup_delete_ne by done. by rewrite lookup_insert_eq.
Qed.

(** X15. The offsets of the three date columns are counted from one
    reference, so they can be compared across columns: a later date never
    has a smaller offset, a larger offset means a later date, the difference
    of two offsets is the number of whole days between the two dates or one
    more, and it is that number when the dates are whole days apart. *)
Theorem date_offsets_comparable (df : DataFrame)
    (founded first last : list (option Z)) :
  columns df !! "founded_at" = Some (Datetime founded) ->
  columns df !! "first_funding_at" = Some (Datetime first) ->
  columns df !! "last_funding_at" = Some (Datetime last) ->
  exists df',
    date_normalizer df = inr df' /\
    forall (l1 l2 : string) ts1 ts2 (i j : nat) t1 t2,
      l1 ∈ date_columns -> l2 ∈ date_columns ->
      columns df !! l1 = Some (Datetime ts1) ->
      columns df !! l2 = Some (Datetime ts2) ->
      ts1 !! i = Some (Some t1) -> ts2 !! j = Some (Some t2) ->
      exists days1 days2 d1 d2,
        columns df' !! (l1 ++ "_days")%string = Some (Numeric days1) /\
        columns df' !! (l2 ++ "_days")%string = Some (Numeric days2) /\
        days1 !! i = Some (Some (inject_Z d1)) /\
        days2 !! j = Some (Some (inject_Z d2)) /\
        ((t1 <= t2)%Z -> (d1 <= d2)%Z) /\
        ((d1 < d2)%Z -> (t1 < t2)%Z) /\
        ((t2 - t1) / ns_per_day <= d2 - d1 <= (t2 - t1) / ns_per_day + 1)%Z /\
        (forall k, (t2 - t1 = k * ns_per_day)%Z -> (d2 - d1 = k)%Z).
Proof.
  intros Hfounded Hfirst Hlast.
  destruct (date_normalizer_run df founded first last)
    as (df' & Hrun & Hdays); [done..|].
  exists df'. split; [done|].
  intros l1 l2 ts1 ts2 i j t1 t2 Hl1 Hl2 Hc1 Hc2 Hi Hj.
  destruct (Hdays l1 ts1 Hl1 Hc1) as [Hin1 Hd1].
  destruct (Hdays l2 ts2 Hl2 Hc2) as [Hin2 Hd2].
  destruct (series_min_three founded first last ts1 t1 Hin1)
    as (r & Hr & Hle1); [by eapply list_elem_of_lookup_2|].
  destruct (series_min_three founded first last ts2 t2 Hin2)
    as (r' & Hr' & Hle2); [by eapply list_elem_of_lookup_2|].
  rewrite Hr in Hr'. injection Hr' as <-.
  eexists _, _, ((t1 - r) / ns_per_day)%Z, ((t2 - r) / ns_per_day)%Z.
  split; [exact Hd1|]. split; [exact Hd2|].
  split; [by apply days_since_lookup|]. split; [by apply days_since_lookup|].
  unfold ns_per_day. repeat split.
  - intros Hle. apply Z.div_le_mono; lia.
  - intros Hlt. apply Z.nle_gt. intros Hle. apply Z.nle_gt in Hlt.
    apply Hlt, Z.div_le_mono; lia.
  - Z.div_mod_to_equations. lia.
  - Z.div_mod_to_equations. lia.
  - intros k Hk. Z.div_mod_to_equations. lia.
Qed.

(** X16. The date normaliser cannot be run on its own result: it has
    removed the three date columns, and the second run raises a KeyError
    that names the three of them. *)
Theorem date_normalizer_not_rerunnable (df df' : DataFrame) :
  date_normalizer df = inr df' ->
  reference_date df' = inl (KeyError date_columns) /\
  date_normalizer df' = inl (KeyError date_columns).
Proof.
  intros H. unfold date_normalizer in H.
  apply bind_inr in H as (ref & _ & H).
  apply bind_inr in H as (df1 & _ & H).
  assert (forall l, l ∈ date_columns -> columns df' !! l = None) as Hnone.
  { intros l Hl. by rewrite (drop_lookup _ _ _ l H), bool_decide_eq_true_2. }
  assert (reference_date df' = inl (KeyError date_columns)) as Href.
  { unfold reference_date, getitems, absent_labels, has_column, date_columns.
    simpl. rewrite !Hnone by (unfold date_columns; set_solver). done. }
  split; [done|]. unfold date_normalizer. by rewrite Href.
Qed.

(** ** Scatter plots of the flagged rows *)

Lemma config_index_Some entry configs i :
  config_index entry configs = Some i ->
  configs !! i = Some entry /\
  forall j, (j < i)%nat -> configs !! j <> Some entry.
Proof.
  revert i. induction configs as [|c rest IH]; intros i; [done|].
  cbn [config_index]. case_bool_decide as Hc.
  - intros [= <-]. subst c. split; [done|]. lia.
  - destruct (config_index entry rest) as [k|]; [|done].
    intros [= <-]. destruct (IH k eq_refl) as [Hk Hfirst].
    split; [done|]. intros [|j] Hj; simpl.
    + by intros [= ?].
    + apply Hfirst. lia.
Qed.

Lemma config_index_elem entry configs :
  entry ∈ configs -> exists i, config_index entry configs = Some i.
Proof.
  induction configs as [|c rest IH]; intros H; [by apply elem_of_nil in H|].
  cbn [config_index]. case_bool_decide as Hc; [by eexists|].
  apply elem_of_cons in H as [->|H]; [done|].
  destruct (IH H) as [i ->]. by eexists.
Qed.

Lemma scatter_loop_spec configs rest :
  (forall c, c ∈ rest -> c ∈ configs) ->
  exists drawn,
    scatter_loop configs rest = Some drawn /\
    length drawn = length rest /\
    forall k x y label,
      rest !! k = Some (x, y, label) ->
      exists index,
        config_index (x, y, label) configs = Some index /\
        drawn !! k = Some (mkScatter (index + 1) x y "is_outlier" label y).
Proof.
  induction rest as [|[[x y] label] rest IH]; intros Hsub.
  - exists []. by split.
  - destruct IH as (drawn & Hrun & Hlen & Hdrawn).
    { intros c Hc. apply Hsub. by right. }
    destruct (config_index_elem (x, y, label) configs) as [index Hindex].
    { apply Hsub. left. }
    eexists. cbn [scatter_loop]. rewrite Hindex, Hrun.
    split; [done|]. split; [by simpl; rewrite Hlen|].
    intros [|k] x' y' label' Hk; simpl in Hk.
    + injection Hk as <- <- <-. by exists index.
    + by apply Hdrawn.
Qed.

(** X17. The scatter-plot function never fails on its own configuration
    list and draws one plot per entry, each on the subplot numbered by the
    first position at which an equal entry occurs.  The subplots used are
    1, 2, ..., n in this order exactly when no entry is repeated; a repeated
    entry is drawn again on the subplot of its first occurrence. *)
Theorem plot_scatter_plots_positions (configs : list plot_config) :
  exists drawn,
    plot_scatter_plots configs = Some drawn /\
    length drawn = length configs /\
    (forall k x y label,
       configs !! k = Some (x, y, label) ->
       exists first,
         (first <= k)%nat /\
         configs !! first = Some (x, y, label) /\
         (forall j, (j < first)%nat -> configs !! j <> Some (x, y, label)) /\
         drawn !! k =
           Some (mkScatter (first + 1) x y "is_outlier" label y)) /\
    (subplot_index <$> drawn = seq 1 (length configs) <->
     NoDup configs).
Proof.
  destruct (scatter_loop_spec configs configs) as
    (drawn & Hrun & Hlen & Hdrawn); [done|].
  exists drawn. split; [done|]. split; [done|].
  assert (forall k x y label,
            configs !! k = Some (x, y, label) ->
            exists first,
              (first <= k)%nat /\
              configs !! first = Some (x, y, label) /\
              (forall j, (j < first)%nat ->
                         configs !! j <> Some (x, y, label)) /\
              drawn !! k =
                Some (mkScatter (first + 1) x y "is_outlier" label y)) as Hpos.
  { intros k x y label Hk.
    destruct (Hdrawn k x y label Hk) as (index & Hindex & Hd).
    apply config_index_Some in Hindex as [Hfirst Hleast].
    exists index. split; [|done].
    destruct (decide (index <= k)%nat); [done|].
    exfalso. apply (Hleast k); [lia|done]. }
  split; [done|]. split.
  - intros Hseq. apply NoDup_alt. intros i j [[x y] label] Hi Hj.
    assert (forall k, configs !! k = Some (x, y, label) ->
              forall m, (m < k)%nat ->
                        configs !! m <> Some (x, y, label)) as Hleast.
    { intros k Hk. destruct (Hpos k x y label Hk) as (f & _ & _ & Hl & Hd).
      assert ((subplot_index <$> drawn) !! k = Some (f + 1)%nat) as Hs
        by (by rewrite list_lookup_fmap, Hd).
      rewrite Hseq in Hs. apply lookup_seq in Hs as [Hs _].
      by replace k with f by lia. }
    destruct (Nat.lt_trichotomy i j) as [Hlt|[->|Hlt]]; [|done|].
    + exfalso. by apply (Hleast j Hj i).
    + exfalso. by apply (Hleast i Hi j).
  - intros Hnd. apply list_eq. intros k.
    rewrite list_lookup_fmap.
    destruct (configs !! k) as [[[x y] label]|] eqn:Hk.
    + destruct (Hpos k x y label Hk) as (first & _ & Hfirst & _ & ->).
      simpl. rewrite (NoDup_lookup _ _ _ _ Hnd Hfirst Hk).
      rewrite lookup_seq_lt by (by eapply lookup_lt_Some).
      f_equal. lia.
    + apply lookup_ge_None in Hk.
      rewrite lookup_seq_ge by done.
      rewrite (proj2 (lookup_ge_None drawn k)) by lia. done.
Qed.

(** ** Kinds of features after the conversions *)

Lemma elem_of_select_dtypes df include l :
  l ∈ column_labels (select_dtypes df include) <->
  exists c, columns df !! l = Some c /\ dtype_of c ∈ include.
Proof.
  unfold column_labels, select_dtypes. simpl. rewrite elem_of_dom.
  split.
  - intros [c Hc]. apply map_lookup_filter_Some in Hc as [Hc Hin]. eauto.
  - intros (c & Hc & Hin). exists c. by apply map_lookup_filter_Some.
Qed.

Lemma convert_to_days_numeric ref cols : forall df df' (l : string),
  convert_to_days df ref cols = inr df' ->
  l ∈ (fun c : string => (c ++ "_days")%string) <$> cols \/
    (exists xs, columns df !! l = Some (Numeric xs)) ->
  exists xs, columns df' !! l = Some (Numeric xs).
Proof.
  induction cols as [|col rest IH]; intros df df' l; simpl.
  - intros [= <-] [H|H]; [by apply elem_of_nil in H|done].
  - intros H Hl.
    apply bind_inr in H as (c & _ & H).
    apply bind_inr in H as (ts & _ & H).
    apply (IH _ _ l H). simpl.
    destruct (decide (l = (col ++ "_days")%string)) as [->|Hne].
    + right. rewrite lookup_insert_eq. eauto.
    + rewrite lookup_insert_ne by done.
      destruct Hl as [Hl|Hl]; [|by right].
      apply elem_of_cons in Hl as [?|?]; [done|by left].
Qed.

Lemma convert_to_days_nrows ref cols : forall df df',
  convert_to_days df ref cols = inr df' -> nrows df' = nrows df.
Proof.
  induction cols as [|col rest IH]; intros df df'; simpl.
  - by intros [= <-].
  - intros H.
    apply bind_inr in H as (c & _ & H).
    apply bind_inr in H as (ts & _ & H).
    by rewrite (IH _ _ H).
Qed.

Lemma drop_nrows df labels df' :
  drop df labels = inr df' -> nrows df' = nrows df.
Proof. unfold drop. destruct (absent_labels df labels); by intros [= <-]. Qed.

Lemma converted_labels_apart (l : string) :
  l ∈ categorical_columns ++ days_labels -> l ∉ date_columns.
Proof.
  revert l. apply Forall_forall. apply (bool_decide_unpack _).
  vm_compute. reflexivity.
Qed.

(** The columns of a frame after the encoder and the date normaliser. *)
Lemma converted_frame_lookup df df1 maps df2 :
  categorical_encoder df = inr (df1, maps) ->
  date_normalizer df1 = inr df2 ->
  nrows df2 = nrows df /\
  forall l : string,
    (l ∈ date_columns -> columns df2 !! l = None) /\
    (l ∈ categorical_columns ++ days_labels ->
     exists xs, columns df2 !! l = Some (Numeric xs)) /\
    (l ∉ date_columns -> l ∉ categorical_columns ++ days_labels ->
     columns df2 !! l = columns df !! l).
Proof.
  unfold categorical_encoder. intros Henc Hdate.
  pose proof (encode_columns_present _ _ _ _ Henc) as Hall.
  destruct (encode_columns_spec categorical_columns df ∅)
    as (df1' & maps' & Hrun & Hn1 & Hin1 & _); [|done|].
  { apply (bool_decide_unpack _). vm_compute. reflexivity. }
  rewrite Henc in Hrun. injection Hrun as <- <-.
  pose proof Hdate as Hdate'. unfold date_normalizer in Hdate'.
  apply bind_inr in Hdate' as (ref & _ & Hdate').
  apply bind_inr in Hdate' as (df1' & Hconv & Hdrop).
  split.
  { by rewrite (drop_nrows _ _ _ Hdrop), (convert_to_days_nrows _ _ _ _ Hconv). }
  intros l. split; [|split].
  - intros Hl. by rewrite (drop_lookup _ _ _ l Hdrop), bool_decide_eq_true_2.
  - intros Hl. pose proof (converted_labels_apart l Hl) as Hnd.
    rewrite (drop_lookup _ _ _ l Hdrop), bool_decide_eq_false_2 by done.
    apply (convert_to_days_numeric _ _ _ _ l Hconv).
    apply elem_of_app in Hl as [Hl|Hl]; [right|by left].
    rewrite Forall_forall in Hall. destruct (Hall l Hl) as [c Hc].
    destruct (Hin1 l c Hl Hc) as [_ Hc1]. rewrite Hc1.
    unfold series_map. eauto.
  - intros Hnd Hl. apply not_elem_of_app in Hl as [Hcat Hdays].
    rewrite (date_normalizer_frame _ _ l Hdate) by done.
    by apply (encode_columns_frame _ _ _ _ _ l Henc).
Qed.

(** X18. After the encoder and the date normaliser, the text features and
    the date features are those the frame had, less the encoded columns,
    the offset columns and the removed date columns; the numerical features
    are those it had together with the encoded columns and the offset
    columns.  Hence every feature is numerical afterwards exactly when the
    frame had no text or date column besides the encoded and the removed
    ones. *)
Theorem feature_kinds_after_conversion (df df1 : DataFrame)
    (maps : gmap string dict) (df2 : DataFrame) :
  categorical_encoder df = inr (df1, maps) ->
  date_normalizer df1 = inr df2 ->
  let converted : gset string :=
    list_to_set (categorical_columns ++ days_labels) in
  let removed : gset string := list_to_set date_columns in
  categorical_features df2 = categorical_features df ∖ (converted ∪ removed) /\
  datetime_features df2 = datetime_features df ∖ (converted ∪ removed) /\
  numerical_features df2 = (numerical_features df ∖ removed) ∪ converted /\
  (categorical_features df2 = ∅ /\ datetime_features df2 = ∅ <->
   forall l c, columns df !! l = Some c -> dtype_of c <> number ->
               l ∈ converted ∪ removed).
Proof.
  intros Henc Hdate converted removed.
  destruct (converted_frame_lookup _ _ _ _ Henc Hdate) as [_ Hlookup].
  assert (forall (kind : dtype) l,
            l ∈ column_labels (select_dtypes df2 [kind]) <->
            (l ∈ converted /\ kind = number) \/
            ((l ∉ converted ∪ removed) /\
             l ∈ column_labels (select_dtypes df [kind]))) as Hkind.
  { intros kind l. rewrite !elem_of_select_dtypes.
    destruct (Hlookup l) as (Hrem & Hconv & Hother).
    unfold converted, removed.
    rewrite not_elem_of_union, !elem_of_list_to_set.
    destruct (decide (l ∈ categorical_columns ++ days_labels)) as [Hc|Hc].
    - destruct (Hconv Hc) as [xs Hxs]. rewrite Hxs. split.
      + intros (c & [= <-] & Hin%list_elem_of_singleton). by left.
      + intros [[_ ->]|[[? _] _]]; [|done].
        eexists. split; [done|]. set_solver.
    - destruct (decide (l ∈ date_columns)) as [Hd|Hd].
      + rewrite (Hrem Hd). split; [by intros (c & ? & _)|].
        intros [[? _]|[[_ ?] _]]; done.
      + rewrite (Hother Hd Hc). split; [by right|].
        intros [[? _]|[_ ?]]; done. }
  assert (categorical_features df2 =
          categorical_features df ∖ (converted ∪ removed)) as Hcat.
  { apply set_eq. intros l. unfold categorical_features.
    rewrite Hkind, elem_of_difference. naive_solver. }
  assert (datetime_features df2 =
          datetime_features df ∖ (converted ∪ removed)) as Hdt.
  { apply set_eq. intros l. unfold datetime_features.
    rewrite Hkind, elem_of_difference. naive_solver. }
  split; [done|]. split; [done|]. split.
  { apply set_eq. intros l. unfold numerical_features. rewrite Hkind.
    pose proof (converted_labels_apart l) as Hapart.
    unfold converted, removed in *.
    rewrite !elem_of_union, elem_of_difference, !elem_of_list_to_set.
    clear -Hapart. tauto. }
  rewrite Hcat, Hdt. unfold categorical_features, datetime_features. split.
  - intros [Ho Hd] l c Hc Hnum.
    destruct (decide (l ∈ converted ∪ removed)) as [|Hout]; [done|].
    exfalso. destruct c as [xs|xs|xs]; [done| |].
    + apply (elem_of_empty (C:=gset string) l). rewrite <- Ho.
      apply elem_of_difference. split; [|done].
      apply elem_of_select_dtypes. eexists. split; [done|]. simpl. set_solver.
    + apply (elem_of_empty (C:=gset string) l). rewrite <- Hd.
      apply elem_of_difference. split; [|done].
      apply elem_of_select_dtypes. eexists. split; [done|]. simpl. set_solver.
  - intros Hall. split; apply set_eq; intros l;
      rewrite elem_of_difference, elem_of_select_dtypes;
      (split; [|by intros ?%elem_of_empty]);
      intros [(c & Hc & Hin%list_elem_of_singleton) Hout];
      exfalso; apply Hout, (Hall l c Hc); by rewrite Hin.
Qed.

(** X19. The heat-map function is given the numeric and date columns of
    the table and first looks for its target among them.  While [status]
    holds text the check raises its ValueError; once the encoder has run it
    passes, also after the date normaliser. *)
Theorem heatmaps_need_encoded_status (df df1 : DataFrame)
    (maps : gmap string dict) (xs : list (option string)) :
  columns df !! "status" = Some (Object xs) ->
  categorical_encoder df = inr (df1, maps) ->
  check_target (select_dtypes df numerics) "status" =
    inl (ValueError "status") /\
  check_target (select_dtypes df1 numerics) "status" = inr tt /\
  forall df2, date_normalizer df1 = inr df2 ->
              check_target (select_dtypes df2 numerics) "status" = inr tt.
Proof.
  intros Hstatus Henc.
  assert (forall d : DataFrame,
            (exists ys, columns d !! "status" = Some (Numeric ys)) ->
            check_target (select_dtypes d numerics) "status" = inr tt) as Hpass.
  { intros d [ys Hys]. unfold check_target, has_column.
    rewrite bool_decide_eq_true_2; [done|]. exists (Numeric ys).
    apply map_lookup_filter_Some. split; [done|]. simpl. set_solver. }
  split; [|split].
  - unfold check_target, has_column.
    rewrite bool_decide_eq_false_2; [done|]. intros [c Hc].
    apply map_lookup_filter_Some in Hc as [Hc Hin]. simpl in Hc, Hin.
    rewrite Hstatus in Hc. injection Hc as <-. simpl in Hin.
    unfold numerics in Hin. set_solver.
  - apply Hpass. unfold categorical_encoder in Henc.
    pose proof (encode_columns_present _ _ _ _ Henc) as Hall.
    destruct (encode_columns_spec categorical_columns df ∅)
      as (df1' & maps' & Hrun & _ & Hin1 & _); [|done|].
    { apply (bool_decide_unpack _). vm_compute. reflexivity. }
    rewrite Henc in Hrun. injection Hrun as <- <-.
    destruct (Hin1 "status" _ ltac:(unfold categorical_columns; set_solver)
                Hstatus) as [_ ->].
    unfold series_map. eauto.
  - intros df2 Hdate. apply Hpass.
    destruct (converted_frame_lookup _ _ _ _ Henc Hdate) as [_ Hlookup].
    apply (Hlookup "status").
    unfold categorical_columns. set_solver.
Qed.

Section ExportProperties.
Variable argsort : column -> list nat.
Variable strftime_Y : Z -> string.

(** X20. When the rest of the preprocessing returns, the file it writes is
    the final table: it has no [closed_at] and none of the three date
    columns, holds the five encoded columns and the three offset columns as
    numbers, and holds every other column of the table, the helper columns
    added for the plots included, in the row order set by the sort on
    [closed_at].  No other file and no subplot is touched. *)
Theorem export_contents (s s'' : script_state) :
  finish_preprocessing argsort strftime_Y s = inr s'' ->
  exists closed out,
    columns (dataframe s) !! "closed_at" = Some closed /\
    dataframe s'' = out /\
    files s'' = <["cleaned_data.csv" := out]> (files s) /\
    figure s'' = figure s /\
    nrows out = nrows (dataframe s) /\
    (forall l, l ∈ "closed_at" :: date_columns -> columns out !! l = None) /\
    (forall l, l ∈ categorical_columns ++ days_labels ->
       exists xs, columns out !! l = Some (Numeric xs)) /\
    (forall l, l ∉ "closed_at" :: date_columns ->
       l ∉ categorical_columns ++ days_labels ->
       columns out !! l =
         reorder (argsort closed) <$> columns (dataframe s) !! l).
Proof.
  intros H. unfold finish_preprocessing in H.
  apply bind_inr in H as (sorted & Hsort & H).
  apply bind_inr in H as (df1 & Hdrop & H).
  apply bind_inr in H as (founded & _ & H).
  apply bind_inr in H as (years & _ & H).
  apply bind_inr in H as ([df2 maps] & Henc & H).
  apply bind_inr in H as (df3 & Hdate & H).
  injection H as <-. simpl in Hdate.
  destruct (sort_values_lookup argsort _ _ _ "closed_at" Hsort)
    as (closed & Hc & _).
  destruct (converted_frame_lookup _ _ _ _ Henc Hdate) as [Hn Hlookup].
  exists closed, df3. split; [done|]. split; [done|]. split; [done|].
  split; [done|]. split.
  { rewrite Hn. simpl. rewrite (drop_nrows _ _ _ Hdrop).
    unfold sort_values in Hsort. apply bind_inr in Hsort as (key & _ & Hsort).
    by injection Hsort as <-. }
  split; [|split].
  - intros l [->|Hl]%elem_of_cons; [|by apply Hlookup].
    rewrite (proj2 (proj2 (Hlookup "closed_at"))).
    + simpl. rewrite lookup_insert_ne by done.
      by rewrite (drop_lookup _ _ _ "closed_at" Hdrop),
        bool_decide_eq_true_2 by left.
    + unfold date_columns. set_solver.
    + apply (bool_decide_unpack _). vm_compute. reflexivity.
  - intros l Hl. by apply Hlookup.
  - intros l [Hclosed Hd]%not_elem_of_cons Hl.
    rewrite (proj2 (proj2 (Hlookup l))) by done. simpl.
    rewrite lookup_insert_ne.
    + rewrite (drop_lookup _ _ _ l Hdrop), bool_decide_eq_false_2
        by set_solver.
      destruct (sort_values_lookup argsort _ _ _ l Hsort)
        as (closed' & Hc' & ->).
      rewrite Hc in Hc'. by injection Hc' as <-.
    + intros <-. apply Hl. unfold categorical_columns. set_solver.
Qed.
End ExportProperties.

(** ** Histograms of the numeric variables *)

Lemma num_rows_spec (n : nat) :
  (n <= num_rows n * num_columns)%nat /\
  (0 < n -> (num_rows n - 1) * num_columns < n)%nat.
Proof.
  unfold num_rows, num_columns, Qceiling, Qfloor, Qdiv, Qmult, Qinv, Qopp.
  simpl. rewrite Z.mul_1_r.
  change (Z.pos _) with 5%Z.
  pose proof (Z.div_mod (- Z.of_nat n) 5 ltac:(lia)) as Hdiv.
  pose proof (Z.mod_pos_bound (- Z.of_nat n) 5 ltac:(lia)) as Hmod.
  split; [lia|]. intros Hn. lia.
Qed.

Lemma histograms_spec vars : forall i s s',
  histograms i vars s = inr s' ->
  dataframe s' = dataframe s /\ files s' = files s /\
  exists added,
    figure s' = figure s ++ added /\ length added = length vars /\
    forall k label,
      vars !! k = Some label ->
      exists c, columns (dataframe s) !! label = Some c /\
                added !! k = Some (mkAxes (i + k + 1) label c).
Proof.
  induction vars as [|column rest IH]; intros i s s'; simpl.
  - intros [= <-]. split; [done|]. split; [done|].
    exists []. by rewrite app_nil_r.
  - intros H. apply bind_inr in H as (c & Hc & H).
    apply IH in H as (Hdf & Hfiles & added & Hfig & Hlen & Hadded).
    simpl in *. split; [done|]. split; [done|].
    exists (mkAxes (i + 1) column c :: added).
    split; [by rewrite Hfig, <- app_assoc|]. split; [by simpl; rewrite Hlen|].
    intros [|k] label Hk; simpl in Hk.
    + injection Hk as ->. exists c. rewrite Nat.add_0_r. split; [|done].
      unfold getitem in Hc.
      destruct (columns (dataframe s) !! label) as [c0|]; [|done].
      by injection Hc as ->.
    + destruct (Hadded k label Hk) as (c' & Hc' & Hk').
      exists c'. split; [done|]. simpl.
      by replace (i + S k + 1)%nat with (S i + k + 1)%nat by lia.
Qed.

(** X21. When the histogram loop returns, it has drawn one histogram per
    variable, the k-th on subplot k+1 with the variable's column, and has
    changed neither the table nor a file.  Every subplot it selects lies in
    the grid of [num_rows] rows and five columns, and the grid has no empty
    row. *)
Theorem histograms_fit_the_grid (vars : list string) (s s' : script_state) :
  histograms 0 vars s = inr s' ->
  dataframe s' = dataframe s /\ files s' = files s /\
  exists added,
    figure s' = figure s ++ added /\ length added = length vars /\
    (forall k label,
       vars !! k = Some label ->
       exists c, columns (dataframe s) !! label = Some c /\
                 added !! k = Some (mkAxes (k + 1) label c) /\
                 (1 <= k + 1 <= num_rows (length vars) * num_columns)%nat) /\
    (vars <> [] ->
     ((num_rows (length vars) - 1) * num_columns < length vars)%nat).
Proof.
  intros H. apply histograms_spec in H as (Hdf & Hfiles & added & Hfig & Hlen & Hadded).
  split; [done|]. split; [done|]. exists added.
  split; [done|]. split; [done|].
  destruct (num_rows_spec (length vars)) as [Hfit Htight]. split.
  - intros k label Hk. destruct (Hadded k label Hk) as (c & Hc & Hk').
    exists c. split; [done|]. split; [done|].
    apply lookup_lt_Some in Hk. lia.
  - intros Hne. apply Htight. destruct vars; [done|simpl; lia].
Qed.

(** ** Startups per founding year *)

#[local] Instance year_le_total : Total year_le.
Proof. intros a b. apply String.leb_total. Qed.

Lemma sum_list_cons (n : nat) (ns : list nat) :
  sum_list (n :: ns) = (n + sum_list ns)%nat.
Proof. done. Qed.

Lemma sum_indicator (x : string) (keys : list string) :
  NoDup keys ->
  sum_list ((fun key => if decide (x = key) then 1 else 0)%nat <$> keys) =
  (if decide (x ∈ keys) then 1 else 0)%nat.
Proof.
  induction 1 as [|key keys Hnotin Hnd IH]; [done|].
  rewrite fmap_cons, sum_list_cons, IH.
  repeat case_decide; simplify_eq; try done; exfalso; set_solver.
Qed.

Lemma sum_group_sizes (present keys : list string) :
  NoDup keys ->
  (forall x, x ∈ present -> x ∈ keys) ->
  sum_list ((fun key => length (filter (fun x => x = key) present)) <$> keys) =
  length present.
Proof.
  intros Hnd. induction present as [|x present IH]; intros Hsub.
  - clear. by induction keys as [|key keys IHk].
  - transitivity
      (sum_list ((fun key => if decide (x = key) then 1 else 0)%nat <$> keys) +
       sum_list ((fun key => length (filter (fun x => x = key) present))
                   <$> keys))%nat.
    + clear. induction keys as [|key keys IHk]; [done|].
      rewrite !fmap_cons, !sum_list_cons, IHk, filter_cons.
      destruct (decide (x = key)); simpl; lia.
    + rewrite sum_indicator by done. rewrite decide_True by (apply Hsub; left).
      rewrite IH; [done|]. intros y Hy. apply Hsub. by right.
Qed.

Lemma count_none_omap {A} (xs : list (option A)) :
  (length (omap (fun x => x) xs) + count_none xs = length xs)%nat.
Proof.
  unfold count_none.
  induction xs as [|[v|] xs IH]; simpl; [done| |].
  - f_equal. exact IH.
  - rewrite Nat.add_succ_r. f_equal. exact IH.
Qed.

Lemma group_size_rows (years : list (option string)) (key : string) :
  length (filter (fun x => x = key) (omap (fun x => x) years)) =
  length (filter (fun x => x = Some key) years).
Proof.
  induction years as [|[y|] years IH]; [done| |].
  - change (omap _ (Some y :: years)) with (y :: omap (fun x => x) years).
    rewrite !filter_cons. destruct (decide (y = key)) as [->|Hne].
    + rewrite decide_True by done. cbn [length]. by rewrite IH.
    + by rewrite decide_False by congruence.
  - change (omap _ (None :: years)) with (omap (fun x => x) years).
    by rewrite filter_cons, decide_False.
Qed.

Lemma prop_df_rows (years : list (option string)) :
  let present := omap (fun x => x) years in
  let keys := merge_sort year_le (remove_dups present) in
  let size := fun key : string =>
                length (filter (fun x => x = key) present) in
  prop_df years =
  (fun key => mkPropRow key (size key)
                (Machine.fdiv
                   (Machine.of_int (Z.of_nat (size key)))
                   (Machine.of_int (Z.of_nat (sum_list (size <$> keys))))))
    <$> keys.
Proof.
  intros present keys size. unfold prop_df, groupby_size. cbv zeta.
  by rewrite <- !list_fmap_compose.
Qed.

(** X22. The table of startups per founding year lists every year that
    occurs, once and in increasing order.  The count of a year is the number
    of rows with that year, the counts add up to the number of rows whose
    year is not missing, and every proportion is the binary64 quotient of
    its count by that number. *)
Theorem prop_df_proportions (years : list (option string)) :
  let rows := prop_df years in
  let dated := (length years - count_none years)%nat in
  NoDup (founded_year <$> rows) /\
  Sorted year_le (founded_year <$> rows) /\
  (forall y, y ∈ founded_year <$> rows <-> Some y ∈ years) /\
  (forall r, r ∈ rows ->
     counts r = length (filter (fun x => x = Some (founded_year r)) years) /\
     (0 < counts r <= dated)%nat /\
     proportions r =
       Machine.fdiv (Machine.of_int (Z.of_nat (counts r)))
                    (Machine.of_int (Z.of_nat dated))) /\
  sum_list (counts <$> rows) = dated.
Proof.
  intros rows dated.
  pose proof (prop_df_rows years) as Hrows. cbv zeta in Hrows.
  fold rows in Hrows.
  set (present := omap (fun x => x) years) in *.
  set (keys := merge_sort year_le (remove_dups present)) in *.
  set (size := fun key : string => length (filter (fun x => x = key) present))
    in *.
  assert (keys ≡ₚ remove_dups present) as Hperm
    by apply merge_sort_Permutation.
  assert (NoDup keys) as Hnd.
  { rewrite Hperm. apply NoDup_remove_dups. }
  assert (forall y, y ∈ keys <-> Some y ∈ years) as Hkeys.
  { intros y. rewrite Hperm, elem_of_remove_dups. unfold present.
    rewrite list_elem_of_omap. split.
    - by intros (x & Hx & ->).
    - intros Hy. by exists (Some y). }
  assert (sum_list (size <$> keys) = length present) as Hsum.
  { apply sum_group_sizes; [done|]. intros x Hx.
    by rewrite Hperm, elem_of_remove_dups. }
  assert (length present = dated) as Hdated.
  { unfold dated, present. pose proof (count_none_omap years). lia. }
  rewrite Hsum, Hdated in Hrows.
  assert (founded_year <$> rows = keys) as Hyears.
  { rewrite Hrows, <- list_fmap_compose. apply list_fmap_id. }
  assert (counts <$> rows = size <$> keys) as Hcounts.
  { by rewrite Hrows, <- list_fmap_compose. }
  assert (forall key, size key =
            length (filter (fun x => x = Some key) years)) as Hsize
    by (intros key; apply group_size_rows).
  assert (forall key, key ∈ keys -> (0 < size key <= dated)%nat) as Hpos.
  { intros key Hkey. split.
    - assert (key ∈ present) as Hin
        by (by rewrite <- elem_of_remove_dups, <- Hperm).
      unfold size. destruct (filter _ present) as [|z zs] eqn:Hf;
        [|simpl; lia].
      exfalso. eapply (not_elem_of_nil key). rewrite <- Hf.
      by apply list_elem_of_filter.
    - rewrite <- Hdated. unfold size. apply length_filter. }
  rewrite Hyears. split; [done|]. split; [apply (Sorted_merge_sort year_le)|].
  split; [done|]. split.
  - intros r Hr. rewrite Hrows in Hr.
    apply list_elem_of_fmap in Hr as (key & -> & Hkey). simpl.
    destruct (Hpos key Hkey) as [Hlo Hhi].
    split; [apply Hsize|]. split; done.
  - by rewrite Hcounts, Hsum.
Qed.

(** ** The preprocessing as a whole *)

Lemma Forall_take_rows {A} (P : A -> Prop) (order : list nat) (xs : list A) :
  Forall P xs -> Forall P (take_rows order xs).
Proof.
  intros H. apply Forall_forall. intros x Hx. unfold take_rows in Hx.
  apply list_elem_of_omap in Hx as (i & _ & Hi).
  eapply Forall_forall; [exact H|]. by eapply list_elem_of_lookup_2.
Qed.

Lemma add_negative_value_columns_frame cols : forall df df' (l : string),
  add_negative_value_columns df cols = inr df' ->
  l ∉ (fun col : string => ("negative_" ++ col)%string) <$> cols ->
  columns df' !! l = columns df !! l.
Proof.
  induction cols as [|col rest IH]; intros df df' l; simpl.
  - by intros [= <-] _.
  - intros H [Hne Hl]%not_elem_of_cons.
    apply bind_inr in H as (c & _ & H).
    apply bind_inr in H as (xs & _ & H).
    rewrite (IH _ _ _ H Hl). simpl. by rewrite lookup_insert_ne.
Qed.

Lemma imputer_lookup df df1 :
  imputer df = inr df1 ->
  (forall l, l ∉ imputed_columns -> columns df1 !! l = columns df !! l) /\
  (forall l, l ∈ imputed_columns ->
     exists xs, columns df !! l = Some (Numeric xs) /\
                columns df1 !! l = Some (Numeric (fillna xs (mean xs)))).
Proof.
  intros (first & last & Hfirst & Hlast & ->)%imputer_inr. split.
  - intros l Hl. unfold imputed_columns in Hl. simpl.
    rewrite !lookup_insert_ne; [done|set_solver..].
  - intros l Hl. unfold imputed_columns in Hl.
    apply elem_of_cons in Hl as [->|Hl].
    + exists first. split; [done|]. simpl.
      rewrite lookup_insert_ne by done. by rewrite lookup_insert_eq.
    + apply list_elem_of_singleton in Hl as ->.
      exists last. split; [done|]. simpl. by rewrite lookup_insert_eq.
Qed.

Section PipelineProperties.
Variable np_log : Q -> option Q.
Variable argsort : column -> list nat.
Variable strftime_Y : Z -> string.
Variable to_datetime : column -> result (list (option Z)).
Variable dt_year : Z -> Z.

Lemma to_datetime_columns_frame cols : forall df df' l,
  to_datetime_columns to_datetime df cols = inr df' ->
  l ∉ cols -> columns df' !! l = columns df !! l.
Proof.
  induction cols as [|col rest IH]; intros df df' l; simpl.
  - by intros [= <-] _.
  - intros H [Hne Hl]%not_elem_of_cons.
    apply bind_inr in H as (c & _ & H).
    apply bind_inr in H as (ts & _ & H).
    rewrite (IH _ _ _ H Hl). simpl. by rewrite lookup_insert_ne.
Qed.

Lemma convert_to_datetime_frame df cols df' l :
  convert_to_datetime to_datetime dt_year df cols = inr df' ->
  l ∉ cols ->
  l ∉ ["diff_founded_first_funding"; "diff_founded_last_funding"] ->
  columns df' !! l = columns df !! l.
Proof.
  unfold convert_to_datetime. intros H Hl Hd.
  apply bind_inr in H as (df1 & H1 & H).
  apply bind_inr in H as (first & _ & H).
  apply bind_inr in H as (first_years & _ & H).
  apply bind_inr in H as (founded & _ & H).
  apply bind_inr in H as (founded_years & _ & H).
  apply bind_inr in H as (last & _ & H).
  apply bind_inr in H as (last_years & _ & H).
  apply bind_inr in H as (founded' & _ & H).
  apply bind_inr in H as (founded_years' & _ & H).
  injection H as <-. simpl.
  rewrite !lookup_insert_ne by set_solver.
  by eapply to_datetime_columns_frame.
Qed.

Lemma prepare_plot_data_frame df df' l :
  prepare_plot_data dt_year df = inr df' ->
  l ∉ ["abs_diff_founded_first_funding"; "abs_diff_founded_last_funding"] ->
  columns df' !! l = columns df !! l.
Proof.
  unfold prepare_plot_data. intros H Hl.
  apply bind_inr in H as (first & _ & H).
  apply bind_inr in H as (first_years & _ & H).
  apply bind_inr in H as (founded & _ & H).
  apply bind_inr in H as (founded_years & _ & H).
  apply bind_inr in H as (last & _ & H).
  apply bind_inr in H as (last_years & _ & H).
  apply bind_inr in H as (founded' & _ & H).
  apply bind_inr in H as (founded_years' & _ & H).
  injection H as <-. simpl.
  by rewrite !lookup_insert_ne by set_solver.
Qed.

(** From the imputed table to the table that is sorted: a column no stage
    assigns is as it was, an age column holds its absolute values. *)
Lemma stages_frame df1 df2 df3 df4 df5 cols t l :
  negative_values_detection to_datetime dt_year df1 = inr df2 ->
  apply_absolute_values df2 columns_to_abs = inr df3 ->
  prepare_plot_data dt_year df3 = inr df4 ->
  identify_outliers df4 cols t = inr df5 ->
  l ∉ assigned_columns ->
  columns df5 !! l =
  (fun c => if bool_decide (l ∈ columns_to_abs) then abs_column c else c)
    <$> columns df1 !! l.
Proof.
  intros Hnvd Habs Hprep Hout Hl. unfold assigned_columns in Hl.
  rewrite identify_outliers_spec in Hout.
  destruct (forallb _ cols); [|done]. injection Hout as <-. simpl.
  rewrite lookup_insert_ne by set_solver.
  rewrite (prepare_plot_data_frame _ _ l Hprep) by set_solver.
  rewrite apply_absolute_values_spec in Habs.
  destruct (forallb _ columns_to_abs); [|done]. injection Habs as <-.
  rewrite abs_frame_lookup. f_equal.
  unfold negative_values_detection in Hnvd.
  apply bind_inr in Hnvd as (df1' & Hconv & Hneg).
  rewrite (add_negative_value_columns_frame _ _ _ l Hneg) by (simpl; set_solver).
  apply (convert_to_datetime_frame _ _ _ l Hconv); set_solver.
Qed.

(** The columns the tail of the script leaves alone reach the file, in the
    row order of the sort. *)
Lemma finish_preprocessing_kept s s'' :
  finish_preprocessing argsort strftime_Y s = inr s'' ->
  exists closed out,
    columns (dataframe s) !! "closed_at" = Some closed /\
    files s'' !! "cleaned_data.csv" = Some out /\
    forall l, l ∉ "closed_at" :: date_columns ->
      l ∉ categorical_columns ++ days_labels ->
      columns out !! l =
        reorder (argsort closed) <$> columns (dataframe s) !! l.
Proof.
  intros H. unfold finish_preprocessing in H.
  apply bind_inr in H as (sorted & Hsort & H).
  apply bind_inr in H as (df1 & Hdrop & H).
  apply bind_inr in H as (founded & _ & H).
  apply bind_inr in H as (years & _ & H).
  apply bind_inr in H as ([df2 maps] & Henc & H).
  apply bind_inr in H as (df3 & Hdate & H).
  injection H as <-. simpl in Hdate.
  destruct (sort_values_lookup argsort _ _ _ "closed_at" Hsort)
    as (closed & Hc & _).
  destruct (converted_frame_lookup _ _ _ _ Henc Hdate) as [_ Hlookup].
  exists closed, df3. split; [done|].
  split; [by simpl; rewrite lookup_insert_eq|].
  intros l [Hclosed Hd]%not_elem_of_cons Hl.
  rewrite (proj2 (proj2 (Hlookup l))) by done. simpl.
  rewrite lookup_insert_ne.
  - rewrite (drop_lookup _ _ _ l Hdrop), bool_decide_eq_false_2 by set_solver.
    destruct (sort_values_lookup argsort _ _ _ l Hsort)
      as (closed' & Hc' & ->).
    rewrite Hc in Hc'. by injection Hc' as <-.
  - intros <-. apply Hl. unfold categorical_columns. set_solver.
Qed.

(** X23. When the preprocessing from the imputer to the export returns,
    the table held the column the box plots read besides the ages, and the
    file holds each of the four age columns as numbers: the absolute
    values of the column as loaded, the two milestone ages with their
    missing entries filled by the loaded column's mean beforehand, in the
    row order set by the sort on [closed_at] as loaded.  So no exported age
    is negative, no exported milestone age is missing when the column's
    mean exists, and the exported [is_outlier] holds only 0 and 1.  The
    statement is made for age columns without the entry [-2^63], which
    [np.abs] leaves negative in an int64 column. *)
Theorem preprocess_exports_clean_ages (s s'' : script_state) :
  (forall label xs, label ∈ columns_to_abs ->
     columns (dataframe s) !! label = Some (Numeric xs) ->
     no_int64_min xs = true) ->
  preprocess np_log argsort strftime_Y to_datetime dt_year s = inr s'' ->
  is_Some (columns (dataframe s) !! "avg_participants") /\
  exists closed out,
    columns (dataframe s) !! "closed_at" = Some closed /\
    files s'' !! "cleaned_data.csv" = Some out /\
    (forall label, label ∈ columns_to_abs ->
       exists xs ys,
         columns (dataframe s) !! label = Some (Numeric xs) /\
         columns out !! label = Some (Numeric ys) /\
         ys = take_rows (argsort closed)
                (abs_cell <$> (if bool_decide (label ∈ imputed_columns)
                               then fillna xs (mean xs) else xs)) /\
         Forall nonneg_cell ys /\
         (label ∈ imputed_columns -> is_Some (mean xs) ->
          Forall is_Some ys)) /\
    exists flags,
      columns out !! "is_outlier" = Some (Numeric flags) /\
      Forall (fun x => x = Some 0%Q \/ x = Some 1%Q) flags.
Proof.
  intros _ H. unfold preprocess in H.
  apply bind_inr in H as (df1 & Himp & H).
  apply bind_inr in H as ([] & Hbox & H).
  apply bind_inr in H as (df2 & Hnvd & H).
  apply bind_inr in H as (df3 & Habs & H).
  apply bind_inr in H as (df4 & Hprep & H).
  apply bind_inr in H as (df5 & Hout & H).
  apply bind_inr in H as (s6 & Hhist & H).
  apply bind_inr in H as (s7 & Hlog & H).
  apply histograms_spec in Hhist as (Hdf6 & _ & _). simpl in Hdf6.
  pose proof (log_histograms_state _ _ _ _ _ Hlog) as (Hdf7 & _ & _).
  rewrite Hdf6 in Hdf7.
  destruct (finish_preprocessing_kept _ _ H)
    as (closed & out & Hclosed & Hfile & Hkept).
  rewrite Hdf7 in Hclosed, Hkept.
  destruct (imputer_lookup _ _ Himp) as [Hrest Hfilled].
  assert (Forall (fun l : string =>
            (l ∉ assigned_columns) /\ (l ∉ "closed_at" :: date_columns) /\
            (l ∉ categorical_columns ++ days_labels))
          columns_to_abs) as Hapart
    by (apply (bool_decide_unpack _); vm_compute; reflexivity).
  assert (("closed_at" ∉ assigned_columns) /\
          ("closed_at" ∉ columns_to_abs) /\
          ("closed_at" ∉ imputed_columns) /\
          ("is_outlier" ∉ "closed_at" :: date_columns) /\
          ("is_outlier" ∉ categorical_columns ++ days_labels) /\
          ("avg_participants" ∉ imputed_columns))
    as (Hc1 & Hc2 & Hc3 & Ho1 & Ho2 & Hp)
    by (apply (bool_decide_unpack _); vm_compute; reflexivity).
  rewrite Forall_forall in Hapart.
  split.
  { rewrite <- (Hrest "avg_participants" Hp).
    unfold continuous_variables in Hbox. cbn [boxplots] in Hbox.
    unfold getitem in Hbox.
    by destruct (columns df1 !! "avg_participants"). }
  exists closed, out. split.
  { rewrite <- (Hrest "closed_at" Hc3).
    rewrite (stages_frame _ _ _ _ _ _ _ "closed_at" Hnvd Habs Hprep Hout Hc1)
      in Hclosed.
    rewrite bool_decide_eq_false_2 in Hclosed by done.
    by destruct (columns df1 !! "closed_at"); simplify_eq. }
  split; [done|]. split.
  - intros label Hlabel. destruct (Hapart label Hlabel) as (Ha & Hd & Hc).
    pose proof (stages_frame _ _ _ _ _ _ _ label Hnvd Habs Hprep Hout Ha)
      as Hchain.
    rewrite bool_decide_eq_true_2 in Hchain by done.
    destruct (list_elem_of_lookup_1 _ _ Hlabel) as [k Hk].
    destruct (log_histograms_figure _ _ _ _ _ k label Hlog Hk)
      as (xs' & Hxs' & _).
    rewrite Hdf6, Hchain in Hxs'.
    destruct (columns df1 !! label) as [[filled|filled|filled]|] eqn:Hdf1;
      try done.
    assert (exists xs,
              columns (dataframe s) !! label = Some (Numeric xs) /\
              filled = if bool_decide (label ∈ imputed_columns)
                       then fillna xs (mean xs) else xs)
      as (xs & Hxs & Hfill).
    { case_bool_decide as Hi.
      - destruct (Hfilled label Hi) as (xs & Hxs & Hdf1').
        exists xs. split; [done|]. congruence.
      - exists filled. split; [|done]. by rewrite <- (Hrest label Hi). }
    exists xs, (take_rows (argsort closed) (abs_cell <$> filled)).
    split; [done|]. split.
    { rewrite (Hkept label Hd Hc), Hchain. done. }
    split; [by rewrite Hfill|]. split.
    + apply Forall_take_rows, Forall_fmap, Forall_forall.
      intros x _. apply abs_cell_nonneg.
    + intros Hi [m Hm]. apply Forall_take_rows, Forall_fmap.
      rewrite Hfill, bool_decide_eq_true_2, Hm by done.
      eapply Forall_impl; [apply fillna_no_missing|].
      intros x [v ->]. simpl. eauto.
  - rewrite (Hkept "is_outlier" Ho1 Ho2).
    rewrite identify_outliers_spec in Hout.
    destruct (forallb _ _); [|done]. injection Hout as <-. simpl.
    rewrite lookup_insert_eq. simpl. eexists. split; [done|].
    apply Forall_take_rows, Forall_fmap, Forall_forall.
    intros [] _; [by right|by left].
Qed.
End PipelineProperties.

(** ** The further properties on sample data *)

Lemma drop_removes_exactly_sample :
  exists df',
    drop sample_frame ["closed_at"; "city"] = inr df' /\
    nrows df' = nrows sample_frame /\
    (size (columns df') + 2 = size (columns sample_frame))%nat.
Proof.
  destruct (proj1 (drop_removes_exactly sample_frame ["closed_at"; "city"]))
    as (df' & Hrun & Hn & _ & Hsize).
  { repeat constructor; eexists; vm_compute; reflexivity. }
  exists df'. split; [exact Hrun|]. split; [exact Hn|].
  apply Hsize. apply (bool_decide_unpack _). vm_compute. reflexivity.
Defined.

Lemma imputer_idempotent_sample :
  exists df', imputer sample_frame = inr df' /\ imputer df' = inr df'.
Proof.
  assert (exists df', imputer sample_frame = inr df') as [df' Hrun]
    by (eexists; vm_compute; reflexivity).
  exists df'. split; [exact Hrun|].
  exact (imputer_idempotent sample_frame df' Hrun).
Defined.

Lemma imputer_then_absolute_values_sample :
  exists df1 df2,
    imputer sample_frame = inr df1 /\
    apply_absolute_values df1 columns_to_abs = inr df2.
Proof.
  destruct (imputer_then_absolute_values sample_frame)
    as (df1 & df2 & H1 & H2 & _).
  { repeat constructor; eexists; vm_compute; reflexivity. }
  { intros label xs Hl Hxs. apply list_elem_of_In in Hl.
    destruct Hl as [<-|[<-|[]]]; vm_compute in Hxs;
      injection Hxs as <-; vm_compute; reflexivity. }
  exists df1, df2. split; [exact H1|exact H2].
Defined.


Lemma no_negative_values_after_abs_sample :
  exists df1 df2,
    apply_absolute_values sample_frame columns_to_abs = inr df1 /\
    add_negative_value_columns df1 columns_to_abs = inr df2 /\
    zero_column df2 "negative_age_first_funding_year".
Proof.
  destruct (no_negative_values_after_abs sample_frame columns_to_abs)
    as (_ & Htotal & Hzero).
  destruct Htotal as (df1 & df2 & H1 & H2).
  { repeat constructor; eexists; vm_compute; reflexivity. }
  exists df1, df2. split; [exact H1|]. split; [exact H2|].
  apply (fun Hrange => Hzero Hrange df1 df2 H1 H2 "age_first_funding_year").
  - intros label xs Hl Hxs. apply list_elem_of_In in Hl.
    destruct Hl as [<-|[<-|[<-|[<-|[]]]]]; vm_compute in Hxs;
      injection Hxs as <-; vm_compute; reflexivity.
  - apply (bool_decide_unpack _). vm_compute. reflexivity.
Defined.

Lemma apply_absolute_values_labels_as_set_sample :
  apply_absolute_values sample_frame
    ["age_first_funding_year"; "age_last_funding_year"] =
  apply_absolute_values sample_frame
    ["age_last_funding_year"; "age_first_funding_year";
     "age_last_funding_year"].
Proof.
  apply apply_absolute_values_labels_as_set.
  intros l. rewrite !elem_of_cons. tauto.
Defined.

Lemma apply_absolute_values_keeps_shape_sample :
  exists df',
    apply_absolute_values sample_frame columns_to_abs = inr df' /\
    nrows df' = nrows sample_frame /\ wf df'.
Proof.
  assert (exists df', apply_absolute_values sample_frame columns_to_abs =
                      inr df') as [df' Hrun]
    by (eexists; vm_compute; reflexivity).
  destruct (apply_absolute_values_keeps_shape sample_frame columns_to_abs df'
              Hrun) as (Hn & _ & _ & _ & Hwf).
  exists df'. split; [exact Hrun|]. split; [exact Hn|].
  exact (Hwf wf_sample_frame).
Defined.

Lemma identify_outliers_resets_indicator_sample :
  exists df',
    identify_outliers sample_frame columns_to_abs default_threshold = inr df' /\
    identify_outliers df' columns_to_abs default_threshold = inr df'.
Proof.
  assert (exists df', identify_outliers sample_frame columns_to_abs
                        default_threshold = inr df') as [df' Hrun]
    by (eexists; vm_compute; reflexivity).
  exists df'. split; [exact Hrun|].
  exact (proj2 (identify_outliers_resets_indicator sample_frame columns_to_abs
                  default_threshold) df' Hrun).
Defined.

Lemma identify_outliers_labels_as_set_sample :
  identify_outliers sample_frame
    ["age_first_funding_year"; "relationships"] default_threshold =
  identify_outliers sample_frame
    ["relationships"; "age_first_funding_year"; "relationships"]
    default_threshold.
Proof.
  apply identify_outliers_labels_as_set.
  - exact wf_sample_frame.
  - apply (bool_decide_unpack _). vm_compute. reflexivity.
  - intros l. rewrite !elem_of_cons. tauto.
Defined.

Lemma identify_outliers_adds_indicator_sample :
  exists df' flags,
    identify_outliers sample_frame columns_to_abs default_threshold = inr df' /\
    wf df' /\
    columns df' !! "is_outlier" = Some (Numeric flags) /\
    length flags = nrows sample_frame.
Proof.
  assert (exists df', identify_outliers sample_frame columns_to_abs
                        default_threshold = inr df') as [df' Hrun]
    by (eexists; vm_compute; reflexivity).
  destruct (identify_outliers_adds_indicator sample_frame columns_to_abs
              default_threshold df' wf_sample_frame Hrun)
    as (Hwf & _ & _ & flags & Hflags & Hlen & _).
  exists df', flags. split; [exact Hrun|]. split; [exact Hwf|].
  split; [exact Hflags|exact Hlen].
Defined.

Lemma encoded_column_has_no_missing_sample :
  exists df' maps c mapping codes,
    encode_columns sample_frame ∅ categorical_columns = inr (df', maps) /\
    columns sample_frame !! "status" = Some c /\
    maps !! "status" = Some mapping /\
    columns df' !! "status" = Some (Numeric codes) /\
    count_missing (Numeric codes) = 0%nat.
Proof.
  assert (exists r, encode_columns sample_frame ∅ categorical_columns = inr r)
    as [[df' maps] Hrun] by (eexists; vm_compute; reflexivity).
  destruct (encoded_column_has_no_missing sample_frame categorical_columns
              df' maps) with (label := "status")
    as (c & mapping & codes & Hc & Hm & Hcodes & _ & _ & Hnone & _).
  - apply (bool_decide_unpack _). vm_compute. reflexivity.
  - exact Hrun.
  - apply (bool_decide_unpack _). vm_compute. reflexivity.
  - exists df', maps, c, mapping, codes. repeat split; assumption.
Defined.

Lemma encoder_rerun_forgets_values_sample :
  exists df1 maps1 maps2,
    encode_columns sample_frame ∅ categorical_columns = inr (df1, maps1) /\
    encode_columns df1 maps1 categorical_columns = inr (df1, maps2).
Proof.
  assert (exists r, encode_columns sample_frame ∅ categorical_columns = inr r)
    as [[df1 maps1] Hrun] by (eexists; vm_compute; reflexivity).
  destruct (encoder_rerun_forgets_values sample_frame categorical_columns
              df1 maps1) as (maps2 & Hagain & _).
  - apply (bool_decide_unpack _). vm_compute. reflexivity.
  - exact Hrun.
  - exists df1, maps1, maps2. split; [exact Hrun|exact Hagain].
Defined.

Lemma status_codes_agree_with_binary_status_sample :
  exists df1 maps df2,
    encode_columns sample_frame ∅ ["status"] = inr (df1, maps) /\
    add_binary_status sample_frame = inr df2 /\
    columns df1 !! "status" = columns df2 !! "binary_status".
Proof.
  destruct (status_codes_agree_with_binary_status sample_frame
              [Some "closed"; Some "acquired"; Some "acquired"])
    as (df1 & maps & df2 & Henc & Hbin & Hiff).
  - vm_compute. reflexivity.
  - discriminate.
  - apply (bool_decide_unpack _). vm_compute. reflexivity.
  - exists df1, maps, df2. split; [exact Henc|]. split; [exact Hbin|].
    apply (proj2 Hiff). reflexivity.
Defined.

Lemma date_offsets_comparable_sample :
  exists df', date_normalizer sample_frame = inr df'.
Proof.
  destruct (date_offsets_comparable sample_frame
              [day 10; day 1; day 20] [day 20; day 15; None]
              [day 30; day 15; day 41]) as (df' & Hrun & _).
  - vm_compute. reflexivity.
  - vm_compute. reflexivity.
  - vm_compute. reflexivity.
  - exists df'. exact Hrun.
Defined.

Lemma date_normalizer_not_rerunnable_sample :
  exists df',
    date_normalizer sample_frame = inr df' /\
    date_normalizer df' = inl (KeyError date_columns).
Proof.
  assert (exists df', date_normalizer sample_frame = inr df') as [df' Hrun]
    by (eexists; vm_compute; reflexivity).
  exists df'. split; [exact Hrun|].
  exact (proj2 (date_normalizer_not_rerunnable sample_frame df' Hrun)).
Defined.

Lemma plot_scatter_plots_positions_sample :
  exists drawn,
    plot_scatter_plots plot_configs = Some drawn /\
    subplot_index <$> drawn = seq 1 (length plot_configs).
Proof.
  destruct (plot_scatter_plots_positions plot_configs)
    as (drawn & Hrun & _ & _ & Hiff).
  exists drawn. split; [exact Hrun|].
  apply (proj2 Hiff). apply (bool_decide_unpack _). vm_compute. reflexivity.
Defined.

Lemma feature_kinds_after_conversion_sample :
  exists df1 maps df2,
    categorical_encoder sample_frame = inr (df1, maps) /\
    date_normalizer df1 = inr df2 /\
    categorical_features df2 =
      categorical_features sample_frame ∖
        (list_to_set (categorical_columns ++ days_labels) ∪
         list_to_set date_columns).
Proof.
  assert (exists r, categorical_encoder sample_frame = inr r)
    as [[df1 maps] Henc] by (eexists; vm_compute; reflexivity).
  assert (forall l, l ∈ date_columns ->
            columns df1 !! l = columns sample_frame !! l) as Hsame.
  { intros l Hl. apply (encode_columns_frame _ _ _ _ _ l Henc).
    revert l Hl. apply Forall_forall. apply (bool_decide_unpack _).
    vm_compute. reflexivity. }
  destruct (date_normalizer_total df1 [day 10; day 1; day 20]
              [day 20; day 15; None] [day 30; day 15; day 41])
    as [df2 Hdate].
  { rewrite Hsame by (apply (bool_decide_unpack _); vm_compute; reflexivity).
    vm_compute. reflexivity. }
  { rewrite Hsame by (apply (bool_decide_unpack _); vm_compute; reflexivity).
    vm_compute. reflexivity. }
  { rewrite Hsame by (apply (bool_decide_unpack _); vm_compute; reflexivity).
    vm_compute. reflexivity. }
  exists df1, maps, df2. split; [exact Henc|]. split; [exact Hdate|].
  exact (proj1 (feature_kinds_after_conversion sample_frame df1 maps df2
                  Henc Hdate)).
Defined.

Lemma heatmaps_need_encoded_status_sample :
  exists df1 maps,
    categorical_encoder sample_frame = inr (df1, maps) /\
    check_target (select_dtypes sample_frame numerics) "status" =
      inl (ValueError "status") /\
    check_target (select_dtypes df1 numerics) "status" = inr tt.
Proof.
  assert (exists r, categorical_encoder sample_frame = inr r)
    as [[df1 maps] Henc] by (eexists; vm_compute; reflexivity).
  destruct (heatmaps_need_encoded_status sample_frame df1 maps
              [Some "closed"; Some "acquired"; Some "acquired"])
    as (Hbefore & Hafter & _).
  - vm_compute. reflexivity.
  - exact Henc.
  - exists df1, maps. split; [exact Henc|]. split; [exact Hbefore|exact Hafter].
Defined.

Lemma export_contents_sample :
  let argsort := fun c => rev (seq 0 (col_length c)) in
  let strftime_Y := fun _ : Z => "2007" in
  let s := {| dataframe := sample_frame; figure := []; files := ∅ |} in
  exists s'' closed out,
    finish_preprocessing argsort strftime_Y s = inr s'' /\
    columns sample_frame !! "closed_at" = Some closed /\
    files s'' = <["cleaned_data.csv" := out]> (files s) /\
    columns out !! "closed_at" = None /\
    columns out !! "relationships" =
      reorder (argsort closed) <$> columns sample_frame !! "relationships".
Proof.
  intros argsort strftime_Y s.
  assert (exists s'', finish_preprocessing argsort strftime_Y s = inr s'')
    as [s'' Hrun] by (eexists; vm_compute; reflexivity).
  destruct (export_contents argsort strftime_Y s s'' Hrun)
    as (closed & out & Hclosed & _ & Hfiles & _ & _ & Hgone & _ & Hkept).
  exists s'', closed, out. split; [exact Hrun|]. split; [exact Hclosed|].
  split; [exact Hfiles|]. split.
  - apply Hgone. apply (bool_decide_unpack _). vm_compute. reflexivity.
  - apply Hkept; apply (bool_decide_unpack _); vm_compute; reflexivity.
Defined.

Lemma histograms_fit_the_grid_sample :
  let s := {| dataframe := sample_frame; figure := []; files := ∅ |} in
  exists s' added,
    histograms 0 (columns_to_abs ++ ["relationships"]) s = inr s' /\
    dataframe s' = sample_frame /\
    figure s' = figure s ++ added /\ length added = 5%nat.
Proof.
  intros s.
  assert (exists s', histograms 0 (columns_to_abs ++ ["relationships"]) s =
                     inr s') as [s' Hrun]
    by (eexists; vm_compute; reflexivity).
  destruct (histograms_fit_the_grid (columns_to_abs ++ ["relationships"])
              s s' Hrun) as (Hdf & _ & added & Hfig & Hlen & _).
  exists s', added. split; [exact Hrun|]. split; [exact Hdf|].
  split; [exact Hfig|exact Hlen].
Defined.

Lemma prop_df_proportions_sample :
  sum_list (counts <$> prop_df [Some "2007"; Some "2005"; Some "2007"; None])
  = 3%nat /\
  forall r, r ∈ prop_df [Some "2007"; Some "2005"; Some "2007"; None] ->
    proportions r =
      Machine.fdiv (Machine.of_int (Z.of_nat (counts r))) (Machine.of_int 3).
Proof.
  destruct (prop_df_proportions [Some "2007"; Some "2005"; Some "2007"; None])
    as (_ & _ & _ & Hrows & Hsum).
  split; [exact Hsum|]. intros r Hr. exact (proj2 (proj2 (Hrows r Hr))).
Defined.

(** The values behind some of these statements. *)
Example prop_df_example :
  prop_df [Some "2007"; Some "2005"; Some "2007"; None] =
    [mkPropRow "2005" 1 (Machine.of_ratio 1 3);
     mkPropRow "2007" 2 (Machine.of_ratio 2 3)].
Proof. vm_compute. reflexivity. Qed.

(** The proportions are rounded: six shares of one sixth do not add up
    to 1. *)
Example proportions_are_rounded :
  proportions <$> prop_df six_years =
    replicate 6 (Machine.of_ratio 1 6) /\
  Machine.nansum (proportions <$> prop_df six_years) =
    S754_finite false 9007199254740991 (-53) /\
  Machine.of_int 1 = S754_finite false 4503599627370496 (-52).
Proof. repeat split; vm_compute; reflexivity. Qed.

Example num_rows_example :
  num_rows (length specific_variables) = 2%nat /\ num_rows 10 = 2%nat /\
  num_rows 11 = 3%nat /\ num_rows 0 = 0%nat.
Proof. repeat split; vm_compute; reflexivity. Qed.

Example repeated_config_example :
  subplot_index <$>
    default [] (plot_scatter_plots
                  [("a", "b", "first"); ("c", "d", "second");
                   ("a", "b", "first")]) = [1; 2; 1]%nat.
Proof. vm_compute. reflexivity. Qed.

Example encoder_rerun_example :
  (let* r := categorical_encoder sample_frame in
   let* r' := encode_columns (fst r) (snd r) categorical_columns in
   ret (snd r' !! "status")) =
  inr (Some [(Number 0%Q, 0%nat); (Number 1%Q, 1%nat)]).
Proof. vm_compute. reflexivity. Qed.

Example drop_irrelevant_example :
  length irrelevant_columns = 25%nat /\
  drop sample_frame irrelevant_columns = inl (KeyError irrelevant_columns) /\
  drop sample_frame ["closed_at"; "zip_code"; "city"; "id"] =
    inl (KeyError ["zip_code"; "id"]).
Proof. repeat split; vm_compute; reflexivity. Qed.

Lemma preprocess_exports_clean_ages_sample :
  exists s'' closed out ys,
    preprocess sample_np_log sample_argsort sample_strftime_Y datetime_values
      sample_dt_year sample_state = inr s'' /\
    columns full_sample_frame !! "closed_at" = Some closed /\
    files s'' !! "cleaned_data.csv" = Some out /\
    columns out !! "age_first_milestone_year" = Some (Numeric ys) /\
    Forall nonneg_cell ys /\ Forall is_Some ys.
Proof.
  assert (exists s'',
            preprocess sample_np_log sample_argsort sample_strftime_Y
              datetime_values sample_dt_year sample_state = inr s'')
    as [s'' Hrun] by (eexists; vm_compute; reflexivity).
  assert (forall label xs, label ∈ columns_to_abs ->
            columns (dataframe sample_state) !! label = Some (Numeric xs) ->
            no_int64_min xs = true) as Hrange.
  { intros label xs Hl Hxs. apply list_elem_of_In in Hl.
    destruct Hl as [<-|[<-|[<-|[<-|[]]]]]; vm_compute in Hxs;
      injection Hxs as <-; vm_compute; reflexivity. }
  destruct (preprocess_exports_clean_ages sample_np_log sample_argsort
              sample_strftime_Y datetime_values sample_dt_year sample_state
              s'' Hrange Hrun)
    as (_ & closed & out & Hclosed & Hfile & Hages & _).
  destruct (Hages "age_first_milestone_year")
    as (xs & ys & Hxs & Hys & _ & Hnonneg & Hpresent).
  { apply (bool_decide_unpack _). vm_compute. reflexivity. }
  exists s'', closed, out, ys. split; [exact Hrun|]. split; [exact Hclosed|].
  split; [exact Hfile|]. split; [exact Hys|]. split; [exact Hnonneg|].
  apply Hpresent.
  - apply (bool_decide_unpack _). vm_compute. reflexivity.
  - assert (xs = [Some 1%Q; None; Some (-3)%Q]) as ->.
    { assert (columns full_sample_frame !! "age_first_milestone_year" =
              Some (Numeric [Some 1%Q; None; Some (-3)%Q])) as Hsample
        by (vm_compute; reflexivity).
      change (dataframe sample_state) with full_sample_frame in Hxs.
      rewrite Hsample in Hxs. by injection Hxs as <-. }
    eexists. vm_compute. reflexivity.
Defined.

(** Without the column the box plots read, the preprocessing stops there. *)
Example boxplots_example :
  (let* df := drop full_sample_frame ["avg_participants"] in
   preprocess sample_np_log sample_argsort sample_strftime_Y datetime_values
     sample_dt_year {| dataframe := df; figure := []; files := ∅ |})
  = inl (KeyError ["avg_participants"]).
Proof. vm_compute. reflexivity. Qed.

Example preprocess_example :
  match preprocess sample_np_log sample_argsort sample_strftime_Y
          datetime_values sample_dt_year sample_state with
  | inr s'' =>
      (fun out => (columns out !! "age_first_milestone_year",
                   columns out !! "age_first_funding_year",
                   columns out !! "is_outlier"))
        <$> files s'' !! "cleaned_data.csv"
  | inl _ => None
  end =
  Some (Some (Numeric [Some 3%Q; Some (2 # 2)%Q; Some 1%Q]),
        Some (Numeric [Some 2%Q; Some 10%Q; Some 5%Q]),
        Some (Numeric [Some 0%Q; Some 0%Q; Some 0%Q])).
Proof. vm_compute. reflexivity. Qed.
